(** * ray.util.client.dataclient : the threaded data-stream controller

    A verification development for [python/ray/util/client/dataclient.py].
    The [DataClient] object multiplexes blocking and callback-based requests
    over one bidirectional gRPC stream.  The embedding below follows the
    source method by method:

    - the attributes of [DataClient] are the fields of a record; the two
      dictionaries are [gmap]s keyed by the integer request id;
    - every method is a computation in a small monad [M] that threads the
      object, records the effects on the collaborators of the class (logger,
      condition variable, locks, callbacks, threads, [ray.util.disconnect])
      in a history of events, and can raise a Python exception or block;
    - the threads of the class (callers, the data thread running
      [_data_main], the outbound half of the stream) are put together in an
      interleaving step relation whose atomic steps are the shared-memory
      accesses of the source. *)

From Stdlib Require Import ZArith Lia.
From stdpp Require Import base list strings gmap.

Open Scope Z_scope.

(** ** Values exchanged on the stream *)

(** [grpc.StatusCode]. *)
Module grpc.
Inductive StatusCode :=
| OK | CANCELLED | UNKNOWN | INVALID_ARGUMENT | DEADLINE_EXCEEDED
| NOT_FOUND | ALREADY_EXISTS | PERMISSION_DENIED | RESOURCE_EXHAUSTED
| FAILED_PRECONDITION | ABORTED | OUT_OF_RANGE | UNIMPLEMENTED
| INTERNAL | UNAVAILABLE | DATA_LOSS | UNAUTHENTICATED.

Definition StatusCode_eqb (a b : StatusCode) : bool :=
  match a, b with
  | OK, OK | CANCELLED, CANCELLED | UNKNOWN, UNKNOWN
  | INVALID_ARGUMENT, INVALID_ARGUMENT
  | DEADLINE_EXCEEDED, DEADLINE_EXCEEDED | NOT_FOUND, NOT_FOUND
  | ALREADY_EXISTS, ALREADY_EXISTS | PERMISSION_DENIED, PERMISSION_DENIED
  | RESOURCE_EXHAUSTED, RESOURCE_EXHAUSTED
  | FAILED_PRECONDITION, FAILED_PRECONDITION | ABORTED, ABORTED
  | OUT_OF_RANGE, OUT_OF_RANGE | UNIMPLEMENTED, UNIMPLEMENTED
  | INTERNAL, INTERNAL | UNAVAILABLE, UNAVAILABLE | DATA_LOSS, DATA_LOSS
  | UNAUTHENTICATED, UNAUTHENTICATED => true
  | _, _ => false
  end.
End grpc.

(** The [oneof] payload of [ray_client_pb2.DataRequest] and
    [ray_client_pb2.DataResponse]; the typed bodies are opaque to the data
    client and are kept as strings. *)
Inductive Payload :=
| init (body : string)
| prep_runtime_env (body : string)
| connection_info (body : string)
| get (body : string)
| put (body : string)
| release (body : string).

(** [ray_client_pb2.DataRequest]: the envelope with its [req_id] field. *)
Record DataRequest := mkDataRequest {
  req_id : Z;
  req_payload : Payload;
}.

(** [ray_client_pb2.DataResponse]. *)
Record DataResponse := mkDataResponse {
  resp_req_id : Z;
  resp_payload : Payload;
}.

(** [req.req_id = req_id] (lines 133 and 163). *)
Definition set_req_id (req : DataRequest) (i : Z) : DataRequest :=
  {| req_id := i; req_payload := req_payload req |}.

(** An f-string is a sequence of literal pieces and interpolated values;
    the text of an interpolated protobuf message is produced by its [__str__],
    which lives outside this file, so rendering takes it as an argument. *)
Inductive FPart :=
| Lit (s : string)
| FmtRequest (r : DataRequest)
| FmtResponse (r : DataResponse).

Definition render_part (str_req : DataRequest -> string)
    (str_resp : DataResponse -> string) (p : FPart) : string :=
  match p with
  | Lit s => s
  | FmtRequest r => str_req r
  | FmtResponse r => str_resp r
  end.

Fixpoint render (str_req : DataRequest -> string)
    (str_resp : DataResponse -> string) (m : list FPart) : string :=
  match m with
  | [] => EmptyString
  | p :: m' => String.append (render_part str_req str_resp p)
                             (render str_req str_resp m')
  end.

(** ** Exceptions *)

(** The exceptions that occur in the module.  [OtherException] stands for
    any further subclass of [Exception]; [BaseExceptionOnly] for a
    [BaseException] that is not an [Exception] ([KeyboardInterrupt],
    [SystemExit], ...). *)
Inductive PyExc :=
| ConnectionError (msg : list FPart)
| AssertionError
| KeyError (k : Z)
| RpcError (code : grpc.StatusCode)
| OtherException (name : string)
| BaseExceptionOnly (name : string).

(** [isinstance(e, Exception)]. *)
Definition is_Exception (e : PyExc) : bool :=
  match e with
  | BaseExceptionOnly _ => false
  | _ => true
  end.

(** A [ResponseCallable] is user code: the data client only observes
    whether a call of it returns or raises. *)
Inductive CallbackResult :=
| CbReturns
| CbRaises (e : PyExc).

Definition ResponseCallable : Type := DataResponse -> CallbackResult.

(** The object passed as [callback]: its truth value, which [if callback]
    tests (true for every function object; false for an instance of a class
    whose [__bool__] or [__len__] says so), and what calling it does. *)
Record Callable := mkCallable {
  bool_of : bool;
  call_of : ResponseCallable;
}.

(** A function object. *)
Definition function (f : ResponseCallable) : Callable :=
  {| bool_of := true; call_of := f |}.

(** ** Effects on the collaborators *)

Inductive LogLevel := DEBUG | INFO | EXCEPTION.

(** [self.cv] (a [threading.Condition]) and [self.lock] (an [RLock]). *)
Inductive LockName := cv | lock.

(** The two background threads started by [__init__]. *)
Inductive ThreadName := data_thread | keepalive_thread.

Inductive Event :=
| EvLog (lvl : LogLevel) (msg : list FPart)
| EvAcquire (l : LockName)
| EvRelease (l : LockName)
| EvNotifyAll
| EvCallback (callback : ResponseCallable) (response : DataResponse)
| EvDisconnect
| EvJoin (t : ThreadName).

(** ** The object *)

(** The maximum field value for request_id (line 19). *)
Definition INT32_MAX : Z := 2 ^ 31 - 1.

(** The mutable attributes of a [DataClient] instance.  [request_queue] is
    the content of the [queue.Queue], oldest item first; [None] is the
    sentinel that ends [iter(self.request_queue.get, None)].
    [stop_keepalive] is the flag of the [threading.Event].  The channel,
    stub, client id and metadata are never written after construction and
    play no part in the control flow. *)
Record DataClient := mkDataClient {
  request_queue : list (option DataRequest);
  stop_keepalive : bool;
  ready_data : gmap Z DataResponse;
  asyncio_waiting_data : gmap Z ResponseCallable;
  _req_id : Z;
  _in_shutdown : bool;
}.

(** The object together with the history of effects on its collaborators,
    oldest first. *)
Record World := mkWorld {
  self : DataClient;
  history : list Event;
}.

(** [__init__] (lines 34-52). *)
Definition __init__ : DataClient :=
  {| request_queue := [];
     stop_keepalive := false;
     ready_data := ∅;
     asyncio_waiting_data := ∅;
     _req_id := 0;
     _in_shutdown := false |}.

Definition fresh : World := {| self := __init__; history := [] |}.

(** ** The monad of methods *)

(** A method call returns, raises, or cannot proceed in the current state
    (it is suspended in [cv.wait_for] or in [Thread.join]). *)
Inductive Outcome (A : Type) :=
| Return (a : A)
| Raise (e : PyExc)
| Blocks.
Arguments Return {A} a.
Arguments Raise {A} e.
Arguments Blocks {A}.

Definition M (A : Type) : Type := World -> Outcome A * World.

Definition ret {A} (a : A) : M A := fun w => (Return a, w).

Definition bind {A B} (m : M A) (k : A -> M B) : M B :=
  fun w =>
    match m w with
    | (Return a, w') => k a w'
    | (Raise e, w') => (Raise e, w')
    | (Blocks, w') => (Blocks, w')
    end.

Notation "'let*' x ':=' m 'in' k" := (bind m (fun x => k))
  (at level 10, x pattern, m at level 100, k at level 200,
   format "'[v' 'let*'  x  ':='  m  'in' '/' k ']'").
Notation "m >> k" := (bind m (fun _ => k))
  (at level 100, k at level 200, right associativity).

Definition raise {A} (e : PyExc) : M A := fun w => (Raise e, w).
Definition blocks {A} : M A := fun w => (Blocks, w).

(** Read and write of the object. *)
Definition read {A} (f : DataClient -> A) : M A :=
  fun w => (Return (f (self w)), w).

Definition modify (f : DataClient -> DataClient) : M unit :=
  fun w => (Return tt, {| self := f (self w); history := history w |}).

(** An effect on a collaborator. *)
Definition emit (e : Event) : M unit :=
  fun w => (Return tt, {| self := self w; history := history w ++ [e] |}).

(** [try: m except Exception: h]. *)
Definition try_except_Exception {A} (m : M A) (h : PyExc -> M A) : M A :=
  fun w =>
    match m w with
    | (Raise e, w') => if is_Exception e then h e w' else (Raise e, w')
    | r => r
    end.

(** Field updates. *)
Definition set_request_queue (q : list (option DataRequest)) (s : DataClient) :=
  {| request_queue := q; stop_keepalive := stop_keepalive s;
     ready_data := ready_data s;
     asyncio_waiting_data := asyncio_waiting_data s;
     _req_id := _req_id s; _in_shutdown := _in_shutdown s |}.

Definition set_stop_keepalive (b : bool) (s : DataClient) :=
  {| request_queue := request_queue s; stop_keepalive := b;
     ready_data := ready_data s;
     asyncio_waiting_data := asyncio_waiting_data s;
     _req_id := _req_id s; _in_shutdown := _in_shutdown s |}.

Definition set_ready_data (m : gmap Z DataResponse) (s : DataClient) :=
  {| request_queue := request_queue s; stop_keepalive := stop_keepalive s;
     ready_data := m;
     asyncio_waiting_data := asyncio_waiting_data s;
     _req_id := _req_id s; _in_shutdown := _in_shutdown s |}.

Definition set_asyncio_waiting_data (m : gmap Z ResponseCallable)
    (s : DataClient) :=
  {| request_queue := request_queue s; stop_keepalive := stop_keepalive s;
     ready_data := ready_data s;
     asyncio_waiting_data := m;
     _req_id := _req_id s; _in_shutdown := _in_shutdown s |}.

Definition set__req_id (i : Z) (s : DataClient) :=
  {| request_queue := request_queue s; stop_keepalive := stop_keepalive s;
     ready_data := ready_data s;
     asyncio_waiting_data := asyncio_waiting_data s;
     _req_id := i; _in_shutdown := _in_shutdown s |}.

Definition set__in_shutdown (b : bool) (s : DataClient) :=
  {| request_queue := request_queue s; stop_keepalive := stop_keepalive s;
     ready_data := ready_data s;
     asyncio_waiting_data := asyncio_waiting_data s;
     _req_id := _req_id s; _in_shutdown := b |}.

(** [with l: body]: the lock is released on every exit of the body. *)
Definition with_lock {A} (l : LockName) (body : M A) : M A :=
  fun w =>
    match (emit (EvAcquire l) >> body) w with
    | (Blocks, _) => (Blocks, w)
    | (r, w') => (r, {| self := self w'; history := history w' ++ [EvRelease l] |})
    end.

(** Exceptions raised by [m] that are instances of [grpc.RpcError] are
    handled by [h]; every other outcome passes through
    ([try: m except grpc.RpcError as e: h e]). *)
Definition try_except_RpcError {A} (m : M A) (h : grpc.StatusCode -> M A)
    : M A :=
  fun w =>
    match m w with
    | (Raise (RpcError code), w') => h code w'
    | r => r
    end.

(** ** Collaborators *)

(** [self.request_queue.put(item)]: the queue is unbounded, so [put] never
    blocks. *)
Definition request_queue_put (item : option DataRequest) : M unit :=
  modify (fun s => set_request_queue (request_queue s ++ [item]) s).

(** Modelled from the spec: [ray.util.disconnect], imported and called at
    lines 125-126, 140-141 and 155-156, is not part of this file.  The spec
    (4.4) has it as the externally-owned client disconnect procedure,
    triggered before the error is raised.  The call is recorded in the
    history; what the procedure does to the session is its own affair. *)
Definition disconnect : M unit := emit EvDisconnect.

(** [logger.debug], [logger.info], [logger.exception]. *)
Definition logger (lvl : LogLevel) (msg : list FPart) : M unit :=
  emit (EvLog lvl msg).

(** [self.cv.notify_all()]. *)
Definition notify_all : M unit := emit EvNotifyAll.

(** [self.cv.wait_for(predicate)], called with the lock held: the caller
    proceeds, holding the lock, in a state where the predicate holds, and
    is suspended in every other state.  The two writes that can make the
    predicate of line 138 true (lines 92 and 96) are each followed by
    [notify_all] under the same lock, so no wake-up is lost. *)
Definition wait_for (predicate : DataClient -> bool) : M unit :=
  fun w => if predicate (self w) then (Return tt, w) else (Blocks, w).

(** [callback(response)]. *)
Definition call (callback : ResponseCallable) (response : DataResponse)
    : M unit :=
  emit (EvCallback callback response) >>
  match callback response with
  | CbReturns => ret tt
  | CbRaises e => raise e
  end.

(** [thread.join()], seen from the joining method.  The target of the
    keepalive thread, [_keepalive_main], is imported from
    [ray.util.client.common]; it is given [stop_keepalive] and is taken to
    end once that event is set. *)
Definition join (t : ThreadName) : M unit := emit (EvJoin t).

(** ** Methods of [DataClient] *)

(** [_next_id] (lines 54-62). *)
Definition _next_id : M Z :=
  with_lock lock (
    let* i := read _req_id in
    modify (set__req_id (i + 1)) >>
    let* i := read _req_id in
    (if i >? INT32_MAX then modify (set__req_id 1) else ret tt) >>
    let* i := read _req_id in
    (if i =? 0 then raise AssertionError else ret tt) >>
    read _req_id).

(** The message of lines 128-131 and 158-161. *)
Definition msg_not_sent : list FPart :=
  [Lit "Request can't be sent because the data channel is terminated. This is likely because the data channel disconnected at some point before this request was prepared. Ray Client has been disconnected."].

(** The f-string of lines 143-146. *)
Definition msg_send_failed (req : DataRequest) : list FPart :=
  [Lit "Sending request failed because the data channel terminated. This is usually due to an error in handling the most recent request: ";
   FmtRequest req;
   Lit ". Ray Client has been disconnected."].

(** [_blocking_send], lines 124-135: the part before the caller takes the
    condition variable.  It returns the stamped request and its id, the two
    local variables the second part uses. *)
Definition _blocking_send_dispatch (req : DataRequest)
    : M (DataRequest * Z) :=
  let* in_shutdown := read _in_shutdown in
  if in_shutdown : bool then
    disconnect >>
    raise (ConnectionError msg_not_sent)
  else
    let* req_id := _next_id in
    let req := set_req_id req req_id in
    request_queue_put (Some req) >>
    ret (req, req_id).

(** [_blocking_send], lines 136-149: the [with self.cv] block and the
    return. *)
Definition _blocking_send_wait (req : DataRequest) (req_id : Z)
    : M DataResponse :=
  with_lock cv (
    wait_for (fun s => bool_decide (is_Some (ready_data s !! req_id))
                       || _in_shutdown s) >>
    let* in_shutdown := read _in_shutdown in
    if in_shutdown : bool then
      disconnect >>
      raise (ConnectionError (msg_send_failed req))
    else
      let* ready := read ready_data in
      match ready !! req_id with
      | None => raise (KeyError req_id)
      | Some data =>
          modify (fun s => set_ready_data (delete req_id (ready_data s)) s) >>
          ret data
      end).

(** [_blocking_send] (lines 122-149). *)
Definition _blocking_send (req : DataRequest) : M DataResponse :=
  let* (req, req_id) := _blocking_send_dispatch req in
  _blocking_send_wait req req_id.

(** [_async_send], lines 164-165: [if callback] is false for [None] and
    for a callable whose truth value is false; otherwise the callable is
    stored under the id. *)
Definition _async_send_register (req_id : Z)
    (callback : option Callable) : M unit :=
  match callback with
  | Some cb =>
      if bool_of cb then
        modify (fun s =>
          set_asyncio_waiting_data
            (<[req_id := call_of cb]> (asyncio_waiting_data s)) s)
      else ret tt
  | None => ret tt
  end.

(** [_async_send] (lines 151-166). *)
Definition _async_send (req : DataRequest)
    (callback : option Callable) : M unit :=
  let* in_shutdown := read _in_shutdown in
  if in_shutdown : bool then
    disconnect >>
    raise (ConnectionError msg_not_sent)
  else
    let* req_id := _next_id in
    let req := set_req_id req req_id in
    _async_send_register req_id callback >>
    request_queue_put (Some req).

(** The body of the [for] loop of [_data_main] (lines 80-93). *)
Definition handle_response (response : DataResponse) : M unit :=
  if resp_req_id response =? 0 then
    logger DEBUG [Lit "Got unawaited response "; FmtResponse response]
  else
    let* waiting := read asyncio_waiting_data in
    match waiting !! resp_req_id response with
    | Some callback =>
        modify (fun s =>
          set_asyncio_waiting_data
            (delete (resp_req_id response) (asyncio_waiting_data s)) s) >>
        try_except_Exception
          (call callback response)
          (fun _ => logger EXCEPTION [Lit "Callback error:"])
    | None =>
        with_lock cv (
          modify (fun s =>
            set_ready_data
              (<[resp_req_id response := response]> (ready_data s)) s) >>
          notify_all)
    end.

(** How the iteration over [resp_stream] ends: the iterator is exhausted,
    or its [__next__] raises. *)
Inductive StreamEnd :=
| StopIteration
| StreamRaises (e : PyExc).

(** [for response in resp_stream: ...] (lines 79-93), for a stream that
    yields the responses [resp_stream] and then ends with [fin]. *)
Fixpoint for_response_in (resp_stream : list DataResponse) (fin : StreamEnd)
    : M unit :=
  match resp_stream with
  | [] =>
      match fin with
      | StopIteration => ret tt
      | StreamRaises e => raise e
      end
  | response :: rest =>
      handle_response response >>
      for_response_in rest fin
  end.

(** The handler of [except grpc.RpcError as e] (lines 95-111). *)
Definition on_RpcError (code : grpc.StatusCode) : M unit :=
  with_lock cv (
    modify (set__in_shutdown true) >>
    notify_all) >>
  if grpc.StatusCode_eqb code grpc.CANCELLED then
    logger INFO [Lit "Cancelling data channel"]
  else if grpc.StatusCode_eqb code grpc.UNAVAILABLE
          || grpc.StatusCode_eqb code grpc.RESOURCE_EXHAUSTED then
    logger INFO [Lit "Server disconnected from data channel"]
  else
    logger EXCEPTION [Lit "Got Error from data channel -- shutting down:"].

(** [_data_main] (lines 73-111). *)
Definition _data_main (resp_stream : list DataResponse) (fin : StreamEnd)
    : M unit :=
  try_except_RpcError (for_response_in resp_stream fin) on_RpcError.

(** [close] (lines 113-120).  [request_queue], [data_thread] and
    [keepalive_thread] are assigned by [__init__] and by nothing else, so
    the three [is not None] tests succeed. *)
Definition close : M unit :=
  modify (set_stop_keepalive true) >>
  request_queue_put None >>
  join data_thread >>
  join keepalive_thread.

(** ** The per-operation methods *)

(** Modelled from the spec: the generated module [ray_client_pb2] is not
    part of this file.  The spec (6) has the payload of a response as a
    oneof; reading a field of a protobuf oneof that is not the one set
    gives the default message, whose body is empty. *)
Definition resp_init (resp : DataResponse) : string :=
  match resp_payload resp with init body => body | _ => "" end.

Definition resp_prep_runtime_env (resp : DataResponse) : string :=
  match resp_payload resp with prep_runtime_env body => body | _ => "" end.

Definition resp_connection_info (resp : DataResponse) : string :=
  match resp_payload resp with connection_info body => body | _ => "" end.

Definition resp_get (resp : DataResponse) : string :=
  match resp_payload resp with get body => body | _ => "" end.

Definition resp_put (resp : DataResponse) : string :=
  match resp_payload resp with put body => body | _ => "" end.

(** [ray_client_pb2.DataRequest(kind=request)]: the id of a new request is
    the default of the field, 0. *)
Definition new_DataRequest (payload : Payload) : DataRequest :=
  {| req_id := 0; req_payload := payload |}.

(** [Init] (lines 168-172). *)
Definition Init (request : string) : M string :=
  let datareq := new_DataRequest (init request) in
  let* resp := _blocking_send datareq in
  ret (resp_init resp).

(** [PrepRuntimeEnv] (lines 174-179). *)
Definition PrepRuntimeEnv (request : string) : M string :=
  let datareq := new_DataRequest (prep_runtime_env request) in
  let* resp := _blocking_send datareq in
  ret (resp_prep_runtime_env resp).

(** [ConnectionInfo] (lines 181-186); the request it wraps is a new, empty
    [ConnectionInfoRequest]. *)
Definition ConnectionInfo : M string :=
  let datareq := new_DataRequest (connection_info "") in
  let* resp := _blocking_send datareq in
  ret (resp_connection_info resp).

(** [GetObject] (lines 188-192). *)
Definition GetObject (request : string) : M string :=
  let datareq := new_DataRequest (get request) in
  let* resp := _blocking_send datareq in
  ret (resp_get resp).

(** [RegisterGetCallback] (lines 194-199). *)
Definition RegisterGetCallback (request : string)
    (callback : Callable) : M unit :=
  let datareq := new_DataRequest (get request) in
  _async_send datareq (Some callback).

(** [PutObject] (lines 201-205). *)
Definition PutObject (request : string) : M string :=
  let datareq := new_DataRequest (put request) in
  let* resp := _blocking_send datareq in
  ret (resp_put resp).

(** [ReleaseObject] (lines 207-211). *)
Definition ReleaseObject (request : string) : M unit :=
  let datareq := new_DataRequest (release request) in
  _async_send datareq None.

(** ** Threads *)

(** The control points of one call of [_blocking_send], [_async_send] or
    [close], named after the source line the call is about to execute, with
    the local variables live there.  Between two control points lies one
    access to the shared object. *)
Inductive Call :=
| blocking_L124 (req : DataRequest)
| blocking_L132 (req : DataRequest)
| blocking_L134 (req : DataRequest) (req_id : Z)
| blocking_L136 (req : DataRequest) (req_id : Z)
| async_L154 (req : DataRequest) (callback : option Callable)
| async_L162 (req : DataRequest) (callback : option Callable)
| async_L164 (req : DataRequest) (req_id : Z)
    (callback : option Callable)
| async_L166 (req : DataRequest) (req_id : Z)
| close_L114
| close_L116
| close_L118
| close_L120
| returned (value : option DataResponse)
| raised (e : PyExc).

(** One atomic step of a call.  [Thread.join] on the data thread proceeds
    once that thread has finished; the keepalive thread ends by itself once
    [stop_keepalive] is set. *)
Definition call_step (data_thread_finished : bool) (c : Call) : M Call :=
  match c with
  | blocking_L124 req =>
      let* in_shutdown := read _in_shutdown in
      if in_shutdown : bool then
        disconnect >>
        raise (ConnectionError msg_not_sent)
      else ret (blocking_L132 req)
  | blocking_L132 req =>
      let* req_id := _next_id in
      ret (blocking_L134 (set_req_id req req_id) req_id)
  | blocking_L134 req req_id =>
      request_queue_put (Some req) >>
      ret (blocking_L136 req req_id)
  | blocking_L136 req req_id =>
      let* data := _blocking_send_wait req req_id in
      ret (returned (Some data))
  | async_L154 req callback =>
      let* in_shutdown := read _in_shutdown in
      if in_shutdown : bool then
        disconnect >>
        raise (ConnectionError msg_not_sent)
      else ret (async_L162 req callback)
  | async_L162 req callback =>
      let* req_id := _next_id in
      ret (async_L164 (set_req_id req req_id) req_id callback)
  | async_L164 req req_id callback =>
      _async_send_register req_id callback >>
      ret (async_L166 req req_id)
  | async_L166 req req_id =>
      request_queue_put (Some req) >>
      ret (returned None)
  | close_L114 =>
      modify (set_stop_keepalive true) >>
      ret close_L116
  | close_L116 =>
      request_queue_put None >>
      ret close_L118
  | close_L118 =>
      if data_thread_finished then
        join data_thread >>
        ret close_L120
      else blocks
  | close_L120 =>
      join keepalive_thread >>
      ret (returned None)
  | returned _ | raised _ => blocks
  end.

(** The control point a step leads to: an exception ends the call. *)
Definition next_point (r : Outcome Call) : option Call :=
  match r with
  | Return c => Some c
  | Raise e => Some (raised e)
  | Blocks => None
  end.

(** A call run to its end with no other thread in between. *)
Fixpoint run_call (fuel : nat) (c : Call) : M (option DataResponse) :=
  match c with
  | returned value => ret value
  | raised e => raise e
  | _ =>
      match fuel with
      | O => blocks
      | S fuel' =>
          let* c' := call_step true c in
          run_call fuel' c'
      end
  end.

(** The data thread: it is iterating over the rest of the response stream,
    or [_data_main] has ended. *)
Inductive DataThread :=
| iterating (rest : list DataResponse) (fin : StreamEnd)
| finished (r : Outcome unit).

Definition data_thread_finished (t : DataThread) : bool :=
  match t with
  | iterating _ _ => false
  | finished _ => true
  end.

Definition remaining (t : DataThread) : list DataResponse :=
  match t with
  | iterating rest _ => rest
  | finished _ => []
  end.

(** One step of the data thread: the loop body on the next response, or
    the end of the iteration.  An exception that leaves the loop body goes
    through the [except grpc.RpcError] clause like one raised by the
    stream. *)
Definition data_thread_step (t : DataThread) (w : World)
    : option (DataThread * World) :=
  match t with
  | iterating [] fin =>
      let (r, w') := _data_main [] fin w in
      Some (finished r, w')
  | iterating (response :: rest) fin =>
      match handle_response response w with
      | (Return _, w') => Some (iterating rest fin, w')
      | (Raise e, w') =>
          let (r, w'') := _data_main [] (StreamRaises e) w' in
          Some (finished r, w'')
      | (Blocks, _) => None
      end
  | finished _ => None
  end.

(** The data thread run to its end with no other thread in between. *)
Fixpoint run_data_thread (fuel : nat) (t : DataThread) (w : World)
    : Outcome unit * World :=
  match t with
  | finished r => (r, w)
  | _ =>
      match fuel with
      | O => (Blocks, w)
      | S fuel' =>
          match data_thread_step t w with
          | Some (t', w') => run_data_thread fuel' t' w'
          | None => (Blocks, w)
          end
      end
  end.

(** The client, its calls in progress, the data thread, and the outbound
    half of the stream, which takes requests from the queue
    ([iter(self.request_queue.get, None)]) and writes them to the wire
    until it takes the sentinel. *)
Record System := mkSystem {
  world : World;
  calls : list Call;
  data : DataThread;
  wire : list DataRequest;
  outbound_open : bool;
}.

Inductive step : System → System → Prop :=
| step_call (s : System) (i : nat) (c c' : Call) (r : Outcome Call)
    (w' : World) :
    calls s !! i = Some c →
    call_step (data_thread_finished (data s)) c (world s) = (r, w') →
    next_point r = Some c' →
    step s {| world := w'; calls := <[i := c']> (calls s); data := data s;
              wire := wire s; outbound_open := outbound_open s |}
| step_data (s : System) (t' : DataThread) (w' : World) :
    data_thread_step (data s) (world s) = Some (t', w') →
    step s {| world := w'; calls := calls s; data := t';
              wire := wire s; outbound_open := outbound_open s |}
| step_outbound_request (s : System) (req : DataRequest)
    (queue : list (option DataRequest)) :
    outbound_open s = true →
    request_queue (self (world s)) = Some req :: queue →
    step s {| world := {| self := set_request_queue queue (self (world s));
                          history := history (world s) |};
              calls := calls s; data := data s;
              wire := wire s ++ [req]; outbound_open := true |}
| step_outbound_sentinel (s : System) (queue : list (option DataRequest)) :
    outbound_open s = true →
    request_queue (self (world s)) = None :: queue →
    step s {| world := {| self := set_request_queue queue (self (world s));
                          history := history (world s) |};
              calls := calls s; data := data s;
              wire := wire s; outbound_open := false |}.

(** A call that has not started. *)
Definition entry_point (c : Call) : Prop :=
  match c with
  | blocking_L124 _ | async_L154 _ _ | close_L114 => True
  | _ => False
  end.

(** The system right after construction: no call has started, and the data
    thread is about to iterate over the stream. *)
Definition initial (s : System) : Prop :=
  world s = fresh
  ∧ Forall entry_point (calls s)
  ∧ (∃ resp_stream fin, data s = iterating resp_stream fin)
  ∧ wire s = []
  ∧ outbound_open s = true.

(** An execution is the list of the states it goes through. *)
Definition execution (states : list System) : Prop :=
  ∀ (p : nat) (s s' : System),
    states !! p = Some s → states !! S p = Some s' → step s s'.

(** The threads that can take a step, and the step each takes: the
    executable form of [step]. *)
Inductive Turn :=
| turn_call (i : nat)
| turn_data
| turn_outbound.

Definition schedule (t : Turn) (s : System) : option System :=
  match t with
  | turn_call i =>
      match calls s !! i with
      | Some c =>
          let (r, w') :=
            call_step (data_thread_finished (data s)) c (world s) in
          match next_point r with
          | Some c' =>
              Some {| world := w'; calls := <[i := c']> (calls s);
                      data := data s; wire := wire s;
                      outbound_open := outbound_open s |}
          | None => None
          end
      | None => None
      end
  | turn_data =>
      match data_thread_step (data s) (world s) with
      | Some (t', w') =>
          Some {| world := w'; calls := calls s; data := t';
                  wire := wire s; outbound_open := outbound_open s |}
      | None => None
      end
  | turn_outbound =>
      if outbound_open s then
        match request_queue (self (world s)) with
        | item :: queue =>
            Some {| world :=
                      {| self := set_request_queue queue (self (world s));
                         history := history (world s) |};
                    calls := calls s; data := data s;
                    wire := match item with
                            | Some req => wire s ++ [req]
                            | None => wire s
                            end;
                    outbound_open := match item with
                                     | Some _ => true
                                     | None => false
                                     end |}
        | [] => None
        end
      else None
  end.

(** The states a system goes through under a list of turns, the first
    state included; [None] when a turn cannot be taken. *)
Fixpoint run_schedule (turns : list Turn) (s : System)
    : option (list System) :=
  match turns with
  | [] => Some [s]
  | t :: turns' =>
      match schedule t s with
      | Some s' =>
          match run_schedule turns' s' with
          | Some states => Some (s :: states)
          | None => None
          end
      | None => None
      end
  end.

(** * Vocabulary of the statements *)

(** The id that [_next_id] hands out when the counter stands at [i]. *)
Definition successor_id (i : Z) : Z :=
  if i + 1 >? INT32_MAX then 1 else i + 1.

(** The ids returned by [n] successive calls of [_next_id], in order. *)
Fixpoint successive_next_id (n : nat) : M (list Z) :=
  match n with
  | O => ret []
  | S n' =>
      let* i := _next_id in
      let* l := successive_next_id n' in
      ret (i :: l)
  end.

(** The closed form of the sequence of ids: the id returned by the [k]-th
    allocation of a fresh client, and the counter after [k] allocations. *)
Definition id_of_call (k : Z) : Z := (k - 1) mod INT32_MAX + 1.

Definition counter_after (k : Z) : Z :=
  if k =? 0 then 0 else id_of_call k.

(** The world after a refused call: the one that the call of [disconnect]
    leaves. *)
Definition refused (w : World) : World := snd (disconnect w).

(** A client on which only the shutdown flag has been set. *)
Definition shut_down : World :=
  {| self := set__in_shutdown true __init__; history := [] |}.

(** The world after the loop body has dealt with a response of id 0. *)
Definition after_unawaited (response : DataResponse) (w : World) : World :=
  {| self := self w;
     history := history w ++
       [EvLog DEBUG [Lit "Got unawaited response "; FmtResponse response]] |}.

(** The object after the entry of [rid] has been popped from
    [asyncio_waiting_data]. *)
Definition popped (rid : Z) (s : DataClient) : DataClient :=
  set_asyncio_waiting_data (delete rid (asyncio_waiting_data s)) s.

(** The world after the loop body has stored a response for a blocking
    caller. *)
Definition after_ready (response : DataResponse) (w : World) : World :=
  {| self := set_ready_data
               (<[resp_req_id response := response]> (ready_data (self w)))
               (self w);
     history := history w ++ [EvAcquire cv; EvNotifyAll; EvRelease cv] |}.

(** The callbacks invoked in a history. *)
Definition callbacks_invoked (h : list Event) : list DataResponse :=
  omap (λ e, match e with EvCallback _ r => Some r | _ => None end) h.

(** A callback that raises [ValueError]. *)
Definition failing_callback : ResponseCallable :=
  λ _, CbRaises (OtherException "ValueError").

(** A client with [failing_callback] registered under id 1. *)
Definition one_failing_callback : World :=
  {| self := set_asyncio_waiting_data {[ 1 := failing_callback ]}
               (set__req_id 1 __init__);
     history := [] |}.

(** The log record written by the handler of [grpc.RpcError]. *)
Definition termination_record (code : grpc.StatusCode) : Event :=
  match code with
  | grpc.CANCELLED => EvLog INFO [Lit "Cancelling data channel"]
  | grpc.UNAVAILABLE | grpc.RESOURCE_EXHAUSTED =>
      EvLog INFO [Lit "Server disconnected from data channel"]
  | _ => EvLog EXCEPTION [Lit "Got Error from data channel -- shutting down:"]
  end.

(** The id held by a call past the allocation is the one stamped on its
    request, and is a valid id. *)
Definition stamped (c : Call) : Prop :=
  match c with
  | blocking_L134 req i | blocking_L136 req i
  | async_L164 req i _ | async_L166 req i =>
      req_id req = i ∧ 1 ≤ i ≤ INT32_MAX
  | _ => True
  end.

Definition well_formed (s : System) : Prop :=
  0 ≤ _req_id (self (world s)) ≤ INT32_MAX
  ∧ ∀ i c, calls s !! i = Some c → stamped c.

(** Every response is handed to at most one blocking call: the responses
    still to come are pairwise different, a response stored in
    [ready_data] is stored under its own id and is not among those still to
    come, and a response that a blocking call has returned is neither
    still to come, nor stored, nor returned by another call. *)
Definition exactly_once (s : System) : Prop :=
  NoDup (remaining (data s))
  ∧ (∀ k v, ready_data (self (world s)) !! k = Some v →
       resp_req_id v = k ∧ v ∉ remaining (data s))
  ∧ (∀ i v, calls s !! i = Some (returned (Some v)) →
       (v ∉ remaining (data s))
       ∧ (∀ k, ready_data (self (world s)) !! k ≠ Some v))
  ∧ (∀ i j v, calls s !! i = Some (returned (Some v)) →
       calls s !! j = Some (returned (Some v)) → i = j).

(** The response a call has returned, if it is a blocking call that has
    returned. *)
Definition returned_response (c : Call) : option DataResponse :=
  match c with
  | returned (Some response) => Some response
  | _ => None
  end.

(** The responses the blocking calls have returned so far. *)
Definition delivered (s : System) : list DataResponse :=
  omap returned_response (calls s).

(** The responses waiting in [ready_data]. *)
Definition stored (w : World) : list DataResponse :=
  (map_to_list (ready_data (self w))).*2.

(** The responses that are returned, waiting, or still to come. *)
Definition accounted (s : System) : list DataResponse :=
  delivered s ++ stored (world s) ++ remaining (data s).

(** The state a list of turns leads to; the starting state itself when a
    turn cannot be taken. *)
Definition state_after (turns : list Turn) (s : System) : System :=
  match run_schedule turns s with
  | Some states => default s (last states)
  | None => s
  end.

(** One blocking call and a stream that answers it. *)
Definition one_blocking_call : System :=
  {| world := fresh;
     calls := [blocking_L124 (mkDataRequest 0 (get "x"))];
     data := iterating [mkDataResponse 1 (get "y")] StopIteration;
     wire := [];
     outbound_open := true |}.

(** The control points of one call of [_async_send req0 callback0]. *)
Definition async_origin (req0 : DataRequest)
    (callback0 : option Callable) (c : Call) : Prop :=
  match c with
  | async_L154 req callback | async_L162 req callback =>
      req = req0 ∧ callback = callback0
  | async_L164 req i callback =>
      req = set_req_id req0 i ∧ callback = callback0
  | async_L166 req i => req = set_req_id req0 i
  | returned _ | raised _ => True
  | _ => False
  end.

(** A callback that returns. *)
Definition quiet_callback : ResponseCallable := λ _, CbReturns.

(** [asyncio_waiting_data] after lines 164-165. *)
Definition registered (req_id : Z) (callback : option Callable)
    (waiting : gmap Z ResponseCallable) : gmap Z ResponseCallable :=
  match callback with
  | Some cb => if bool_of cb then <[req_id := call_of cb]> waiting else waiting
  | None => waiting
  end.

(** A callable that is not [None] and is false in a boolean context. *)
Definition falsy_callback : Callable :=
  {| bool_of := false; call_of := quiet_callback |}.

(** One call of [_async_send] with [falsy_callback], and the states of its
    run. *)
Definition falsy_async_call : System :=
  {| world := fresh;
     calls := [async_L154 (mkDataRequest 0 (get "x")) (Some falsy_callback)];
     data := iterating [] StopIteration;
     wire := [];
     outbound_open := true |}.

Definition falsy_async_states : list System :=
  default [] (run_schedule [turn_call 0; turn_call 0; turn_call 0;
                            turn_call 0] falsy_async_call).

(** An asynchronous call with a callback next to a blocking call, and the
    states of one interleaving of the two with the outbound stream. *)
Definition async_and_blocking : System :=
  {| world := fresh;
     calls := [async_L154 (mkDataRequest 0 (get "x"))
                 (Some (function quiet_callback));
               blocking_L124 (mkDataRequest 0 (put "y"))];
     data := iterating [] StopIteration;
     wire := [];
     outbound_open := true |}.

Definition interleaving : list Turn :=
  [turn_call 0; turn_call 1; turn_call 0; turn_call 1; turn_call 0;
   turn_call 1; turn_outbound; turn_call 0].

Definition interleaved_states : list System :=
  default [] (run_schedule interleaving async_and_blocking).

(** What the read loop may do to a world while it handles the responses
    [rs]: it leaves the counter, the request queue, the keepalive event and
    the shutdown flag alone; it only removes registrations; it invokes
    callbacks only with responses of [rs] of non-zero id, each at most once
    and in the order of arrival; what it adds to [ready_data] is a response
    of [rs] under its own, non-zero id; it only adds to the history. *)
Definition loop_frame (rs : list DataResponse) (w w' : World) : Prop :=
  _req_id (self w') = _req_id (self w)
  ∧ request_queue (self w') = request_queue (self w)
  ∧ stop_keepalive (self w') = stop_keepalive (self w)
  ∧ _in_shutdown (self w') = _in_shutdown (self w)
  ∧ asyncio_waiting_data (self w') ⊆ asyncio_waiting_data (self w)
  ∧ (∃ l, callbacks_invoked (history w')
          = callbacks_invoked (history w) ++ l
          ∧ l `sublist_of` rs
          ∧ Forall (λ r, resp_req_id r ≠ 0) l)
  ∧ (∀ k v, ready_data (self w') !! k = Some v →
       ready_data (self w) !! k = Some v
       ∨ (v ∈ rs ∧ resp_req_id v = k ∧ k ≠ 0))
  ∧ history w `prefix_of` history w'.

(** A client with [failing_callback] under id 1 and a callback that raises
    [KeyboardInterrupt] under id 2. *)
Definition interrupting_callback : ResponseCallable :=
  λ _, CbRaises (BaseExceptionOnly "KeyboardInterrupt").

Definition two_callbacks : World :=
  {| self := set_asyncio_waiting_data
               {[ 1 := failing_callback; 2 := interrupting_callback ]}
               (set__req_id 2 __init__);
     history := [] |}.

(** The stream of the data thread ends, or has ended, without raising. *)
Definition ends_cleanly (t : DataThread) : Prop :=
  match t with
  | iterating _ fin => fin = StopIteration
  | finished _ => True
  end.

(** Everything that was ever put on the request queue, in the order of the
    [put]s: what the outbound stream has written to the wire, the sentinel
    if it has taken it, and what is still in the queue. *)
Definition outbound_log (s : System) : list (option DataRequest) :=
  (Some <$> wire s)
  ++ (if outbound_open s then [] else [None])
  ++ request_queue (self (world s)).

(** A request carries a valid id. *)
Definition valid_id (req : DataRequest) : Prop :=
  1 ≤ req_id req ≤ INT32_MAX.

(** Two blocking calls, one still waiting when the stream ends. *)
Definition two_blocking_calls : System :=
  {| world := fresh;
     calls := [blocking_L124 (new_DataRequest (get "a"));
               blocking_L124 (new_DataRequest (put "b"))];
     data := iterating [mkDataResponse 1 (get "obj")] StopIteration;
     wire := [];
     outbound_open := true |}.

(** The id a call holds between its allocation and its end. *)
Definition held_id (c : Call) : option Z :=
  match c with
  | blocking_L134 _ i | blocking_L136 _ i
  | async_L164 _ i _ | async_L166 _ i => Some i
  | _ => None
  end.

(** The call has not reached its call of [_next_id], or never makes one. *)
Definition before_allocation (c : Call) : bool :=
  match c with
  | blocking_L124 _ | blocking_L132 _ | async_L154 _ _ | async_L162 _ _
  | close_L114 | close_L116 | close_L118 | close_L120 => true
  | _ => false
  end.

(** The number of calls that are before their allocation. *)
Fixpoint pending (l : list Call) : Z :=
  match l with
  | [] => 0
  | c :: l' => (if before_allocation c then 1 else 0) + pending l'
  end.

(** With [n] calls in all: the counter has not wrapped, every id held by a
    call has been allocated, and no two calls hold the same id. *)
Definition distinct_ids (n : Z) (s : System) : Prop :=
  0 ≤ _req_id (self (world s))
  ∧ _req_id (self (world s)) + pending (calls s) ≤ n
  ∧ (∀ i c k, calls s !! i = Some c → held_id c = Some k →
       1 ≤ k ≤ _req_id (self (world s)))
  ∧ (∀ i j ci cj k, calls s !! i = Some ci → calls s !! j = Some cj →
       held_id ci = Some k → held_id cj = Some k → i = j).

(** How far a call of [close] has got. *)
Definition close_progress (c : Call) (s : System) : Prop :=
  match c with
  | close_L114 => True
  | close_L116 => stop_keepalive (self (world s)) = true
  | close_L118 =>
      stop_keepalive (self (world s)) = true ∧ None ∈ outbound_log s
  | close_L120 | returned None =>
      stop_keepalive (self (world s)) = true
      ∧ None ∈ outbound_log s
      ∧ data_thread_finished (data s) = true
  | _ => False
  end.

(** A call of [close] next to a call that never gets an answer. *)
Definition close_and_blocking : System :=
  {| world := fresh;
     calls := [close_L114; blocking_L124 (new_DataRequest (get "a"))];
     data := iterating [] StopIteration;
     wire := [];
     outbound_open := true |}.

(** * Properties *)

(** ** The id allocator *)

(** Unfolding of the monad combinators, for symbolic execution of a method
    body. *)
Ltac run_M :=
  unfold _next_id, with_lock, request_queue_put, disconnect, logger,
    notify_all, wait_for, call, join, try_except_Exception,
    try_except_RpcError, bind, ret, raise, blocks, read, modify, emit;
  cbn [fst snd self history _req_id _in_shutdown ready_data
       asyncio_waiting_data request_queue stop_keepalive
       set__req_id set__in_shutdown set_ready_data set_asyncio_waiting_data
       set_request_queue set_stop_keepalive].

Lemma INT32_MAX_eq : INT32_MAX = 2147483647.
Proof. reflexivity. Qed.

(** What a call of [_next_id] does, for every counter but [-1]. *)
Lemma _next_id_run (w : World) :
  _req_id (self w) ≠ -1 →
  _next_id w =
    (Return (successor_id (_req_id (self w))),
     {| self := set__req_id (successor_id (_req_id (self w))) (self w);
        history := history w ++ [EvAcquire lock; EvRelease lock] |}).
Proof.
  intros Hne. destruct w as [s h]. run_M. unfold successor_id.
  destruct (_req_id s + 1 >? INT32_MAX) eqn:Hgt; run_M.
  - cbn. rewrite <- app_assoc. reflexivity.
  - cbn in Hne. destruct (Z.eqb_spec (_req_id s + 1) 0); [lia|].
    cbn. rewrite <- app_assoc. reflexivity.
Qed.

(** With the counter at [-1] the assertion of line 61 fails. *)
Lemma _next_id_assert (w : World) :
  _req_id (self w) = -1 →
  fst (_next_id w) = Raise AssertionError.
Proof.
  intros He. destruct w as [s h]. run_M. cbn in He. rewrite He. reflexivity.
Qed.

Lemma successor_id_range (i : Z) :
  0 ≤ i ≤ INT32_MAX → 1 ≤ successor_id i ≤ INT32_MAX.
Proof.
  rewrite INT32_MAX_eq. unfold successor_id. rewrite INT32_MAX_eq.
  intros H. destruct (Z.gtb_spec (i + 1) 2147483647); lia.
Qed.

Lemma successor_id_mod (k : Z) :
  0 ≤ k →
  successor_id (if k =? 0 then 0 else (k - 1) mod INT32_MAX + 1)
  = k mod INT32_MAX + 1.
Proof.
  rewrite INT32_MAX_eq. intros Hk. unfold successor_id.
  rewrite INT32_MAX_eq.
  destruct (k =? 0) eqn:E0.
  - apply Z.eqb_eq in E0. subst k. reflexivity.
  - apply Z.eqb_neq in E0.
    pose proof (Z.mod_pos_bound (k - 1) 2147483647 ltac:(lia)) as Hb.
    destruct (Z.gtb_spec ((k - 1) mod 2147483647 + 1 + 1) 2147483647).
    + Z.to_euclidean_division_equations. lia.
    + Z.to_euclidean_division_equations. lia.
Qed.

Lemma successive_next_id_run (n : nat) :
  ∀ (w : World) (k : Z),
    0 ≤ k →
    _req_id (self w) = counter_after k →
    ∃ w',
      successive_next_id n w =
        (Return ((λ j : nat, id_of_call (k + 1 + Z.of_nat j)) <$> seq 0 n), w')
      ∧ _req_id (self w') = counter_after (k + Z.of_nat n)
      ∧ request_queue (self w') = request_queue (self w)
      ∧ ready_data (self w') = ready_data (self w)
      ∧ asyncio_waiting_data (self w') = asyncio_waiting_data (self w)
      ∧ _in_shutdown (self w') = _in_shutdown (self w).
Proof.
  induction n as [|n IH]; intros w k Hk Hc.
  - exists w. cbn. unfold ret. rewrite Z.add_0_r. auto 10.
  - assert (Hne : _req_id (self w) ≠ -1).
    { rewrite Hc. unfold counter_after, id_of_call.
      destruct (k =? 0); [lia|].
      pose proof (Z.mod_pos_bound (k - 1) INT32_MAX ltac:(reflexivity)). lia. }
    pose proof (_next_id_run w Hne) as Hrun.
    assert (Hs : successor_id (_req_id (self w)) = id_of_call (k + 1)).
    { rewrite Hc. unfold counter_after, id_of_call.
      rewrite successor_id_mod by lia. f_equal. f_equal. lia. }
    rewrite Hs in Hrun.
    set (w1 := {| self := set__req_id (id_of_call (k + 1)) (self w);
                  history := history w ++ [EvAcquire lock; EvRelease lock] |})
      in *.
    destruct (IH w1 (k + 1)) as (w' & Hrec & Hc' & Hq & Hr & Ha & Hd).
    { lia. }
    { cbn. unfold counter_after. destruct (k + 1 =? 0) eqn:E; [lia|done]. }
    exists w'. split; [|split; [|done]].
    + cbn [successive_next_id]. unfold bind at 1. rewrite Hrun.
      unfold bind at 1. rewrite Hrec. unfold ret.
      do 2 f_equal. cbn [seq]. rewrite fmap_cons, Z.add_0_r. f_equal.
      rewrite <- fmap_S_seq, <- list_fmap_compose. apply list_fmap_ext.
      intros _ j _. cbn. f_equal. lia.
    + rewrite Hc'. f_equal. lia.
Qed.

(** C10: from a freshly constructed client, [n] successive calls of
    [_next_id] all return, and the [k]-th of them ([1 ≤ k ≤ n]) returns
    [((k - 1) mod (2^31 - 1)) + 1]; each id is the previous one plus 1
    until the previous one is the maximum, where the next is 1; and two
    allocations that lie in a window of at most [2^31 - 1] consecutive
    allocations (so in particular of fewer than [2^31 - 1]) return
    different ids. *)
Theorem next_id_sequence_from_fresh (n : nat) :
  ∃ ids w',
    successive_next_id n fresh = (Return ids, w')
    ∧ length ids = n
    ∧ (∀ k : nat, (1 ≤ k ≤ n)%nat →
         ids !! (k - 1)%nat = Some ((Z.of_nat k - 1) mod (2 ^ 31 - 1) + 1))
    ∧ (∀ (k : nat) a b, ids !! k = Some a → ids !! S k = Some b →
         b = if a <? 2 ^ 31 - 1 then a + 1 else 1)
    ∧ (∀ (i j : nat) a b, (i < j)%nat → Z.of_nat (j - i + 1) ≤ 2 ^ 31 - 1 →
         ids !! i = Some a → ids !! j = Some b → a ≠ b).
Proof.
  destruct (successive_next_id_run n fresh 0) as (w' & Hrun & _);
    [lia | reflexivity |].
  eexists _, w'. split; [exact Hrun|].
  assert (Hlook : ∀ (k : nat) a,
    ((λ j : nat, id_of_call (0 + 1 + Z.of_nat j)) <$> seq 0 n) !! k = Some a →
    (k < n)%nat ∧ a = Z.of_nat k mod 2147483647 + 1).
  { intros k a. rewrite list_lookup_fmap.
    destruct (seq 0 n !! k) as [j|] eqn:Hj; [|discriminate].
    apply lookup_seq in Hj as [-> Hlt]. cbn. intros [= <-].
    split; [lia|]. unfold id_of_call. rewrite INT32_MAX_eq.
    do 2 f_equal. lia. }
  change (2 ^ 31 - 1) with 2147483647.
  split; [by rewrite length_fmap, length_seq|].
  split; [|split].
  - intros k Hk. rewrite list_lookup_fmap.
    rewrite (lookup_seq_lt 0 n (k - 1)) by lia. cbn.
    unfold id_of_call. rewrite INT32_MAX_eq. do 3 f_equal. lia.
  - intros k a b Ha Hb.
    apply Hlook in Ha as [_ ->]. apply Hlook in Hb as [_ ->].
    destruct (Z.ltb_spec (Z.of_nat k mod 2147483647 + 1) 2147483647);
      Z.to_euclidean_division_equations; lia.
  - intros i j a b Hij Hwin Ha Hb.
    apply Hlook in Ha as [_ ->]. apply Hlook in Hb as [_ ->].
    Z.to_euclidean_division_equations. lia.
Qed.

Example successive_next_id_3 :
  fst (successive_next_id 3 fresh) = Return [1; 2; 3].
Proof. reflexivity. Qed.

(** ** Calls after shutdown *)

(** C2: while [_in_shutdown] is true, [_blocking_send] and [_async_send]
    raise [ConnectionError] without blocking, after the call of
    [disconnect]; the counter of ids, the request queue, [ready_data] and
    [asyncio_waiting_data] are as before the call. *)
Theorem send_refused_after_shutdown
    (req : DataRequest) (callback : option Callable) (w : World) :
  _in_shutdown (self w) = true →
  _blocking_send req w = (Raise (ConnectionError msg_not_sent), refused w)
  ∧ _async_send req callback w
    = (Raise (ConnectionError msg_not_sent), refused w)
  ∧ _req_id (self (refused w)) = _req_id (self w)
  ∧ request_queue (self (refused w)) = request_queue (self w)
  ∧ ready_data (self (refused w)) = ready_data (self w)
  ∧ asyncio_waiting_data (self (refused w)) = asyncio_waiting_data (self w).
Proof.
  intros Hdown. destruct w as [s h]. cbn in Hdown.
  unfold _blocking_send, _blocking_send_dispatch, _async_send, refused.
  run_M. rewrite Hdown. cbn. auto 10.
Qed.

Lemma send_refused_after_shutdown_witness :
  _blocking_send (mkDataRequest 0 (get "x")) shut_down
  = (Raise (ConnectionError msg_not_sent), refused shut_down)
  ∧ _async_send (mkDataRequest 0 (get "x"))
      (Some (function (λ _, CbReturns))) shut_down
    = (Raise (ConnectionError msg_not_sent), refused shut_down)
  ∧ _req_id (self (refused shut_down)) = _req_id (self shut_down)
  ∧ request_queue (self (refused shut_down)) = request_queue (self shut_down)
  ∧ ready_data (self (refused shut_down)) = ready_data (self shut_down)
  ∧ asyncio_waiting_data (self (refused shut_down))
    = asyncio_waiting_data (self shut_down).
Proof.
  apply (send_refused_after_shutdown
           (mkDataRequest 0 (get "x")) (Some (function (λ _, CbReturns)))
           shut_down).
  reflexivity.
Defined.

(** ** The blocking path *)

(** What [_blocking_send_dispatch] does on a client that is not shut down
    and whose counter is in range: it allocates the next id, stamps the
    request and appends it to the queue. *)
Lemma _blocking_send_dispatch_run (req : DataRequest) (w : World) :
  _in_shutdown (self w) = false →
  _req_id (self w) ≠ -1 →
  let req_id := successor_id (_req_id (self w)) in
  _blocking_send_dispatch req w =
    (Return (set_req_id req req_id, req_id),
     {| self := set_request_queue
                  (request_queue (self w) ++ [Some (set_req_id req req_id)])
                  (set__req_id req_id (self w));
        history := history w ++ [EvAcquire lock; EvRelease lock] |}).
Proof.
  intros Hup Hne. cbn zeta. unfold _blocking_send_dispatch.
  unfold bind at 1. unfold read at 1. rewrite Hup.
  unfold bind at 1. rewrite (_next_id_run w Hne). reflexivity.
Qed.

(** The three ways the [with self.cv] block of [_blocking_send] can go. *)
Lemma _blocking_send_wait_blocks (req : DataRequest) (req_id : Z) (w : World) :
  _in_shutdown (self w) = false →
  ready_data (self w) !! req_id = None →
  _blocking_send_wait req req_id w = (Blocks, w).
Proof.
  intros Hup Hnone. destruct w as [s h]. cbn in *.
  unfold _blocking_send_wait. run_M. rewrite Hup, Hnone. reflexivity.
Qed.

Lemma _blocking_send_wait_shutdown (req : DataRequest) (req_id : Z) (w : World) :
  _in_shutdown (self w) = true →
  _blocking_send_wait req req_id w =
    (Raise (ConnectionError (msg_send_failed req)),
     {| self := self w;
        history := history w ++ [EvAcquire cv; EvDisconnect; EvRelease cv] |}).
Proof.
  intros Hdown. destruct w as [s h]. cbn in *.
  unfold _blocking_send_wait. run_M. rewrite Hdown, orb_true_r. cbn.
  rewrite Hdown. cbn. rewrite <- !app_assoc. reflexivity.
Qed.

Lemma _blocking_send_wait_ready (req : DataRequest) (req_id : Z) (w : World)
    (data : DataResponse) :
  _in_shutdown (self w) = false →
  ready_data (self w) !! req_id = Some data →
  _blocking_send_wait req req_id w =
    (Return data,
     {| self := set_ready_data (delete req_id (ready_data (self w))) (self w);
        history := history w ++ [EvAcquire cv; EvRelease cv] |}).
Proof.
  intros Hup Hsome. destruct w as [s h]. cbn in *.
  unfold _blocking_send_wait. run_M. rewrite Hup, Hsome. cbn.
  rewrite Hup. cbn. rewrite Hsome. cbn. rewrite <- !app_assoc. reflexivity.
Qed.

(** A normal return of the block determines the state it ran in. *)
Lemma _blocking_send_wait_returns (req : DataRequest) (req_id : Z)
    (w w' : World) (data : DataResponse) :
  _blocking_send_wait req req_id w = (Return data, w') →
  _in_shutdown (self w) = false
  ∧ ready_data (self w) !! req_id = Some data
  ∧ w' = {| self := set_ready_data (delete req_id (ready_data (self w))) (self w);
            history := history w ++ [EvAcquire cv; EvRelease cv] |}.
Proof.
  intros Hrun.
  destruct (_in_shutdown (self w)) eqn:Hdown.
  { rewrite _blocking_send_wait_shutdown in Hrun by done. discriminate. }
  destruct (ready_data (self w) !! req_id) as [d|] eqn:Hlook.
  - rewrite (_blocking_send_wait_ready _ _ _ d) in Hrun by done.
    inversion Hrun; subst. auto.
  - rewrite _blocking_send_wait_blocks in Hrun by done. discriminate.
Qed.

(** The text of an f-string contains the text of each interpolated
    request. *)
Lemma render_msg_send_failed (str_req : DataRequest → string)
    (str_resp : DataResponse → string) (req : DataRequest) :
  ∃ before after : string,
    render str_req str_resp (msg_send_failed req)
    = String.append before (String.append (str_req req) after).
Proof.
  eexists _, _. cbn [msg_send_failed render render_part]. reflexivity.
Qed.

(** C5: a blocking call has enqueued its stamped request [req] under the
    id [req_id] and is waiting; once [_in_shutdown] is true (whether or not
    a response for [req_id] is in [ready_data], so in particular when none
    has appeared) the call does not stay blocked: it calls [disconnect]
    and then raises a [ConnectionError] whose message, for any rendering of
    protobuf messages, contains the text of the stamped request; the object
    is left as it was. *)
Theorem blocking_send_fails_on_midflight_shutdown
    (req0 : DataRequest) (w0 w1 w : World) (req : DataRequest) (req_id : Z) :
  _blocking_send_dispatch req0 w0 = (Return (req, req_id), w1) →
  _in_shutdown (self w) = true →
  req = set_req_id req0 req_id
  ∧ last (request_queue (self w1)) = Some (Some req)
  ∧ (∃ msg,
       _blocking_send_wait req req_id w =
         (Raise (ConnectionError msg),
          {| self := self w;
             history := history w ++ [EvAcquire cv; EvDisconnect; EvRelease cv] |})
       ∧ In (FmtRequest req) msg
       ∧ ∀ str_req str_resp, ∃ before after : string,
           render str_req str_resp msg
           = String.append before (String.append (str_req req) after)).
Proof.
  intros Hdisp Hdown.
  assert (Hup0 : _in_shutdown (self w0) = false).
  { destruct (_in_shutdown (self w0)) eqn:E; [|done].
    unfold _blocking_send_dispatch in Hdisp. unfold bind at 1 in Hdisp.
    unfold read at 1 in Hdisp. rewrite E in Hdisp.
    revert Hdisp. run_M. discriminate. }
  assert (Hne : _req_id (self w0) ≠ -1).
  { intros He. unfold _blocking_send_dispatch in Hdisp.
    unfold bind at 1 in Hdisp. unfold read at 1 in Hdisp.
    rewrite Hup0 in Hdisp. unfold bind at 1 in Hdisp.
    pose proof (_next_id_assert w0 He) as Ha.
    destruct (_next_id w0) as [[i| |] w2]; cbn in Ha; discriminate. }
  rewrite _blocking_send_dispatch_run in Hdisp by done.
  inversion Hdisp; subst. clear Hdisp.
  split; [reflexivity|]. split.
  { cbn. apply last_snoc. }
  eexists. split; [apply _blocking_send_wait_shutdown; exact Hdown|].
  split.
  - cbn. auto.
  - intros. apply render_msg_send_failed.
Qed.

Lemma blocking_send_fails_on_midflight_shutdown_witness :
  let req0 := mkDataRequest 0 (get "x") in
  let req := mkDataRequest 1 (get "x") in
  let w1 := snd (_blocking_send_dispatch req0 fresh) in
  let w := {| self := set__in_shutdown true (self w1); history := history w1 |} in
  req = set_req_id req0 1
  ∧ last (request_queue (self w1)) = Some (Some req)
  ∧ (∃ msg,
       _blocking_send_wait req 1 w =
         (Raise (ConnectionError msg),
          {| self := self w;
             history := history w ++ [EvAcquire cv; EvDisconnect; EvRelease cv] |})
       ∧ In (FmtRequest req) msg
       ∧ ∀ str_req str_resp, ∃ before after : string,
           render str_req str_resp msg
           = String.append before (String.append (str_req req) after)).
Proof.
  cbv zeta.
  apply (blocking_send_fails_on_midflight_shutdown
           (mkDataRequest 0 (get "x")) fresh
           (snd (_blocking_send_dispatch (mkDataRequest 0 (get "x")) fresh))).
  - reflexivity.
  - reflexivity.
Defined.

(** ** The read loop *)

Lemma handle_response_unawaited (response : DataResponse) (w : World) :
  resp_req_id response = 0 →
  handle_response response w = (Return tt, after_unawaited response w).
Proof.
  intros Hz. unfold handle_response. rewrite Hz. reflexivity.
Qed.

Lemma handle_response_callback (response : DataResponse) (w : World)
    (callback : ResponseCallable) :
  resp_req_id response ≠ 0 →
  asyncio_waiting_data (self w) !! resp_req_id response = Some callback →
  handle_response response w =
    match callback response with
    | CbReturns =>
        (Return tt,
         {| self := popped (resp_req_id response) (self w);
            history := history w ++ [EvCallback callback response] |})
    | CbRaises e =>
        if is_Exception e then
          (Return tt,
           {| self := popped (resp_req_id response) (self w);
              history := history w ++
                [EvCallback callback response;
                 EvLog EXCEPTION [Lit "Callback error:"]] |})
        else
          (Raise e,
           {| self := popped (resp_req_id response) (self w);
              history := history w ++ [EvCallback callback response] |})
    end.
Proof.
  intros Hnz Hcb. destruct w as [s h]. cbn in Hcb.
  unfold handle_response.
  destruct (Z.eqb_spec (resp_req_id response) 0) as [|_]; [done|].
  run_M. rewrite Hcb. cbn.
  destruct (callback response) as [|e]; cbn; [reflexivity|].
  destruct (is_Exception e); cbn; [|reflexivity].
  rewrite <- app_assoc. reflexivity.
Qed.

Lemma handle_response_ready (response : DataResponse) (w : World) :
  resp_req_id response ≠ 0 →
  asyncio_waiting_data (self w) !! resp_req_id response = None →
  handle_response response w = (Return tt, after_ready response w).
Proof.
  intros Hnz Hcb. destruct w as [s h]. cbn in Hcb.
  unfold handle_response, after_ready.
  destruct (Z.eqb_spec (resp_req_id response) 0) as [|_]; [done|].
  run_M. rewrite Hcb. cbn. rewrite <- !app_assoc. reflexivity.
Qed.


(** C7, as the code has it: a response arrives whose id is a key of
    [asyncio_waiting_data], and the callback stored there raises an
    exception that is an instance of [Exception], which is what line 88
    catches.  The loop body returns normally: the exception is logged
    with [logger.exception] and goes no further.  The loop, and with it
    [_data_main], goes on with the rest of the stream exactly as it would
    from the state in which the entry has been popped and the error
    logged. *)
Theorem callback_error_does_not_stop_loop
    (response : DataResponse) (rest : list DataResponse) (fin : StreamEnd)
    (w : World) (callback : ResponseCallable) (e : PyExc) :
  resp_req_id response ≠ 0 →
  asyncio_waiting_data (self w) !! resp_req_id response = Some callback →
  callback response = CbRaises e →
  is_Exception e = true →
  let w' :=
    {| self := popped (resp_req_id response) (self w);
       history := history w ++
         [EvCallback callback response;
          EvLog EXCEPTION [Lit "Callback error:"]] |} in
  handle_response response w = (Return tt, w')
  ∧ for_response_in (response :: rest) fin w = for_response_in rest fin w'
  ∧ _data_main (response :: rest) fin w = _data_main rest fin w'.
Proof.
  intros Hnz Hcb Hraise Hexc. cbv zeta.
  assert (Hbody : handle_response response w =
    (Return tt,
     {| self := popped (resp_req_id response) (self w);
        history := history w ++
          [EvCallback callback response;
           EvLog EXCEPTION [Lit "Callback error:"]] |})).
  { rewrite (handle_response_callback _ _ callback) by done.
    rewrite Hraise, Hexc. reflexivity. }
  split; [exact Hbody|].
  assert (Hloop : for_response_in (response :: rest) fin w =
    for_response_in rest fin
      {| self := popped (resp_req_id response) (self w);
         history := history w ++
           [EvCallback callback response;
            EvLog EXCEPTION [Lit "Callback error:"]] |}).
  { cbn [for_response_in]. unfold bind at 1. rewrite Hbody. reflexivity. }
  split; [exact Hloop|].
  unfold _data_main, try_except_RpcError. rewrite Hloop. reflexivity.
Qed.

Lemma callback_error_does_not_stop_loop_witness :
  let response := mkDataResponse 1 (get "a") in
  let rest := [mkDataResponse 2 (get "b")] in
  let w := one_failing_callback in
  let w' :=
    {| self := popped 1 (self w);
       history := history w ++
         [EvCallback failing_callback response;
          EvLog EXCEPTION [Lit "Callback error:"]] |} in
  handle_response response w = (Return tt, w')
  ∧ for_response_in (response :: rest) StopIteration w
    = for_response_in rest StopIteration w'
  ∧ _data_main (response :: rest) StopIteration w
    = _data_main rest StopIteration w'.
Proof.
  cbv zeta.
  apply (callback_error_does_not_stop_loop
           (mkDataResponse 1 (get "a")) [mkDataResponse 2 (get "b")]
           StopIteration one_failing_callback failing_callback
           (OtherException "ValueError")).
  - discriminate.
  - reflexivity.
  - reflexivity.
  - reflexivity.
Defined.

(** C7, as stated, fails: line 88 is [except Exception], so an exception
    raised by a callback that is not an instance of [Exception] (here
    [KeyboardInterrupt]) is not caught.  It leaves the loop body and
    [_data_main]; the response that follows in the stream is not handled
    (it would have been stored in [ready_data] had the loop gone on). *)
Lemma callback_interrupt_stops_loop :
  let response := mkDataResponse 2 (get "a") in
  let later := mkDataResponse 7 (get "b") in
  let e := BaseExceptionOnly "KeyboardInterrupt" in
  asyncio_waiting_data (self two_callbacks) !! 2 = Some interrupting_callback
  ∧ interrupting_callback response = CbRaises e
  ∧ fst (handle_response response two_callbacks) = Raise e
  ∧ fst (_data_main [response; later] StopIteration two_callbacks) = Raise e
  ∧ ready_data
      (self (snd (_data_main [response; later] StopIteration two_callbacks)))
    !! 7 = None
  ∧ ready_data (self (snd (_data_main [later] StopIteration two_callbacks)))
    !! 7 = Some later
  ∧ ¬ (∀ (response : DataResponse) (rest : list DataResponse)
         (fin : StreamEnd) (w : World) (callback : ResponseCallable)
         (e : PyExc),
         resp_req_id response ≠ 0 →
         asyncio_waiting_data (self w) !! resp_req_id response
         = Some callback →
         callback response = CbRaises e →
         fst (handle_response response w) = Return tt
         ∧ for_response_in (response :: rest) fin w
           = for_response_in rest fin
               (snd (handle_response response w))).
Proof.
  cbv zeta. repeat (split; [reflexivity|]).
  intros H.
  destruct (H (mkDataResponse 2 (get "a")) [] StopIteration two_callbacks
              interrupting_callback
              (BaseExceptionOnly "KeyboardInterrupt"))
    as [Hbody _]; [discriminate|reflexivity|reflexivity|].
  discriminate Hbody.
Qed.

(** The response that follows the failing callback reaches [ready_data]. *)
Example response_after_callback_error_is_stored :
  ready_data (self (snd (_data_main
    [mkDataResponse 1 (get "a"); mkDataResponse 2 (get "b")]
    StopIteration one_failing_callback))) !! 2
  = Some (mkDataResponse 2 (get "b")).
Proof. reflexivity. Qed.

Lemma on_RpcError_run (code : grpc.StatusCode) (w : World) :
  on_RpcError code w =
    (Return tt,
     {| self := set__in_shutdown true (self w);
        history := history w ++
          [EvAcquire cv; EvNotifyAll; EvRelease cv; termination_record code] |}).
Proof.
  destruct w as [s h]. unfold on_RpcError. run_M.
  destruct code; cbn; rewrite <- !app_assoc; reflexivity.
Qed.





(** ** Closing *)

(** C9: [close] sets the [stop_keepalive] event, appends the sentinel
    [None] to the request queue, and joins the data thread and then the
    keepalive thread; it returns with [_in_shutdown], [ready_data],
    [asyncio_waiting_data] and the counter of ids as they were. *)
Theorem close_effects (w : World) :
  let w' := snd (close w) in
  fst (close w) = Return tt
  ∧ stop_keepalive (self w') = true
  ∧ request_queue (self w') = request_queue (self w) ++ [None]
  ∧ history w' = history w ++ [EvJoin data_thread; EvJoin keepalive_thread]
  ∧ _in_shutdown (self w') = _in_shutdown (self w)
  ∧ ready_data (self w') = ready_data (self w)
  ∧ asyncio_waiting_data (self w') = asyncio_waiting_data (self w)
  ∧ _req_id (self w') = _req_id (self w).
Proof.
  destruct w as [s h]. unfold close. run_M. cbn.
  rewrite <- app_assoc. auto 10.
Qed.

(** ** The threads and the methods agree *)

Lemma bind_run {A B} (m : M A) (k : A → M B) (w : World) :
  bind m k w =
    match m w with
    | (Return a, w') => k a w'
    | (Raise e, w') => (Raise e, w')
    | (Blocks, w') => (Blocks, w')
    end.
Proof. reflexivity. Qed.

(** Run step by step, a blocking call does what [_blocking_send] does. *)
Lemma run_call_blocking_send (req : DataRequest) (w : World) :
  run_call 4 (blocking_L124 req) w
  = (let* data := _blocking_send req in ret (Some data)) w.
Proof.
  unfold _blocking_send, _blocking_send_dispatch.
  cbn [run_call call_step]. rewrite !bind_run. unfold read.
  destruct (_in_shutdown (self w)).
  { rewrite !bind_run. unfold disconnect, emit, raise. reflexivity. }
  unfold ret at 1. cbn [run_call call_step]. rewrite !bind_run.
  destruct (_next_id w) as [[req_id| |] w1]; try reflexivity.
  unfold ret at 1. cbn [run_call call_step]. rewrite !bind_run.
  unfold request_queue_put, modify, ret. 
  cbn [run_call call_step]. rewrite !bind_run.
  destruct (_blocking_send_wait _ _ _) as [[data| |] w2]; reflexivity.
Qed.

(** Run step by step, an asynchronous call does what [_async_send] does. *)
Lemma run_call_async_send (req : DataRequest)
    (callback : option Callable) (w : World) :
  run_call 4 (async_L154 req callback) w
  = (_async_send req callback >> ret None) w.
Proof.
  unfold _async_send.
  cbn [run_call call_step]. rewrite !bind_run. unfold read.
  destruct (_in_shutdown (self w)).
  { rewrite !bind_run. unfold disconnect, emit, raise. reflexivity. }
  unfold ret at 1. cbn [run_call call_step]. rewrite !bind_run.
  destruct (_next_id w) as [[req_id| |] w1]; try reflexivity.
  unfold ret at 1. cbn [run_call call_step]. rewrite !bind_run.
  destruct callback as [[[] f]|]; reflexivity.
Qed.

(** Once the data thread has finished, [close] run step by step does what
    the method does. *)
Lemma run_call_close (w : World) :
  run_call 4 close_L114 w = (close >> ret None) w.
Proof. reflexivity. Qed.

(** The loop body never blocks, and it raises only what a callback raised
    that is not an [Exception]. *)
Lemma handle_response_outcome (response : DataResponse) (w : World) :
  fst (handle_response response w) = Return tt
  ∨ ∃ e, fst (handle_response response w) = Raise e ∧ is_Exception e = false.
Proof.
  destruct (Z.eq_dec (resp_req_id response) 0) as [Hz|Hnz].
  { left. rewrite handle_response_unawaited by done. reflexivity. }
  destruct (asyncio_waiting_data (self w) !! resp_req_id response)
    as [callback|] eqn:Hcb.
  - rewrite (handle_response_callback _ _ callback) by done.
    destruct (callback response) as [|e]; [by left|].
    destruct (is_Exception e) eqn:He; [by left|].
    right. exists e. done.
  - left. rewrite handle_response_ready by done. reflexivity.
Qed.

(** Run step by step, the data thread does what [_data_main] does. *)
Lemma run_data_thread_data_main (resp_stream : list DataResponse)
    (fin : StreamEnd) :
  ∀ w : World,
    run_data_thread (S (length resp_stream)) (iterating resp_stream fin) w
    = _data_main resp_stream fin w.
Proof.
  induction resp_stream as [|response rest IH]; intros w.
  - cbn [length run_data_thread data_thread_step].
    destruct (_data_main [] fin w) as [r w']. reflexivity.
  - cbn [length]. change (run_data_thread (S (S (length rest)))
                            (iterating (response :: rest) fin) w)
      with (match data_thread_step (iterating (response :: rest) fin) w with
            | Some (t', w') => run_data_thread (S (length rest)) t' w'
            | None => (Blocks, w)
            end).
    cbn [data_thread_step].
    unfold _data_main at 2, try_except_RpcError.
    cbn [for_response_in]. rewrite bind_run.
    pose proof (handle_response_outcome response w) as Hout.
    destruct (handle_response response w) as [[[]|e|] w1] eqn:Hbody.
    + rewrite IH. reflexivity.
    + destruct (_data_main [] (StreamRaises e) w1) as [r w2] eqn:Hend.
      cbn [run_data_thread]. rewrite <- Hend.
      unfold _data_main, try_except_RpcError. reflexivity.
    + exfalso. cbn in Hout. destruct Hout as [|(e & ? & _)]; discriminate.
Qed.

(** ** What each step touches *)

(** [_next_id] writes the counter and nothing else. *)
Lemma _next_id_frame (w : World) :
  ∃ i, self (snd (_next_id w)) = set__req_id i (self w).
Proof.
  destruct w as [s h]. run_M.
  destruct (_req_id s + 1 >? INT32_MAX); cbn.
  - eexists. reflexivity.
  - destruct (_req_id s + 1 =? 0); cbn; eexists; reflexivity.
Qed.

(** A step of a call leaves [ready_data] alone, unless it is the return of
    a blocking call, which takes its response out. *)
Lemma call_step_ready_data (b : bool) (c c' : Call) (r : Outcome Call)
    (w w' : World) :
  call_step b c w = (r, w') →
  next_point r = Some c' →
  (ready_data (self w') = ready_data (self w)
   ∧ ∀ v, c' ≠ returned (Some v))
  ∨ (∃ req req_id v,
       c = blocking_L136 req req_id
       ∧ c' = returned (Some v)
       ∧ _in_shutdown (self w) = false
       ∧ ready_data (self w) !! req_id = Some v
       ∧ ready_data (self w') = delete req_id (ready_data (self w))).
Proof.
  intros Hstep Hnext.
  destruct c as [req|req|req rid|req rid|req cb|req cb|req rid cb|req rid
                | | | | |v|e]; cbn [call_step] in Hstep.
  - left. revert Hstep. run_M. destruct (_in_shutdown (self w));
      intros [= <- <-]; cbn in Hnext; simplify_eq; done.
  - left. rewrite bind_run in Hstep.
    destruct (_next_id_frame w) as [i Hi].
    destruct (_next_id w) as [[j| |] w1]; cbn in Hi;
      unfold ret in Hstep; simplify_eq; cbn in Hnext; simplify_eq;
      rewrite Hi; done.
  - left. revert Hstep. run_M. intros [= <- <-].
    cbn in Hnext. simplify_eq. done.
  - rewrite bind_run in Hstep.
    destruct (_blocking_send_wait req rid w) as [[v| |] w1] eqn:Hwait;
      unfold ret in Hstep; simplify_eq; cbn in Hnext; simplify_eq.
    + right. apply _blocking_send_wait_returns in Hwait as (Hup & Hv & ->).
      eexists _, _, _. done.
    + left. split; [|done].
      destruct (_in_shutdown (self w)) eqn:Hdown.
      * rewrite _blocking_send_wait_shutdown in Hwait by done.
        simplify_eq. done.
      * destruct (ready_data (self w) !! rid) as [d|] eqn:Hd.
        -- rewrite (_blocking_send_wait_ready _ _ _ d) in Hwait by done.
           discriminate.
        -- rewrite _blocking_send_wait_blocks in Hwait by done.
           discriminate.
  - left. revert Hstep. run_M. destruct (_in_shutdown (self w));
      intros [= <- <-]; cbn in Hnext; simplify_eq; done.
  - left. rewrite bind_run in Hstep.
    destruct (_next_id_frame w) as [i Hi].
    destruct (_next_id w) as [[j| |] w1]; cbn in Hi;
      unfold ret in Hstep; simplify_eq; cbn in Hnext; simplify_eq;
      rewrite Hi; done.
  - left. revert Hstep. unfold _async_send_register.
    destruct cb as [[[] f]|]; run_M; intros [= <- <-];
      cbn in Hnext; simplify_eq; done.
  - left. revert Hstep. run_M. intros [= <- <-].
    cbn in Hnext. simplify_eq. done.
  - left. revert Hstep. run_M. intros [= <- <-].
    cbn in Hnext. simplify_eq. done.
  - left. revert Hstep. run_M. intros [= <- <-].
    cbn in Hnext. simplify_eq. done.
  - left. revert Hstep. destruct b; run_M; intros [= <- <-];
      cbn in Hnext; simplify_eq; done.
  - left. revert Hstep. run_M. intros [= <- <-].
    cbn in Hnext. simplify_eq. done.
  - unfold blocks in Hstep. by simplify_eq.
  - unfold blocks in Hstep. by simplify_eq.
Qed.

(** The loop body leaves [ready_data] alone or stores the response under
    its id. *)
Lemma handle_response_ready_data (response : DataResponse) (w : World) :
  ready_data (self (snd (handle_response response w))) = ready_data (self w)
  ∨ ready_data (self (snd (handle_response response w)))
    = <[resp_req_id response := response]> (ready_data (self w)).
Proof.
  destruct (Z.eq_dec (resp_req_id response) 0) as [Hz|Hnz].
  { left. rewrite handle_response_unawaited by done. reflexivity. }
  destruct (asyncio_waiting_data (self w) !! resp_req_id response)
    as [callback|] eqn:Hcb.
  - left. rewrite (handle_response_callback _ _ callback) by done.
    destruct (callback response) as [|e]; [done|].
    destruct (is_Exception e); done.
  - right. rewrite handle_response_ready by done. reflexivity.
Qed.

(** The end of [_data_main] leaves [ready_data] alone. *)
Lemma data_main_end_ready_data (fin : StreamEnd) (w : World) :
  ready_data (self (snd (_data_main [] fin w))) = ready_data (self w).
Proof.
  unfold _data_main, try_except_RpcError. cbn [for_response_in].
  destruct fin as [|e]; [reflexivity|]. unfold raise.
  destruct e; try reflexivity. rewrite on_RpcError_run. reflexivity.
Qed.

(** A step of the data thread consumes at most the first remaining
    response, and leaves [ready_data] alone or stores that response. *)
Lemma data_thread_step_ready_data (t t' : DataThread) (w w' : World) :
  data_thread_step t w = Some (t', w') →
  (∀ v, v ∈ remaining t' → v ∈ remaining t)
  ∧ (NoDup (remaining t) → NoDup (remaining t'))
  ∧ (ready_data (self w') = ready_data (self w)
     ∨ ∃ response,
         ready_data (self w')
         = <[resp_req_id response := response]> (ready_data (self w))
         ∧ response ∈ remaining t
         ∧ (NoDup (remaining t) → response ∉ remaining t')).
Proof.
  intros Hstep.
  destruct t as [[|response rest] fin|r]; cbn [data_thread_step] in Hstep.
  - pose proof (data_main_end_ready_data fin w) as Hend.
    destruct (_data_main [] fin w) as [r w1]. simplify_eq. cbn.
    split; [done|]. split; [done|]. left. done.
  - pose proof (handle_response_ready_data response w) as Hbody.
    assert (Hresp : ∀ (t1 : DataThread) (w1 w2 : World),
      (∀ v, v ∈ remaining t1 → v ∈ rest) →
      (NoDup rest → NoDup (remaining t1)) →
      ready_data (self w2) = ready_data (self w1) →
      (ready_data (self w1) = ready_data (self w)
       ∨ ready_data (self w1)
         = <[resp_req_id response := response]> (ready_data (self w))) →
      (∀ v, v ∈ remaining t1 → v ∈ response :: rest)
      ∧ (NoDup (response :: rest) → NoDup (remaining t1))
      ∧ (ready_data (self w2) = ready_data (self w)
         ∨ ∃ response',
             ready_data (self w2)
             = <[resp_req_id response' := response']> (ready_data (self w))
             ∧ response' ∈ response :: rest
             ∧ (NoDup (response :: rest) → response' ∉ remaining t1))).
    { intros t1 w1 w2 Hsub Hnd Heq Hb.
      split; [intros v Hv; right; auto|].
      split; [intros Hn; apply NoDup_cons in Hn as [_ Hn]; auto|].
      rewrite Heq. destruct Hb as [Hb|Hb]; [by left|right].
      exists response. split; [done|]. split; [left|].
      intros Hn Hin. apply NoDup_cons in Hn as [Hn _]. auto. }
    destruct (handle_response response w) as [[[]|e|] w1]; cbn in Hbody.
    + simplify_eq. apply (Hresp _ w' w'); cbn; auto.
    + pose proof (data_main_end_ready_data (StreamRaises e) w1) as Hend.
      destruct (_data_main [] (StreamRaises e) w1) as [r w2].
      simplify_eq. cbn in Hend.
      apply (Hresp (finished r) w1 w');
        [cbn; intros v Hv; by apply elem_of_nil in Hv
        |cbn; intros _; constructor
        |done|done].
    + discriminate.
  - discriminate.
Qed.

(** ** Invariants of the system *)

Lemma handle_response_counter (response : DataResponse) (w : World) :
  _req_id (self (snd (handle_response response w))) = _req_id (self w).
Proof.
  destruct (Z.eq_dec (resp_req_id response) 0) as [Hz|Hnz].
  { rewrite handle_response_unawaited by done. reflexivity. }
  destruct (asyncio_waiting_data (self w) !! resp_req_id response)
    as [callback|] eqn:Hcb.
  - rewrite (handle_response_callback _ _ callback) by done.
    destruct (callback response) as [|e]; [done|].
    destruct (is_Exception e); done.
  - rewrite handle_response_ready by done. reflexivity.
Qed.

Lemma data_main_end_counter (fin : StreamEnd) (w : World) :
  _req_id (self (snd (_data_main [] fin w))) = _req_id (self w).
Proof.
  unfold _data_main, try_except_RpcError. cbn [for_response_in].
  destruct fin as [|e]; [reflexivity|]. unfold raise.
  destruct e; try reflexivity. rewrite on_RpcError_run. reflexivity.
Qed.

Lemma data_thread_step_counter (t t' : DataThread) (w w' : World) :
  data_thread_step t w = Some (t', w') →
  _req_id (self w') = _req_id (self w).
Proof.
  intros Hstep.
  destruct t as [[|response rest] fin|r]; cbn [data_thread_step] in Hstep.
  - pose proof (data_main_end_counter fin w) as Hend.
    destruct (_data_main [] fin w) as [r w1]. by simplify_eq.
  - pose proof (handle_response_counter response w) as Hbody.
    destruct (handle_response response w) as [[[]|e|] w1]; cbn in Hbody.
    + by simplify_eq.
    + pose proof (data_main_end_counter (StreamRaises e) w1) as Hend.
      destruct (_data_main [] (StreamRaises e) w1) as [r w2].
      simplify_eq. cbn in Hend. congruence.
    + discriminate.
  - discriminate.
Qed.

Lemma call_step_well_formed (b : bool) (c c' : Call) (r : Outcome Call)
    (w w' : World) :
  call_step b c w = (r, w') →
  next_point r = Some c' →
  0 ≤ _req_id (self w) ≤ INT32_MAX →
  stamped c →
  0 ≤ _req_id (self w') ≤ INT32_MAX ∧ stamped c'.
Proof.
  intros Hstep Hnext Hrange Hst.
  assert (Hid : _next_id w =
    (Return (successor_id (_req_id (self w))),
     {| self := set__req_id (successor_id (_req_id (self w))) (self w);
        history := history w ++ [EvAcquire lock; EvRelease lock] |})).
  { apply _next_id_run. lia. }
  pose proof (successor_id_range _ Hrange) as Hsucc.
  destruct c as [req|req|req rid|req rid|req cb|req cb|req rid cb|req rid
                | | | | |v|e]; cbn [call_step] in Hstep.
  - revert Hstep. run_M. destruct (_in_shutdown (self w));
      intros [= <- <-]; cbn in Hnext; simplify_eq; done.
  - rewrite bind_run, Hid in Hstep. unfold ret in Hstep. simplify_eq.
    cbn in Hnext. simplify_eq. cbn. lia.
  - revert Hstep. run_M. intros [= <- <-].
    cbn in Hnext. simplify_eq. done.
  - rewrite bind_run in Hstep.
    destruct (_in_shutdown (self w)) eqn:Hdown.
    { rewrite _blocking_send_wait_shutdown in Hstep by done.
      simplify_eq. cbn in Hnext. simplify_eq. done. }
    destruct (ready_data (self w) !! rid) as [d|] eqn:Hd.
    + rewrite (_blocking_send_wait_ready _ _ _ d) in Hstep by done.
      unfold ret in Hstep. simplify_eq. cbn in Hnext. simplify_eq. done.
    + rewrite _blocking_send_wait_blocks in Hstep by done.
      by simplify_eq.
  - revert Hstep. run_M. destruct (_in_shutdown (self w));
      intros [= <- <-]; cbn in Hnext; simplify_eq; done.
  - rewrite bind_run, Hid in Hstep. unfold ret in Hstep. simplify_eq.
    cbn in Hnext. simplify_eq. cbn. lia.
  - revert Hstep. unfold _async_send_register.
    destruct cb as [[[] f]|]; run_M; intros [= <- <-];
      cbn in Hnext; simplify_eq; done.
  - revert Hstep. run_M. intros [= <- <-].
    cbn in Hnext. simplify_eq. done.
  - revert Hstep. run_M. intros [= <- <-].
    cbn in Hnext. simplify_eq. done.
  - revert Hstep. run_M. intros [= <- <-].
    cbn in Hnext. simplify_eq. done.
  - revert Hstep. destruct b; run_M; intros [= <- <-];
      cbn in Hnext; simplify_eq; done.
  - revert Hstep. run_M. intros [= <- <-].
    cbn in Hnext. simplify_eq. done.
  - unfold blocks in Hstep. by simplify_eq.
  - unfold blocks in Hstep. by simplify_eq.
Qed.

Lemma step_well_formed (s s' : System) :
  step s s' → well_formed s → well_formed s'.
Proof.
  intros Hstep [Hrange Hst].
  destruct Hstep as [s i c c' r w' Hc Hrun Hnext|s t' w' Hrun
                    |s req queue Hopen Hq|s queue Hopen Hq];
    unfold well_formed; cbn.
  - destruct (call_step_well_formed _ _ _ _ _ _ Hrun Hnext Hrange
                (Hst _ _ Hc)) as [Hrange' Hst'].
    split; [done|]. intros j cj Hj.
    apply list_lookup_insert_Some in Hj as [(-> & -> & _)|[_ Hj]]; eauto.
  - rewrite (data_thread_step_counter _ _ _ _ Hrun). done.
  - done.
  - done.
Qed.

Lemma initial_well_formed (s : System) : initial s → well_formed s.
Proof.
  intros (Hw & Hentry & _). split.
  - rewrite Hw. cbn. rewrite INT32_MAX_eq. lia.
  - intros i c Hc. rewrite Forall_lookup in Hentry.
    apply Hentry in Hc. destruct c; done.
Qed.

Lemma reachable_well_formed (s0 s : System) :
  initial s0 → rtc step s0 s → well_formed s.
Proof.
  intros Hinit Hrun. revert s Hrun. apply rtc_ind_r.
  - by apply initial_well_formed.
  - intros s1 s2 _ Hstep IH. by apply (step_well_formed s1).
Qed.

(** ** The allocator in the running system *)

(** C8: [_next_id] never returns 0.  From a counter in [0 .. 2^31-1] the
    call returns, without raising, a value in [1 .. 2^31-1] and leaves the
    counter at that value, and with the counter at the maximum [2^31-1] the
    value returned is 1.  The counter is in [0 .. 2^31-1] in every state
    the system reaches from its construction, so that [_next_id] has no
    error path there. *)
Theorem next_id_nonzero_in_range_wraps (w : World) :
  (∀ i w', _next_id w = (Return i, w') → i ≠ 0)
  ∧ (0 ≤ _req_id (self w) ≤ INT32_MAX →
     ∃ i w',
       _next_id w = (Return i, w')
       ∧ 1 ≤ i ≤ 2 ^ 31 - 1
       ∧ (_req_id (self w) = 2 ^ 31 - 1 → i = 1)
       ∧ _req_id (self w') = i)
  ∧ (∀ s0 s, initial s0 → rtc step s0 s → world s = w →
       0 ≤ _req_id (self w) ≤ INT32_MAX).
Proof.
  split; [|split].
  - intros i w' Hrun.
    destruct (Z.eq_dec (_req_id (self w)) (-1)) as [He|Hne].
    + apply _next_id_assert in He. rewrite Hrun in He. discriminate.
    + rewrite (_next_id_run w Hne) in Hrun. inversion Hrun; subst.
      unfold successor_id.
      destruct (Z.gtb_spec (_req_id (self w) + 1) INT32_MAX); lia.
  - intros Hrange.
    rewrite (_next_id_run w) by lia.
    eexists _, _. split; [reflexivity|].
    split; [apply successor_id_range; exact Hrange|].
    split; [|reflexivity].
    intros Hmax. rewrite Hmax. reflexivity.
  - intros s0 s Hinit Hreach <-.
    by destruct (reachable_well_formed _ _ Hinit Hreach).
Qed.

Lemma next_id_nonzero_in_range_wraps_witness :
  0 ≤ _req_id (self fresh) ≤ INT32_MAX
  ∧ ∃ i w',
      _next_id fresh = (Return i, w')
      ∧ 1 ≤ i ≤ 2 ^ 31 - 1
      ∧ (_req_id (self fresh) = 2 ^ 31 - 1 → i = 1)
      ∧ _req_id (self w') = i.
Proof.
  split; [vm_compute; split; discriminate|].
  apply (proj1 (proj2 (next_id_nonzero_in_range_wraps fresh))).
  vm_compute; split; discriminate.
Defined.

(** The allocator at the maximum value. *)
Example next_id_at_max :
  fst (_next_id {| self := set__req_id (2 ^ 31 - 1) __init__; history := [] |})
  = Return 1.
Proof. reflexivity. Qed.

(** ** At most one call per response *)

Lemma initial_exactly_once (s : System) :
  initial s → NoDup (remaining (data s)) → exactly_once s.
Proof.
  intros (Hw & Hentry & _) Hnd.
  assert (Hnone : ∀ i v, calls s !! i ≠ Some (returned (Some v))).
  { intros i v Hc. rewrite Forall_lookup in Hentry.
    apply Hentry in Hc. done. }
  split; [done|]. split; [|split].
  - intros k v. rewrite Hw. cbn. by rewrite lookup_empty.
  - intros i v Hc. by apply Hnone in Hc.
  - intros i j v Hc. by apply Hnone in Hc.
Qed.

Lemma step_exactly_once (s s' : System) :
  step s s' → exactly_once s → exactly_once s'.
Proof.
  intros Hstep (Hnd & Hready & Hret & Huniq).
  destruct Hstep as [s i c c' r w' Hc Hrun Hnext|s t' w' Hrun
                    |s req queue Hopen Hq|s queue Hopen Hq];
    unfold exactly_once; cbn.
  - destruct (call_step_ready_data _ _ _ _ _ _ Hrun Hnext)
      as [[Hsame Hnot]|(req & rid & v & -> & -> & Hup & Hv & Hdel)].
    + rewrite Hsame. split; [done|]. split; [done|]. split.
      * intros j u Hj.
        apply list_lookup_insert_Some in Hj as [(_ & -> & _)|[_ Hj]];
          [by destruct (Hnot u)|eauto].
      * intros j1 j2 u Hj1 Hj2.
        apply list_lookup_insert_Some in Hj1 as [(_ & -> & _)|[_ Hj1]];
          [by destruct (Hnot u)|].
        apply list_lookup_insert_Some in Hj2 as [(_ & -> & _)|[_ Hj2]];
          [by destruct (Hnot u)|eauto].
    + rewrite Hdel. destruct (Hready _ _ Hv) as [Hkey Hfresh].
      assert (Hgone : ∀ k, delete rid (ready_data (self (world s))) !! k
                           ≠ Some v).
      { intros k Hk. apply lookup_delete_Some in Hk as [Hne Hk].
        apply Hready in Hk as [Hk _]. congruence. }
      split; [done|]. split; [|split].
      * intros k u Hk. apply lookup_delete_Some in Hk as [_ Hk]. eauto.
      * intros j u Hj.
        apply list_lookup_insert_Some in Hj as [(_ & [= <-] & _)|[_ Hj]];
          [done|].
        destruct (Hret _ _ Hj) as [Hu1 Hu2]. split; [done|].
        intros k Hk. apply lookup_delete_Some in Hk as [_ Hk].
        by apply Hu2 in Hk.
      * intros j1 j2 u Hj1 Hj2.
        apply list_lookup_insert_Some in Hj1 as [(? & ? & _)|[Hne1 Hj1]];
        apply list_lookup_insert_Some in Hj2 as [(? & ? & _)|[Hne2 Hj2]];
        simplify_eq; try done.
        -- destruct (Hret _ _ Hj2) as [_ Hu]. by apply Hu in Hv.
        -- destruct (Hret _ _ Hj1) as [_ Hu]. by apply Hu in Hv.
        -- eauto.
  - destruct (data_thread_step_ready_data _ _ _ _ Hrun)
      as (Hsub & Hnd' & Htable).
    split; [auto|].
    destruct Htable as [Hsame|(response & Hins & Hin & Hout)].
    + rewrite Hsame. split; [|split; [|done]].
      * intros k v Hk. destruct (Hready _ _ Hk). split; [done|]. auto.
      * intros j v Hj. destruct (Hret _ _ Hj). split; [|done]. auto.
    + rewrite Hins. split; [|split; [|done]].
      * intros k v Hk.
        apply lookup_insert_Some in Hk as [[<- <-]|[_ Hk]]; [auto|].
        destruct (Hready _ _ Hk). split; [done|]. auto.
      * intros j v Hj. destruct (Hret _ _ Hj) as [Hv1 Hv2].
        split; [auto|]. intros k Hk.
        apply lookup_insert_Some in Hk as [[_ ->]|[_ Hk]]; [done|].
        by apply Hv2 in Hk.
  - done.
  - done.
Qed.

Lemma reachable_exactly_once (s0 s : System) :
  initial s0 → NoDup (remaining (data s0)) → rtc step s0 s →
  exactly_once s.
Proof.
  intros Hinit Hnd Hrun. revert s Hrun. apply rtc_ind_r.
  - by apply initial_exactly_once.
  - intros s1 s2 _ Hstep IH. by apply (step_exactly_once s1).
Qed.

(** A step changes the control point of a call only by a step of that
    call. *)
Lemma step_calls (s s' : System) (i : nat) (c' : Call) :
  step s s' →
  calls s' !! i = Some c' →
  calls s !! i = Some c'
  ∨ ∃ c r,
      calls s !! i = Some c
      ∧ call_step (data_thread_finished (data s)) c (world s)
        = (r, world s')
      ∧ next_point r = Some c'.
Proof.
  intros Hstep Hc'.
  destruct Hstep as [s j c c1 r w' Hc Hrun Hnext|s t' w' Hrun
                    |s req queue Hopen Hq|s queue Hopen Hq];
    cbn in *; auto.
  apply list_lookup_insert_Some in Hc' as [(<- & <- & _)|[_ Hc']]; [|auto].
  right. eauto.
Qed.

(** A call that has ended stays as it is. *)
Lemma step_returned (s s' : System) (i : nat) (value : option DataResponse) :
  step s s' →
  calls s !! i = Some (returned value) →
  calls s' !! i = Some (returned value).
Proof.
  intros Hstep Hc.
  destruct Hstep as [s j c c1 r w' Hcj Hrun Hnext|s t' w' Hrun
                    |s req queue Hopen Hq|s queue Hopen Hq];
    cbn in *; auto.
  destruct (decide (j = i)) as [->|Hne].
  - rewrite Hc in Hcj. simplify_eq. cbn in Hrun. unfold blocks in Hrun.
    by simplify_eq.
  - by rewrite list_lookup_insert_ne.
Qed.

(** ** Every response is accounted for *)

Lemma stored_insert (w w' : World) (response : DataResponse) :
  ready_data (self w') = ready_data (self w)
  ∨ ready_data (self w')
    = <[resp_req_id response := response]> (ready_data (self w)) →
  stored w' ⊆+ response :: stored w.
Proof.
  unfold stored. intros [->| ->]; [by apply submseteq_cons|].
  set (m := ready_data (self w)). set (k := resp_req_id response).
  destruct (m !! k) as [old|] eqn:Hk.
  - rewrite <- insert_delete_eq.
    rewrite map_to_list_insert by apply lookup_delete_eq.
    rewrite fmap_cons. cbn. apply submseteq_skip.
    rewrite <- (map_to_list_delete m k old Hk).
    rewrite fmap_cons. by apply submseteq_cons.
  - rewrite map_to_list_insert by done. done.
Qed.

Lemma stored_delete (w w' : World) (k : Z) (response : DataResponse) :
  ready_data (self w) !! k = Some response →
  ready_data (self w') = delete k (ready_data (self w)) →
  stored w ≡ₚ response :: stored w'.
Proof.
  unfold stored. intros Hk ->.
  rewrite <- (map_to_list_delete _ k response Hk). done.
Qed.

Lemma data_thread_step_accounted (t t' : DataThread) (w w' : World) :
  data_thread_step t w = Some (t', w') →
  stored w' ++ remaining t' ⊆+ stored w ++ remaining t.
Proof.
  intros Hstep.
  destruct t as [[|response rest] fin|r]; cbn [data_thread_step] in Hstep.
  - pose proof (data_main_end_ready_data fin w) as Hend.
    destruct (_data_main [] fin w) as [r w1]. simplify_eq. cbn in *.
    unfold stored. by rewrite Hend.
  - pose proof (handle_response_ready_data response w) as Hbody.
    assert (Hacc : ∀ (w1 : World) (rest' : list DataResponse),
      ready_data (self w1) = ready_data (self (snd (handle_response response w))) →
      rest' ⊆+ rest →
      stored w1 ++ rest' ⊆+ stored w ++ response :: rest).
    { intros w1 rest' Heq Hsub.
      rewrite <- Permutation_middle.
      change (response :: stored w ++ rest)
        with ((response :: stored w) ++ rest).
      apply submseteq_app; [|done].
      apply stored_insert. rewrite Heq. exact Hbody. }
    destruct (handle_response response w) as [[[]|e|] w1]; cbn in Hacc.
    + simplify_eq. cbn. by apply Hacc.
    + pose proof (data_main_end_ready_data (StreamRaises e) w1) as Hend.
      destruct (_data_main [] (StreamRaises e) w1) as [r w2].
      simplify_eq. cbn in *. apply Hacc; [done|]. apply submseteq_nil_l.
    + discriminate.
  - discriminate.
Qed.

Lemma omap_insert_None {A B} (f : A → option B) (l : list A) (i : nat)
    (a a' : A) :
  l !! i = Some a → f a = None → f a' = None →
  omap f (<[i := a']> l) = omap f l.
Proof.
  revert i. induction l as [|x l IH]; intros [|i] Hl Ha Ha'; cbn in Hl;
    simplify_eq.
  - cbn. by rewrite Ha, Ha'.
  - change (<[S i := a']> (x :: l)) with (x :: <[i := a']> l).
    change (omap f (x :: <[i := a']> l))
      with (match f x with
            | Some y => y :: omap f (<[i := a']> l)
            | None => omap f (<[i := a']> l)
            end).
    by rewrite (IH i).
Qed.

Lemma omap_insert_Some {A B} (f : A → option B) (l : list A) (i : nat)
    (a a' : A) (b : B) :
  l !! i = Some a → f a = None → f a' = Some b →
  omap f (<[i := a']> l) ≡ₚ b :: omap f l.
Proof.
  revert i. induction l as [|x l IH]; intros [|i] Hl Ha Ha'; cbn in Hl;
    simplify_eq.
  - cbn. by rewrite Ha, Ha'.
  - change (<[S i := a']> (x :: l)) with (x :: <[i := a']> l).
    change (omap f (x :: <[i := a']> l))
      with (match f x with
            | Some y => y :: omap f (<[i := a']> l)
            | None => omap f (<[i := a']> l)
            end).
    cbn [omap list_omap]. destruct (f x) as [y|].
    + rewrite (IH i) by done. apply perm_swap.
    + by apply IH.
Qed.

(** A call that can take a step has not returned. *)
Lemma call_step_not_returned (b : bool) (c c' : Call) (r : Outcome Call)
    (w w' : World) :
  call_step b c w = (r, w') → next_point r = Some c' →
  returned_response c = None.
Proof.
  intros Hstep Hnext. destruct c; try done.
  cbn in Hstep. unfold blocks in Hstep. by simplify_eq.
Qed.

Lemma step_accounted (s s' : System) :
  step s s' → accounted s' ⊆+ accounted s.
Proof.
  intros Hstep.
  destruct Hstep as [s i c c' r w' Hc Hrun Hnext|s t' w' Hrun
                    |s req queue Hopen Hq|s queue Hopen Hq];
    unfold accounted, delivered; cbn.
  - pose proof (call_step_not_returned _ _ _ _ _ _ Hrun Hnext) as Hnone.
    destruct (call_step_ready_data _ _ _ _ _ _ Hrun Hnext)
      as [[Hsame Hnot]|(req & rid & v & -> & -> & Hup & Hv & Hdel)].
    + rewrite (omap_insert_None _ _ _ c c') by
        (try done; destruct c' as [| | | | | | | | | | | |[v|]|]; try done;
         by destruct (Hnot v)).
      unfold stored. by rewrite Hsame.
    + rewrite (omap_insert_Some _ _ _ _ _ v Hc) by done.
      rewrite (stored_delete _ w' rid v Hv Hdel).
      apply Permutation_submseteq. cbn.
      by rewrite <- Permutation_middle.
  - apply submseteq_skips_l. by apply data_thread_step_accounted.
  - done.
  - done.
Qed.

Lemma reachable_accounted (s0 s : System) :
  initial s0 → rtc step s0 s → delivered s ⊆+ remaining (data s0).
Proof.
  intros (Hw & Hentry & _) Hreach.
  assert (Hacc0 : accounted s0 = remaining (data s0)).
  { unfold accounted, delivered, stored. rewrite Hw. cbn.
    rewrite map_to_list_empty. cbn.
    replace (omap returned_response (calls s0)) with (@nil DataResponse);
      [done|].
    induction Hentry as [|c l Hc _ IH]; [done|].
    cbn. rewrite <- IH. by destruct c. }
  assert (Hacc : accounted s ⊆+ accounted s0).
  { revert s Hreach. apply rtc_ind_r; [done|].
    intros s1 s2 _ Hstep IH. etrans; [|exact IH]. by apply step_accounted. }
  rewrite <- Hacc0. etrans; [|exact Hacc].
  unfold accounted. by apply submseteq_inserts_r.
Qed.

(** ** The executable scheduler *)

Lemma schedule_step (t : Turn) (s s' : System) :
  schedule t s = Some s' → step s s'.
Proof.
  destruct t as [i| |]; cbn [schedule]; intros Hs.
  - destruct (calls s !! i) as [c|] eqn:Hc; [|discriminate].
    destruct (call_step _ c (world s)) as [r w'] eqn:Hrun.
    destruct (next_point r) as [c'|] eqn:Hnext; [|discriminate].
    simplify_eq. by eapply step_call.
  - destruct (data_thread_step _ _) as [[t' w']|] eqn:Hrun; [|discriminate].
    simplify_eq. by apply step_data.
  - destruct (outbound_open s) eqn:Hopen; [|discriminate].
    destruct (request_queue (self (world s))) as [|[req|] queue] eqn:Hq;
      simplify_eq.
    + by apply step_outbound_request.
    + by apply step_outbound_sentinel.
Qed.

Lemma run_schedule_execution (turns : list Turn) :
  ∀ (s : System) (states : list System),
    run_schedule turns s = Some states →
    states !! 0%nat = Some s
    ∧ execution states
    ∧ ∀ s', last states = Some s' → rtc step s s'.
Proof.
  induction turns as [|t turns IH]; intros s states Hrun;
    cbn [run_schedule] in Hrun.
  - simplify_eq. split; [done|]. split.
    + intros [|p] s1 s2 H1 H2; discriminate.
    + intros s' [= <-]. constructor.
  - destruct (schedule t s) as [s1|] eqn:Hs; [|discriminate].
    destruct (run_schedule turns s1) as [states1|] eqn:Hr; [|discriminate].
    simplify_eq. destruct (IH _ _ Hr) as (Hhead & Hexec & Hlast).
    apply schedule_step in Hs.
    destruct states1 as [|s1' rest]; [discriminate|].
    cbn in Hhead. simplify_eq.
    split; [done|]. split.
    + intros [|p] s2 s3 H2 H3; cbn in H2, H3.
      * by simplify_eq.
      * eauto.
    + intros s' Hl. apply rtc_l with s1; [done|]. apply Hlast. exact Hl.
Qed.

Lemma run_schedule_reaches (turns : list Turn) (s s' : System)
    (states : list System) :
  run_schedule turns s = Some states → last states = Some s' →
  rtc step s s'.
Proof.
  intros Hrun Hlast.
  destruct (run_schedule_execution _ _ _ Hrun) as (_ & _ & H). auto.
Qed.

Lemma state_after_reaches (turns : list Turn) (s : System) :
  rtc step s (state_after turns s).
Proof.
  unfold state_after.
  destruct (run_schedule turns s) as [states|] eqn:Hrun; [|constructor].
  destruct (last states) as [s'|] eqn:Hlast; [|constructor].
  by eapply run_schedule_reaches.
Qed.

(** ** Blocking calls get their own response, once *)

(** C1: in any state reachable from the initial one, when a step makes
    call [i] return [response], then [i] was a blocking call in its
    [with self.cv] block, holding the request it had stamped with its id;
    the flag [_in_shutdown] was false; [response] is what [ready_data] held
    under that id before the step, and the step removed that entry.  From
    then on the call stays returned, and the responses that blocking calls
    have returned form a sub-multiset of the responses of the stream: none
    is returned more often than the stream delivered it.  So when the
    responses of the stream are pairwise different, no other call ever
    returns [response]. *)
Theorem blocking_send_returns_own_response_once
    (s0 s s' : System) (i : nat) (response : DataResponse) :
  initial s0 →
  rtc step s0 s →
  step s s' →
  calls s !! i ≠ Some (returned (Some response)) →
  calls s' !! i = Some (returned (Some response)) →
  (∃ req,
     calls s !! i = Some (blocking_L136 req (req_id req))
     ∧ 1 ≤ req_id req ≤ 2 ^ 31 - 1
     ∧ _in_shutdown (self (world s)) = false
     ∧ ready_data (self (world s)) !! req_id req = Some response
     ∧ ready_data (self (world s'))
       = delete (req_id req) (ready_data (self (world s)))
     ∧ ready_data (self (world s')) !! req_id req = None)
  ∧ ∀ s'', rtc step s' s'' →
      calls s'' !! i = Some (returned (Some response))
      ∧ delivered s'' ⊆+ remaining (data s0)
      ∧ (NoDup (remaining (data s0)) →
         ∀ j, calls s'' !! j = Some (returned (Some response)) → j = i).
Proof.
  intros Hinit Hreach Hstep Hbefore Hafter.
  split.
  - destruct (step_calls _ _ _ _ Hstep Hafter)
      as [Hsame|(c & r & Hc & Hrun & Hnext)]; [done|].
    destruct (call_step_ready_data _ _ _ _ _ _ Hrun Hnext)
      as [[_ Hnot]|(req & rid & v & -> & [= <-] & Hup & Hv & Hdel)].
    { by destruct (Hnot response). }
    destruct (reachable_well_formed _ _ Hinit Hreach) as [_ Hst].
    destruct (Hst _ _ Hc) as [<- Hrange].
    exists req. rewrite Hdel. split; [done|]. split; [done|].
    split; [done|]. split; [done|]. split; [done|].
    apply lookup_delete_eq.
  - intros s'' Hlater.
    assert (Hstays : calls s'' !! i = Some (returned (Some response))).
    { revert s'' Hlater. apply rtc_ind_r; [done|].
      intros s1 s2 _ Hs IH. by apply (step_returned s1). }
    assert (Hreach'' : rtc step s0 s'').
    { etrans; [exact Hreach|].
      eapply rtc_l; [exact Hstep|exact Hlater]. }
    split; [done|]. split; [by apply reachable_accounted|].
    intros Hnd j Hj.
    destruct (reachable_exactly_once _ _ Hinit Hnd Hreach'')
      as (_ & _ & _ & Huniq).
    by apply (Huniq j i response).
Qed.

Lemma blocking_send_returns_own_response_once_witness :
  let s := state_after [turn_call 0; turn_call 0; turn_call 0; turn_data]
             one_blocking_call in
  let s' := state_after [turn_call 0] s in
  let response := mkDataResponse 1 (get "y") in
  (∃ req,
     calls s !! 0%nat = Some (blocking_L136 req (req_id req))
     ∧ 1 ≤ req_id req ≤ 2 ^ 31 - 1
     ∧ _in_shutdown (self (world s)) = false
     ∧ ready_data (self (world s)) !! req_id req = Some response
     ∧ ready_data (self (world s'))
       = delete (req_id req) (ready_data (self (world s)))
     ∧ ready_data (self (world s')) !! req_id req = None)
  ∧ ∀ s'', rtc step s' s'' →
      calls s'' !! 0%nat = Some (returned (Some response))
      ∧ delivered s'' ⊆+ remaining (data one_blocking_call)
      ∧ (NoDup (remaining (data one_blocking_call)) →
         ∀ j, calls s'' !! j = Some (returned (Some response)) → j = 0%nat).
Proof.
  cbv zeta.
  apply (blocking_send_returns_own_response_once one_blocking_call).
  - repeat split; [repeat constructor|by eexists _, _].
  - apply state_after_reaches.
  - apply (schedule_step (turn_call 0)). reflexivity.
  - vm_compute. discriminate.
  - reflexivity.
Defined.

(** ** Registration before dispatch *)

Lemma call_step_async_origin (req0 : DataRequest)
    (callback0 : option Callable) (b : bool) (c c' : Call)
    (r : Outcome Call) (w w' : World) :
  call_step b c w = (r, w') →
  next_point r = Some c' →
  async_origin req0 callback0 c →
  async_origin req0 callback0 c'.
Proof.
  intros Hstep Hnext Horigin.
  destruct c as [req|req|req rid|req rid|req cb|req cb|req rid cb|req rid
                | | | | |v|e]; try done; cbn [call_step] in Hstep.
  - revert Hstep. run_M. destruct (_in_shutdown (self w));
      intros [= <- <-]; cbn in Hnext; simplify_eq; done.
  - rewrite bind_run in Hstep.
    destruct (_next_id w) as [[j| |] w1]; unfold ret in Hstep;
      simplify_eq; cbn in Hnext; simplify_eq; [|done].
    destruct Horigin as [-> ->]. done.
  - revert Hstep. unfold _async_send_register.
    destruct cb as [[[] f]|]; run_M; intros [= <- <-];
      cbn in Hnext; simplify_eq; by destruct Horigin.
  - revert Hstep. run_M. intros [= <- <-].
    cbn in Hnext. simplify_eq. done.
  - unfold blocks in Hstep. by simplify_eq.
  - unfold blocks in Hstep. by simplify_eq.
Qed.

(** The only step that leads to line 166 is the one from line 164, which
    registers the callback, if there is one, and leaves the queue alone. *)
Lemma call_step_to_L166 (b : bool) (c : Call) (r : Outcome Call)
    (w w' : World) (req : DataRequest) (i : Z) :
  call_step b c w = (r, w') →
  next_point r = Some (async_L166 req i) →
  ∃ callback,
    c = async_L164 req i callback
    ∧ asyncio_waiting_data (self w')
      = registered i callback (asyncio_waiting_data (self w))
    ∧ request_queue (self w') = request_queue (self w).
Proof.
  intros Hstep Hnext.
  destruct c as [rq|rq|rq rid|rq rid|rq cb|rq cb|rq rid cb|rq rid
                | | | | |v|e]; cbn [call_step] in Hstep.
  - revert Hstep. run_M. destruct (_in_shutdown (self w));
      intros [= <- <-]; cbn in Hnext; simplify_eq.
  - rewrite bind_run in Hstep.
    destruct (_next_id w) as [[j| |] w1]; unfold ret in Hstep;
      simplify_eq; cbn in Hnext; simplify_eq.
  - revert Hstep. run_M. intros [= <- <-]. cbn in Hnext. simplify_eq.
  - rewrite bind_run in Hstep.
    destruct (_blocking_send_wait rq rid w) as [[v| |] w1];
      unfold ret in Hstep; simplify_eq; cbn in Hnext; simplify_eq.
  - revert Hstep. run_M. destruct (_in_shutdown (self w));
      intros [= <- <-]; cbn in Hnext; simplify_eq.
  - rewrite bind_run in Hstep.
    destruct (_next_id w) as [[j| |] w1]; unfold ret in Hstep;
      simplify_eq; cbn in Hnext; simplify_eq.
  - exists cb. revert Hstep. unfold _async_send_register.
    destruct cb as [[[] f]|]; run_M; intros [= <- <-]; cbn in Hnext;
      simplify_eq; done.
  - revert Hstep. run_M. intros [= <- <-]. cbn in Hnext. simplify_eq.
  - revert Hstep. run_M. intros [= <- <-]. cbn in Hnext. simplify_eq.
  - revert Hstep. run_M. intros [= <- <-]. cbn in Hnext. simplify_eq.
  - revert Hstep. destruct b; run_M; intros [= <- <-];
      cbn in Hnext; simplify_eq.
  - revert Hstep. run_M. intros [= <- <-]. cbn in Hnext. simplify_eq.
  - unfold blocks in Hstep. by simplify_eq.
  - unfold blocks in Hstep. by simplify_eq.
Qed.

Section AsyncCall.
Variable states : list System.
Variable i : nat.
Variable req0 : DataRequest.
Variable callback0 : option Callable.
Hypothesis Hexec : execution states.
Hypothesis Hstart :
  ∃ s0, states !! 0%nat = Some s0
        ∧ calls s0 !! i = Some (async_L154 req0 callback0).

Lemma execution_previous (p : nat) (s' : System) :
  states !! S p = Some s' →
  ∃ s, states !! p = Some s ∧ step s s'.
Proof using Hexec.
  intros Hs'.
  destruct (lookup_lt_is_Some_2 states p) as [s Hs].
  { apply lookup_lt_Some in Hs'. lia. }
  exists s. split; [done|]. by apply (Hexec p).
Qed.

Lemma execution_async_origin (p : nat) :
  ∀ s c, states !! p = Some s → calls s !! i = Some c →
         async_origin req0 callback0 c.
Proof using Hexec Hstart.
  induction p as [|p IH]; intros s c Hs Hc.
  - destruct Hstart as (s0 & Hs0 & Hc0). simplify_eq. done.
  - destruct (execution_previous _ _ Hs) as (s1 & Hs1 & Hstep).
    destruct (step_calls _ _ _ _ Hstep Hc)
      as [Hsame|(c1 & r & Hc1 & Hrun & Hnext)]; [eauto|].
    eapply call_step_async_origin; eauto.
Qed.

Lemma execution_registration (p : nat) :
  ∀ s req rid,
    states !! p = Some s →
    calls s !! i = Some (async_L166 req rid) →
    ∃ (q : nat) (t t' : System),
      (q < p)%nat
      ∧ states !! q = Some t
      ∧ states !! S q = Some t'
      ∧ calls t !! i = Some (async_L164 req rid callback0)
      ∧ calls t' !! i = Some (async_L166 req rid)
      ∧ asyncio_waiting_data (self (world t'))
        = registered rid callback0 (asyncio_waiting_data (self (world t)))
      ∧ request_queue (self (world t')) = request_queue (self (world t)).
Proof using Hexec Hstart.
  induction p as [|p IH]; intros s req rid Hs Hc.
  - destruct Hstart as (s0 & Hs0 & Hc0). simplify_eq.
  - destruct (execution_previous _ _ Hs) as (s1 & Hs1 & Hstep).
    destruct (step_calls _ _ _ _ Hstep Hc)
      as [Hsame|(c1 & r & Hc1 & Hrun & Hnext)].
    + destruct (IH _ _ _ Hs1 Hsame) as (q & t & t' & Hq & H).
      exists q, t, t'. split; [lia|done].
    + destruct (call_step_to_L166 _ _ _ _ _ _ _ Hrun Hnext)
        as (cb & -> & Htable & Hqueue).
      pose proof (execution_async_origin _ _ _ Hs1 Hc1) as [_ ->].
      exists p, s1, s. split; [lia|]. done.
Qed.
End AsyncCall.

(** C6, as the code has it: in an execution of the system (any
    interleaving of the callers, the data thread and the outbound stream),
    call [i] is [_async_send req0 callback] with a callback that is true in
    a boolean context, as every function object is.  When a step of the
    execution makes that call push its request (it goes from line 166 to
    its return), the request pushed is [req0] stamped with the id [rid] of
    the call, and an earlier step of the execution took the call from line
    164 to line 166: that step stored the callback under [rid] in
    [asyncio_waiting_data] and left the request queue as it was. *)
Theorem callback_registered_before_push
    (states : list System) (i : nat) (req0 : DataRequest)
    (callback : Callable) (p : nat) (s s' : System)
    (req : DataRequest) (rid : Z) :
  execution states →
  (∃ s0, states !! 0%nat = Some s0
         ∧ calls s0 !! i = Some (async_L154 req0 (Some callback))) →
  bool_of callback = true →
  states !! p = Some s →
  states !! S p = Some s' →
  calls s !! i = Some (async_L166 req rid) →
  calls s' !! i = Some (returned None) →
  req = set_req_id req0 rid
  ∧ request_queue (self (world s'))
    = request_queue (self (world s)) ++ [Some req]
  ∧ ∃ (q : nat) (t t' : System),
      (q < p)%nat
      ∧ states !! q = Some t
      ∧ states !! S q = Some t'
      ∧ calls t !! i = Some (async_L164 req rid (Some callback))
      ∧ calls t' !! i = Some (async_L166 req rid)
      ∧ asyncio_waiting_data (self (world t'))
        = <[rid := call_of callback]> (asyncio_waiting_data (self (world t)))
      ∧ asyncio_waiting_data (self (world t')) !! rid
        = Some (call_of callback)
      ∧ request_queue (self (world t')) = request_queue (self (world t)).
Proof.
  intros Hexec Hstart Htrue Hs Hs' Hc Hc'.
  split; [|split].
  - exact (execution_async_origin states i req0 (Some callback)
             Hexec Hstart p s _ Hs Hc).
  - assert (Hstep : step s s') by (by apply (Hexec p)).
    destruct (step_calls _ _ _ _ Hstep Hc')
      as [Hsame|(c1 & r & Hc1 & Hrun & Hnext)]; [congruence|].
    rewrite Hc in Hc1. simplify_eq. revert Hrun. cbn [call_step]. run_M.
    intros [= _ <-]. reflexivity.
  - destruct (execution_registration states i req0 (Some callback)
                Hexec Hstart p s req rid Hs Hc)
      as (q & t & t' & Hq & Ht & Ht' & Hct & Hct' & Htable & Hqueue).
    exists q, t, t'. rewrite Htable. unfold registered. rewrite Htrue.
    repeat (split; [done|]). split; [apply lookup_insert_eq|done].
Qed.

Lemma callback_registered_before_push_witness :
  let states := interleaved_states in
  let s := state_after (take 7 interleaving) async_and_blocking in
  let s' := state_after interleaving async_and_blocking in
  let req := mkDataRequest 1 (get "x") in
  req = set_req_id (mkDataRequest 0 (get "x")) 1
  ∧ request_queue (self (world s'))
    = request_queue (self (world s)) ++ [Some req]
  ∧ ∃ (q : nat) (t t' : System),
      (q < 7)%nat
      ∧ states !! q = Some t
      ∧ states !! S q = Some t'
      ∧ calls t !! 0%nat
        = Some (async_L164 req 1 (Some (function quiet_callback)))
      ∧ calls t' !! 0%nat = Some (async_L166 req 1)
      ∧ asyncio_waiting_data (self (world t'))
        = <[1 := quiet_callback]> (asyncio_waiting_data (self (world t)))
      ∧ asyncio_waiting_data (self (world t')) !! 1 = Some quiet_callback
      ∧ request_queue (self (world t')) = request_queue (self (world t)).
Proof.
  cbv zeta.
  apply (callback_registered_before_push interleaved_states 0
           (mkDataRequest 0 (get "x")) (function quiet_callback) 7).
  - apply (run_schedule_execution interleaving async_and_blocking).
    reflexivity.
  - exists async_and_blocking. split; reflexivity.
  - reflexivity.
  - reflexivity.
  - reflexivity.
  - reflexivity.
  - reflexivity.
Defined.

(** C6, as stated, fails: line 164 tests [if callback], so a callback that
    is not [None] but is false in a boolean context is not registered.  In
    the run of [_async_send req falsy_callback] on a fresh client the call
    pushes its request, stamped with id 1, and [asyncio_waiting_data] is
    empty in every state of the run: no step inserts the callback, before
    the push or after.  The method run in one piece shows the same. *)
Lemma falsy_callback_is_not_registered :
  let req0 := mkDataRequest 0 (get "x") in
  let req := mkDataRequest 1 (get "x") in
  execution falsy_async_states
  ∧ falsy_async_states !! 0%nat = Some falsy_async_call
  ∧ calls falsy_async_call !! 0%nat
    = Some (async_L154 req0 (Some falsy_callback))
  ∧ (∃ s s',
       falsy_async_states !! 3%nat = Some s
       ∧ falsy_async_states !! 4%nat = Some s'
       ∧ calls s !! 0%nat = Some (async_L166 req 1)
       ∧ calls s' !! 0%nat = Some (returned None)
       ∧ request_queue (self (world s')) = [Some req])
  ∧ Forall (λ t, asyncio_waiting_data (self (world t)) = ∅)
      falsy_async_states
  ∧ fst (_async_send req0 (Some falsy_callback) fresh) = Return tt
  ∧ request_queue (self (snd (_async_send req0 (Some falsy_callback) fresh)))
    = [Some req]
  ∧ asyncio_waiting_data
      (self (snd (_async_send req0 (Some falsy_callback) fresh)))
    = ∅.
Proof.
  cbv zeta. split.
  { apply (run_schedule_execution
             [turn_call 0; turn_call 0; turn_call 0; turn_call 0]
             falsy_async_call).
    reflexivity. }
  split; [reflexivity|]. split; [reflexivity|]. split.
  { eexists _, _. repeat split; reflexivity. }
  split; [repeat constructor|].
  repeat split; reflexivity.
Qed.

(** * Further properties of the module *)

(** ** The per-operation methods after shutdown *)

(** X1: while [_in_shutdown] is true, each of the seven operations of the
    client ([Init], [PrepRuntimeEnv], [ConnectionInfo], [GetObject],
    [PutObject], [RegisterGetCallback], [ReleaseObject]) raises the
    [ConnectionError] of lines 127-131 or 157-161 after the call of
    [disconnect], and leaves the object as it was: nothing is sent, and no
    callback is registered. *)
Theorem operations_refused_after_shutdown
    (request : string) (callback : Callable) (w : World) :
  _in_shutdown (self w) = true →
  let failure {A} : Outcome A * World :=
    (Raise (ConnectionError msg_not_sent), refused w) in
  Init request w = failure
  ∧ PrepRuntimeEnv request w = failure
  ∧ ConnectionInfo w = failure
  ∧ GetObject request w = failure
  ∧ PutObject request w = failure
  ∧ RegisterGetCallback request callback w = failure
  ∧ ReleaseObject request w = failure
  ∧ self (refused w) = self w.
Proof.
  intros Hdown. cbv zeta.
  assert (Hb : ∀ req, _blocking_send req w
                      = (Raise (ConnectionError msg_not_sent), refused w)).
  { intros req. destruct w as [s h]. cbn in Hdown.
    unfold _blocking_send, _blocking_send_dispatch, refused.
    run_M. rewrite Hdown. reflexivity. }
  assert (Ha : ∀ req cb, _async_send req cb w
                         = (Raise (ConnectionError msg_not_sent), refused w)).
  { intros req cb. destruct w as [s h]. cbn in Hdown.
    unfold _async_send, refused. run_M. rewrite Hdown. reflexivity. }
  unfold Init, PrepRuntimeEnv, ConnectionInfo, GetObject, PutObject,
    RegisterGetCallback, ReleaseObject.
  rewrite !bind_run, !Hb, !Ha. auto 10.
Qed.

Lemma operations_refused_after_shutdown_witness :
  let failure {A} : Outcome A * World :=
    (Raise (ConnectionError msg_not_sent), refused shut_down) in
  Init "a" shut_down = failure
  ∧ PrepRuntimeEnv "a" shut_down = failure
  ∧ ConnectionInfo shut_down = failure
  ∧ GetObject "a" shut_down = failure
  ∧ PutObject "a" shut_down = failure
  ∧ RegisterGetCallback "a" (function quiet_callback) shut_down = failure
  ∧ ReleaseObject "a" shut_down = failure
  ∧ self (refused shut_down) = self shut_down.
Proof.
  apply (operations_refused_after_shutdown "a" (function quiet_callback)
           shut_down).
  reflexivity.
Defined.

(** ** The asynchronous path *)

(** What [_async_send] does on a client that is not shut down. *)
Lemma _async_send_run (req : DataRequest)
    (callback : option Callable) (w : World) :
  _in_shutdown (self w) = false →
  _req_id (self w) ≠ -1 →
  let i := successor_id (_req_id (self w)) in
  _async_send req callback w =
    (Return tt,
     {| self :=
          set_request_queue
            (request_queue (self w) ++ [Some (set_req_id req i)])
            (set_asyncio_waiting_data
               (registered i callback (asyncio_waiting_data (self w)))
               (set__req_id i (self w)));
        history := history w ++ [EvAcquire lock; EvRelease lock] |}).
Proof.
  intros Hup Hne. cbv zeta. unfold _async_send.
  rewrite bind_run. unfold read at 1. rewrite Hup.
  rewrite bind_run, (_next_id_run w Hne).
  destruct callback as [[[] f]|]; reflexivity.
Qed.

(** X2: on a client that is not shut down and whose counter is in range,
    [ReleaseObject] and [RegisterGetCallback] return at once (they neither
    raise nor block).  Each appends exactly one request to the queue, the
    payload of the operation stamped with the next id, which is in
    [1 .. 2^31-1]; [ready_data] is untouched.  [RegisterGetCallback] stores
    its callback under that id when the callback is true in a boolean
    context, as a function object is, and leaves [asyncio_waiting_data]
    untouched when it is false; [ReleaseObject] leaves
    [asyncio_waiting_data] untouched. *)
Theorem async_operations_enqueue_one_request
    (request : string) (callback : Callable) (w : World) :
  _in_shutdown (self w) = false →
  0 ≤ _req_id (self w) ≤ INT32_MAX →
  let i := successor_id (_req_id (self w)) in
  1 ≤ i ≤ INT32_MAX
  ∧ (∃ w1,
       ReleaseObject request w = (Return tt, w1)
       ∧ request_queue (self w1)
         = request_queue (self w)
           ++ [Some {| req_id := i; req_payload := release request |}]
       ∧ asyncio_waiting_data (self w1) = asyncio_waiting_data (self w)
       ∧ ready_data (self w1) = ready_data (self w)
       ∧ _req_id (self w1) = i
       ∧ _in_shutdown (self w1) = false)
  ∧ (∃ w2,
       RegisterGetCallback request callback w = (Return tt, w2)
       ∧ request_queue (self w2)
         = request_queue (self w)
           ++ [Some {| req_id := i; req_payload := get request |}]
       ∧ asyncio_waiting_data (self w2)
         = (if bool_of callback
            then <[i := call_of callback]> (asyncio_waiting_data (self w))
            else asyncio_waiting_data (self w))
       ∧ ready_data (self w2) = ready_data (self w)
       ∧ _req_id (self w2) = i
       ∧ _in_shutdown (self w2) = false).
Proof.
  intros Hup Hrange. cbv zeta.
  split; [by apply successor_id_range|].
  unfold ReleaseObject, RegisterGetCallback.
  rewrite !_async_send_run by (done || lia).
  split; eexists; (split; [reflexivity|]); cbn; auto 10.
Qed.

Lemma async_operations_enqueue_one_request_witness :
  let i := successor_id (_req_id (self fresh)) in
  let callback := function quiet_callback in
  1 ≤ i ≤ INT32_MAX
  ∧ (∃ w1,
       ReleaseObject "r" fresh = (Return tt, w1)
       ∧ request_queue (self w1)
         = request_queue (self fresh)
           ++ [Some {| req_id := i; req_payload := release "r" |}]
       ∧ asyncio_waiting_data (self w1) = asyncio_waiting_data (self fresh)
       ∧ ready_data (self w1) = ready_data (self fresh)
       ∧ _req_id (self w1) = i
       ∧ _in_shutdown (self w1) = false)
  ∧ (∃ w2,
       RegisterGetCallback "r" callback fresh = (Return tt, w2)
       ∧ request_queue (self w2)
         = request_queue (self fresh)
           ++ [Some {| req_id := i; req_payload := get "r" |}]
       ∧ asyncio_waiting_data (self w2)
         = (if bool_of callback
            then <[i := call_of callback]> (asyncio_waiting_data (self fresh))
            else asyncio_waiting_data (self fresh))
       ∧ ready_data (self w2) = ready_data (self fresh)
       ∧ _req_id (self w2) = i
       ∧ _in_shutdown (self w2) = false).
Proof.
  cbv zeta.
  apply (async_operations_enqueue_one_request "r" (function quiet_callback)
           fresh).
  - reflexivity.
  - vm_compute. split; discriminate.
Defined.

(** [RegisterGetCallback] with a callable that is false in a boolean
    context sends the request and registers nothing. *)
Example register_falsy_callback :
  asyncio_waiting_data (self (snd (RegisterGetCallback "r" falsy_callback fresh)))
  = ∅
  ∧ request_queue (self (snd (RegisterGetCallback "r" falsy_callback fresh)))
    = [Some (mkDataRequest 1 (get "r"))].
Proof. split; reflexivity. Qed.

Lemma callbacks_invoked_app (h1 h2 : list Event) :
  callbacks_invoked (h1 ++ h2) = callbacks_invoked h1 ++ callbacks_invoked h2.
Proof. apply omap_app. Qed.

(** X3: [RegisterGetCallback] with a callback that is true in a boolean
    context (a function object), followed by the arrival of a response
    that carries the id of the request: the loop body invokes the
    registered callback, and no other, exactly once with that response and
    removes the registration.  A second response with the same id is not
    given to the callback: it is stored in [ready_data]. *)
Theorem registered_callback_fires_once
    (request : string) (callback : Callable)
    (response response' : DataResponse) (w : World) :
  bool_of callback = true →
  _in_shutdown (self w) = false →
  0 ≤ _req_id (self w) ≤ INT32_MAX →
  resp_req_id response = successor_id (_req_id (self w)) →
  resp_req_id response' = successor_id (_req_id (self w)) →
  let i := successor_id (_req_id (self w)) in
  let w1 := snd (RegisterGetCallback request callback w) in
  let w2 := snd (handle_response response w1) in
  let w3 := snd (handle_response response' w2) in
  (∃ logged,
     history w2
     = history w1 ++ EvCallback (call_of callback) response :: logged
     ∧ callbacks_invoked logged = [])
  ∧ callbacks_invoked (history w2) = callbacks_invoked (history w) ++ [response]
  ∧ asyncio_waiting_data (self w2) = delete i (asyncio_waiting_data (self w))
  ∧ ready_data (self w2) = ready_data (self w)
  ∧ callbacks_invoked (history w3) = callbacks_invoked (history w2)
  ∧ ready_data (self w3) !! i = Some response'
  ∧ asyncio_waiting_data (self w3) = asyncio_waiting_data (self w2).
Proof.
  intros Htrue Hup Hrange Hid Hid'. cbv zeta.
  pose proof (successor_id_range _ Hrange) as Hi.
  unfold RegisterGetCallback.
  rewrite _async_send_run by (done || lia).
  unfold registered. rewrite Htrue.
  cbn [snd].
  set (i := successor_id (_req_id (self w))) in *.
  set (w1 := {| self := _; history := _ |}).
  assert (Hcb : asyncio_waiting_data (self w1) !! resp_req_id response
                = Some (call_of callback)).
  { rewrite Hid. cbn. apply lookup_insert_eq. }
  assert (Hpop : popped (resp_req_id response) (self w1)
                 = set_asyncio_waiting_data
                     (delete i (asyncio_waiting_data (self w))) (self w1)).
  { unfold popped. rewrite Hid. cbn. by rewrite delete_insert_eq. }
  assert (H2 : ∃ logged,
    history (snd (handle_response response w1))
    = history w1 ++ EvCallback (call_of callback) response :: logged
    ∧ callbacks_invoked logged = []
    ∧ self (snd (handle_response response w1))
      = popped (resp_req_id response) (self w1)).
  { rewrite (handle_response_callback _ _ (call_of callback))
      by (done || lia).
    destruct (call_of callback response) as [|e];
      [|destruct (is_Exception e)]; cbn;
      eexists; (split; [reflexivity|]); done. }
  destruct H2 as (logged & Hh2 & Hlogged & Hs2).
  set (w2 := snd (handle_response response w1)) in *.
  assert (Hnone : asyncio_waiting_data (self w2) !! resp_req_id response'
                  = None).
  { rewrite Hs2, Hpop, Hid'. cbn. apply lookup_delete_eq. }
  rewrite (handle_response_ready response' w2) by (done || lia).
  split; [by exists logged|].
  split.
  { rewrite Hh2. unfold w1. cbn [history].
    rewrite !callbacks_invoked_app. cbn.
    unfold callbacks_invoked in Hlogged |- *. cbn. rewrite Hlogged.
    by rewrite app_nil_r. }
  split; [by rewrite Hs2, Hpop|].
  split; [by rewrite Hs2, Hpop|].
  split.
  { cbn. rewrite callbacks_invoked_app. cbn. by rewrite app_nil_r. }
  split; [|done].
  cbn. rewrite Hid'. apply lookup_insert_eq.
Qed.

Lemma registered_callback_fires_once_witness :
  let response := mkDataResponse 1 (get "obj") in
  let response' := mkDataResponse 1 (get "again") in
  let w1 := snd (RegisterGetCallback "ref" (function failing_callback)
                   fresh) in
  let w2 := snd (handle_response response w1) in
  let w3 := snd (handle_response response' w2) in
  (∃ logged,
     history w2 = history w1 ++ EvCallback failing_callback response :: logged
     ∧ callbacks_invoked logged = [])
  ∧ callbacks_invoked (history w2)
    = callbacks_invoked (history fresh) ++ [response]
  ∧ asyncio_waiting_data (self w2)
    = delete (successor_id (_req_id (self fresh)))
        (asyncio_waiting_data (self fresh))
  ∧ ready_data (self w2) = ready_data (self fresh)
  ∧ callbacks_invoked (history w3) = callbacks_invoked (history w2)
  ∧ ready_data (self w3) !! successor_id (_req_id (self fresh))
    = Some response'
  ∧ asyncio_waiting_data (self w3) = asyncio_waiting_data (self w2).
Proof.
  cbv zeta.
  apply (registered_callback_fires_once "ref" (function failing_callback)
           (mkDataResponse 1 (get "obj")) (mkDataResponse 1 (get "again"))
           fresh).
  - reflexivity.
  - reflexivity.
  - vm_compute. split; discriminate.
  - reflexivity.
  - reflexivity.
Defined.

(** X4: a request sent without a callback ([ReleaseObject]) leaves no
    registration behind, so a response that carries its id is not dropped:
    the loop body stores it in [ready_data] under that id and notifies the
    waiters, and no callback is invoked. *)
Theorem response_to_release_is_stored
    (request : string) (response : DataResponse) (w : World) :
  _in_shutdown (self w) = false →
  0 ≤ _req_id (self w) ≤ INT32_MAX →
  resp_req_id response = successor_id (_req_id (self w)) →
  asyncio_waiting_data (self w) !! resp_req_id response = None →
  let w1 := snd (ReleaseObject request w) in
  handle_response response w1 = (Return tt, after_ready response w1)
  ∧ ready_data (self (after_ready response w1)) !! resp_req_id response
    = Some response
  ∧ callbacks_invoked (history (after_ready response w1))
    = callbacks_invoked (history w)
  ∧ asyncio_waiting_data (self (after_ready response w1))
    = asyncio_waiting_data (self w).
Proof.
  intros Hup Hrange Hid Hnone. cbv zeta.
  pose proof (successor_id_range _ Hrange) as Hi.
  unfold ReleaseObject. rewrite _async_send_run by (done || lia).
  cbn [snd].
  rewrite handle_response_ready by (done || lia).
  split; [done|]. split; [apply lookup_insert_eq|].
  split; [|done].
  cbn. rewrite !callbacks_invoked_app. cbn. by rewrite !app_nil_r.
Qed.

Lemma response_to_release_is_stored_witness :
  let response := mkDataResponse 1 (release "ok") in
  let w1 := snd (ReleaseObject "ref" fresh) in
  handle_response response w1 = (Return tt, after_ready response w1)
  ∧ ready_data (self (after_ready response w1)) !! resp_req_id response
    = Some response
  ∧ callbacks_invoked (history (after_ready response w1))
    = callbacks_invoked (history fresh)
  ∧ asyncio_waiting_data (self (after_ready response w1))
    = asyncio_waiting_data (self fresh).
Proof.
  cbv zeta.
  apply (response_to_release_is_stored "ref"
           (mkDataResponse 1 (release "ok")) fresh).
  - reflexivity.
  - vm_compute. split; discriminate.
  - reflexivity.
  - reflexivity.
Defined.

(** ** The blocking path, end to end *)

(** X5: the three parts of a blocking exchange, one after the other.  The
    caller dispatches its request; the loop body handles a response that
    carries the id of the request, for which no callback is registered;
    the caller's [with self.cv] block then returns exactly that response.
    Afterwards the request is the last item of the queue and [ready_data]
    is what it was before the exchange, without any entry under the id. *)
Theorem blocking_exchange_round_trip
    (req : DataRequest) (response : DataResponse) (w : World) :
  _in_shutdown (self w) = false →
  0 ≤ _req_id (self w) ≤ INT32_MAX →
  resp_req_id response = successor_id (_req_id (self w)) →
  asyncio_waiting_data (self w) !! resp_req_id response = None →
  let i := successor_id (_req_id (self w)) in
  ∃ w1 w3,
    _blocking_send_dispatch req w = (Return (set_req_id req i, i), w1)
    ∧ _blocking_send_wait (set_req_id req i) i
        (snd (handle_response response w1))
      = (Return response, w3)
    ∧ request_queue (self w3)
      = request_queue (self w) ++ [Some (set_req_id req i)]
    ∧ ready_data (self w3) = delete i (ready_data (self w))
    ∧ asyncio_waiting_data (self w3) = asyncio_waiting_data (self w)
    ∧ callbacks_invoked (history w3) = callbacks_invoked (history w).
Proof.
  intros Hup Hrange Hid Hnone. cbv zeta.
  pose proof (successor_id_range _ Hrange) as Hi.
  rewrite _blocking_send_dispatch_run by (done || lia).
  eexists _, _. split; [reflexivity|].
  rewrite handle_response_ready by (done || lia). cbn [snd].
  rewrite (_blocking_send_wait_ready _ _ _ response);
    [|done|cbn; rewrite Hid; apply lookup_insert_eq].
  split; [reflexivity|]. cbn.
  split; [done|]. split; [by rewrite Hid, delete_insert_eq|].
  split; [done|].
  rewrite !callbacks_invoked_app. cbn. by rewrite !app_nil_r.
Qed.

Lemma blocking_exchange_round_trip_witness :
  let req := new_DataRequest (get "ref") in
  let response := mkDataResponse 1 (get "obj") in
  ∃ w1 w3,
    _blocking_send_dispatch req fresh = (Return (set_req_id req 1, 1), w1)
    ∧ _blocking_send_wait (set_req_id req 1) 1
        (snd (handle_response response w1))
      = (Return response, w3)
    ∧ request_queue (self w3)
      = request_queue (self fresh) ++ [Some (set_req_id req 1)]
    ∧ ready_data (self w3) = delete 1 (ready_data (self fresh))
    ∧ asyncio_waiting_data (self w3) = asyncio_waiting_data (self fresh)
    ∧ callbacks_invoked (history w3) = callbacks_invoked (history fresh).
Proof.
  cbv zeta.
  apply (blocking_exchange_round_trip (new_DataRequest (get "ref"))
           (mkDataResponse 1 (get "obj")) fresh).
  - reflexivity.
  - vm_compute. split; discriminate.
  - reflexivity.
  - reflexivity.
Defined.

(** X6: a response that arrives just before the stream breaks is not
    delivered.  The caller has dispatched its request, the loop body has
    stored the response for it, and then the iteration raises
    [grpc.RpcError]: the caller's [with self.cv] block finds [_in_shutdown]
    set and raises [ConnectionError] (line 139 is tested before
    [ready_data] is read), and the response stays in [ready_data]. *)
Theorem ready_response_lost_on_shutdown
    (req : DataRequest) (response : DataResponse)
    (code : grpc.StatusCode) (w : World) :
  _in_shutdown (self w) = false →
  0 ≤ _req_id (self w) ≤ INT32_MAX →
  resp_req_id response = successor_id (_req_id (self w)) →
  asyncio_waiting_data (self w) !! resp_req_id response = None →
  let i := successor_id (_req_id (self w)) in
  let w1 := snd (_blocking_send_dispatch req w) in
  let w2 := snd (_data_main [response] (StreamRaises (RpcError code)) w1) in
  ready_data (self w2) !! i = Some response
  ∧ ∃ w3,
      _blocking_send_wait (set_req_id req i) i w2
      = (Raise (ConnectionError (msg_send_failed (set_req_id req i))), w3)
      ∧ ready_data (self w3) !! i = Some response.
Proof.
  intros Hup Hrange Hid Hnone. cbv zeta.
  pose proof (successor_id_range _ Hrange) as Hi.
  rewrite _blocking_send_dispatch_run by (done || lia). cbn [snd].
  unfold _data_main, try_except_RpcError. cbn [for_response_in].
  rewrite bind_run.
  rewrite handle_response_ready by (done || lia).
  unfold raise. rewrite on_RpcError_run. cbn [snd].
  split; [cbn; rewrite Hid; apply lookup_insert_eq|].
  eexists. split; [by apply _blocking_send_wait_shutdown|].
  cbn. rewrite Hid. apply lookup_insert_eq.
Qed.

Lemma ready_response_lost_on_shutdown_witness :
  let req := new_DataRequest (get "ref") in
  let response := mkDataResponse 1 (get "obj") in
  let w1 := snd (_blocking_send_dispatch req fresh) in
  let w2 := snd (_data_main [response]
                   (StreamRaises (RpcError grpc.UNAVAILABLE)) w1) in
  ready_data (self w2) !! successor_id (_req_id (self fresh)) = Some response
  ∧ ∃ w3,
      _blocking_send_wait
        (set_req_id req (successor_id (_req_id (self fresh))))
        (successor_id (_req_id (self fresh))) w2
      = (Raise (ConnectionError
                  (msg_send_failed
                     (set_req_id req (successor_id (_req_id (self fresh)))))),
         w3)
      ∧ ready_data (self w3) !! successor_id (_req_id (self fresh))
        = Some response.
Proof.
  cbv zeta.
  apply (ready_response_lost_on_shutdown (new_DataRequest (get "ref"))
           (mkDataResponse 1 (get "obj")) grpc.UNAVAILABLE fresh).
  - reflexivity.
  - vm_compute. split; discriminate.
  - reflexivity.
  - reflexivity.
Defined.

(** ** What the read loop leaves alone *)

Lemma loop_frame_refl (rs : list DataResponse) (w : World) :
  loop_frame rs w w.
Proof.
  repeat (split; [done|]). split.
  - exists []. rewrite app_nil_r. split; [done|].
    split; [apply sublist_nil_l|constructor].
  - split; [auto|done].
Qed.

Lemma loop_frame_trans (rs1 rs2 : list DataResponse) (w w1 w2 : World) :
  loop_frame rs1 w w1 → loop_frame rs2 w1 w2 →
  loop_frame (rs1 ++ rs2) w w2.
Proof.
  intros (Hc & Hq & Hk & Hd & Ha & (l1 & Hl1 & Hs1 & Hz1) & Hr & Hh)
         (Hc' & Hq' & Hk' & Hd' & Ha' & (l2 & Hl2 & Hs2 & Hz2) & Hr' & Hh').
  split; [congruence|]. split; [congruence|]. split; [congruence|].
  split; [congruence|]. split; [by etrans|]. split; [|split].
  - exists (l1 ++ l2). rewrite Hl2, Hl1, app_assoc.
    split; [done|]. split; [by apply sublist_app|by apply Forall_app].
  - intros k v Hv. destruct (Hr' _ _ Hv) as [Hv1|(Hin & Hkey & Hnz)].
    + destruct (Hr _ _ Hv1) as [Hv0|(Hin & Hkey & Hnz)]; [by left|].
      right. split; [|done]. apply elem_of_app. by left.
    + right. split; [|done]. apply elem_of_app. by right.
  - by etrans.
Qed.

Lemma handle_response_frame (response : DataResponse) (w : World) :
  loop_frame [response] w (snd (handle_response response w)).
Proof.
  assert (Hquiet : ∀ (s : DataClient) (added : list Event),
    callbacks_invoked added = [] →
    _req_id s = _req_id (self w) →
    request_queue s = request_queue (self w) →
    stop_keepalive s = stop_keepalive (self w) →
    _in_shutdown s = _in_shutdown (self w) →
    asyncio_waiting_data s = asyncio_waiting_data (self w) →
    (ready_data s = ready_data (self w)
     ∨ (resp_req_id response ≠ 0
        ∧ ready_data s
          = <[resp_req_id response := response]> (ready_data (self w)))) →
    loop_frame [response] w {| self := s; history := history w ++ added |}).
  { intros s added Hadded Hc Hq Hk Hd Ha Hr.
    unfold loop_frame. cbn [self history].
    repeat (split; [done|]). split; [by rewrite Ha|]. split; [|split].
    - exists []. rewrite callbacks_invoked_app, Hadded.
      split; [done|]. split; [apply sublist_nil_l|constructor].
    - intros k v Hv. destruct Hr as [Hr|[Hnz Hr]]; rewrite Hr in Hv;
        [by left|].
      apply lookup_insert_Some in Hv as [[<- <-]|[_ Hv]]; [|by left].
      right. split; [|done]. by apply list_elem_of_singleton.
    - by apply prefix_app_r. }
  destruct (Z.eq_dec (resp_req_id response) 0) as [Hz|Hnz].
  { rewrite handle_response_unawaited by done. apply Hquiet; auto. }
  destruct (asyncio_waiting_data (self w) !! resp_req_id response)
    as [callback|] eqn:Hcb.
  - rewrite (handle_response_callback _ _ callback) by done.
    assert (Hgen : ∀ (r : Outcome unit) (logged : list Event),
      callbacks_invoked logged = [] →
      loop_frame [response] w
        (snd (r, {| self := popped (resp_req_id response) (self w);
                    history := history w
                               ++ EvCallback callback response :: logged |}))).
    { intros r logged Hlogged. unfold loop_frame. cbn [snd self history].
      repeat (split; [done|]). split; [apply delete_subseteq|].
      split; [|split; [auto|by apply prefix_app_r]].
      exists [response]. rewrite callbacks_invoked_app.
      change (callbacks_invoked (EvCallback callback response :: logged))
        with (response :: callbacks_invoked logged).
      rewrite Hlogged.
      split; [done|]. split; [done|]. by constructor. }
    destruct (callback response) as [|e]; [|destruct (is_Exception e)];
      by apply Hgen.
  - rewrite handle_response_ready by done. apply Hquiet; auto.
Qed.

Lemma for_response_in_frame (rs : list DataResponse) (fin : StreamEnd) :
  ∀ w : World, loop_frame rs w (snd (for_response_in rs fin w)).
Proof.
  induction rs as [|response rest IH]; intros w.
  - cbn. destruct fin; apply loop_frame_refl.
  - cbn [for_response_in]. rewrite bind_run.
    pose proof (handle_response_frame response w) as Hbody.
    destruct (handle_response response w) as [[[]|e|] w1]; cbn [snd] in *.
    + apply (loop_frame_trans [response] rest w w1); [done|apply IH].
    + apply (loop_frame_trans [response] rest w w1);
        [done|apply loop_frame_refl].
    + apply (loop_frame_trans [response] rest w w1);
        [done|apply loop_frame_refl].
Qed.

(** The iteration itself never blocks. *)
Lemma for_response_in_not_blocked (rs : list DataResponse) (fin : StreamEnd) :
  ∀ w : World, fst (for_response_in rs fin w) ≠ Blocks.
Proof.
  induction rs as [|response rest IH]; intros w.
  - cbn. by destruct fin.
  - cbn [for_response_in]. rewrite bind_run.
    pose proof (handle_response_outcome response w) as Hout.
    destruct (handle_response response w) as [[[]|e|] w1]; cbn in *.
    + apply IH.
    + done.
    + destruct Hout as [|(e & ? & _)]; discriminate.
Qed.

(** The iteration raises only what the stream raised at its end, or what a
    callback raised that is not an [Exception]. *)
Lemma for_response_in_raises (rs : list DataResponse) (fin : StreamEnd) :
  ∀ (w : World) (e : PyExc),
    fst (for_response_in rs fin w) = Raise e →
    fin = StreamRaises e ∨ is_Exception e = false.
Proof.
  induction rs as [|response rest IH]; intros w e.
  - cbn. destruct fin; cbn; [discriminate|]. intros [= ->]. by left.
  - cbn [for_response_in]. rewrite bind_run.
    pose proof (handle_response_outcome response w) as Hout.
    destruct (handle_response response w) as [[[]|e'|] w1]; cbn in *.
    + apply IH.
    + intros [= ->]. destruct Hout as [|(e0 & [= <-] & He)]; [done|].
      by right.
    + discriminate.
Qed.

(** X7: whatever the stream, [_data_main] ends (it does not block), and
    when it has ended the counter of ids, the request queue and the
    keepalive event are as before; registrations have only been removed;
    the callbacks invoked were invoked with responses of the stream of
    non-zero id, each response at most once and in the order of arrival;
    an entry added to [ready_data] is a response of the stream, stored
    under its own, non-zero id; and [_in_shutdown], once true, is still
    true. *)
Theorem data_main_footprint
    (rs : list DataResponse) (fin : StreamEnd) (w : World) :
  let w' := snd (_data_main rs fin w) in
  fst (_data_main rs fin w) ≠ Blocks
  ∧ _req_id (self w') = _req_id (self w)
  ∧ request_queue (self w') = request_queue (self w)
  ∧ stop_keepalive (self w') = stop_keepalive (self w)
  ∧ asyncio_waiting_data (self w') ⊆ asyncio_waiting_data (self w)
  ∧ (∃ l, callbacks_invoked (history w')
          = callbacks_invoked (history w) ++ l
          ∧ l `sublist_of` rs
          ∧ Forall (λ r, resp_req_id r ≠ 0) l)
  ∧ (∀ k v, ready_data (self w') !! k = Some v →
       ready_data (self w) !! k = Some v
       ∨ (v ∈ rs ∧ resp_req_id v = k ∧ k ≠ 0))
  ∧ (_in_shutdown (self w) = true → _in_shutdown (self w') = true).
Proof.
  cbv zeta. unfold _data_main, try_except_RpcError.
  pose proof (for_response_in_frame rs fin w)
    as (Hc & Hq & Hk & Hd & Ha & Hl & Hr & Hh).
  pose proof (for_response_in_not_blocked rs fin w) as Hnb.
  destruct (for_response_in rs fin w) as [[[]|e|] w1]; cbn [fst snd] in *;
    try (rewrite Hd; done).
  assert (Hother : ∀ r : Outcome unit * World,
    r = (Raise e, w1) →
    fst r ≠ Blocks
    ∧ _req_id (self (snd r)) = _req_id (self w)
    ∧ request_queue (self (snd r)) = request_queue (self w)
    ∧ stop_keepalive (self (snd r)) = stop_keepalive (self w)
    ∧ asyncio_waiting_data (self (snd r)) ⊆ asyncio_waiting_data (self w)
    ∧ (∃ l, callbacks_invoked (history (snd r))
            = callbacks_invoked (history w) ++ l
            ∧ l `sublist_of` rs
            ∧ Forall (λ r, resp_req_id r ≠ 0) l)
    ∧ (∀ k v, ready_data (self (snd r)) !! k = Some v →
         ready_data (self w) !! k = Some v
         ∨ (v ∈ rs ∧ resp_req_id v = k ∧ k ≠ 0))
    ∧ (_in_shutdown (self w) = true → _in_shutdown (self (snd r)) = true)).
  { intros r ->. cbn. rewrite Hd. done. }
  destruct e as [msg| |k|code|name|name]; try (by apply Hother).
  rewrite on_RpcError_run. cbn.
  split; [done|]. repeat (split; [done|]). split; [|done].
  destruct Hl as (l & Hl & Hsub & Hnz). exists l.
  rewrite callbacks_invoked_app, Hl.
  assert (Hnone : callbacks_invoked
            [EvAcquire cv; EvNotifyAll; EvRelease cv; termination_record code]
          = []) by (by destruct code).
  rewrite Hnone, app_nil_r. done.
Qed.

(** X8: a callback that raises something that is not an [Exception] (a
    [KeyboardInterrupt], a [SystemExit]) ends [_data_main]: the exception
    leaves the method, whatever the stream would have done next.  The
    registration has been popped, the responses that follow are not
    handled, and [_in_shutdown] is not set, so no waiter is notified. *)
Theorem callback_interrupt_ends_data_main
    (response : DataResponse) (rest : list DataResponse) (fin : StreamEnd)
    (w : World) (callback : ResponseCallable) (e : PyExc) :
  resp_req_id response ≠ 0 →
  asyncio_waiting_data (self w) !! resp_req_id response = Some callback →
  callback response = CbRaises e →
  is_Exception e = false →
  _data_main (response :: rest) fin w
  = (Raise e,
     {| self := popped (resp_req_id response) (self w);
        history := history w ++ [EvCallback callback response] |})
  ∧ _in_shutdown (self (snd (_data_main (response :: rest) fin w)))
    = _in_shutdown (self w)
  ∧ ready_data (self (snd (_data_main (response :: rest) fin w)))
    = ready_data (self w).
Proof.
  intros Hnz Hcb Hraise Hexc.
  assert (Hrun : _data_main (response :: rest) fin w
    = (Raise e,
       {| self := popped (resp_req_id response) (self w);
          history := history w ++ [EvCallback callback response] |})).
  { unfold _data_main, try_except_RpcError. cbn [for_response_in].
    rewrite bind_run, (handle_response_callback _ _ callback) by done.
    rewrite Hraise, Hexc. by destruct e. }
  rewrite Hrun. done.
Qed.

Lemma callback_interrupt_ends_data_main_witness :
  let response := mkDataResponse 2 (get "a") in
  let rest := [mkDataResponse 1 (get "b")] in
  let fin := StreamRaises (RpcError grpc.CANCELLED) in
  let e := BaseExceptionOnly "KeyboardInterrupt" in
  _data_main (response :: rest) fin two_callbacks
  = (Raise e,
     {| self := popped (resp_req_id response) (self two_callbacks);
        history := history two_callbacks
                   ++ [EvCallback interrupting_callback response] |})
  ∧ _in_shutdown (self (snd (_data_main (response :: rest) fin two_callbacks)))
    = _in_shutdown (self two_callbacks)
  ∧ ready_data (self (snd (_data_main (response :: rest) fin two_callbacks)))
    = ready_data (self two_callbacks).
Proof.
  cbv zeta.
  apply (callback_interrupt_ends_data_main (mkDataResponse 2 (get "a"))
           [mkDataResponse 1 (get "b")]
           (StreamRaises (RpcError grpc.CANCELLED)) two_callbacks
           interrupting_callback).
  - discriminate.
  - reflexivity.
  - reflexivity.
  - reflexivity.
Defined.

(** X9: [_data_main] sets [_in_shutdown] only in one way.  If the flag is
    false before and true after, then the iteration over the stream ended
    by raising [grpc.RpcError], and [_data_main] returned normally: an
    exhausted stream, another exception raised by the stream, or an
    exception of a callback never sets it. *)
Theorem shutdown_set_only_by_RpcError
    (rs : list DataResponse) (fin : StreamEnd) (w : World) :
  _in_shutdown (self w) = false →
  _in_shutdown (self (snd (_data_main rs fin w))) = true →
  (∃ code, fin = StreamRaises (RpcError code))
  ∧ fst (_data_main rs fin w) = Return tt.
Proof.
  intros Hup Hdown. unfold _data_main, try_except_RpcError in *.
  pose proof (for_response_in_frame rs fin w) as (_ & _ & _ & Hd & _).
  pose proof (for_response_in_raises rs fin w) as Hraises.
  destruct (for_response_in rs fin w) as [[[]|e|] w1]; cbn [fst snd] in *;
    try congruence.
  destruct e as [msg| |k|code|name|name]; cbn [snd] in Hdown; try congruence.
  destruct (Hraises _ eq_refl) as [->|?]; [|done].
  rewrite on_RpcError_run. eauto.
Qed.

Lemma shutdown_set_only_by_RpcError_witness :
  (∃ code, StreamRaises (RpcError grpc.INTERNAL)
           = StreamRaises (RpcError code))
  ∧ fst (_data_main [mkDataResponse 0 (release "x")]
           (StreamRaises (RpcError grpc.INTERNAL)) fresh)
    = Return tt.
Proof.
  apply (shutdown_set_only_by_RpcError [mkDataResponse 0 (release "x")]
           (StreamRaises (RpcError grpc.INTERNAL)) fresh).
  - reflexivity.
  - reflexivity.
Defined.

(** ** More about the steps of the system *)

(** What a step of a call does to the shutdown flag and to the request
    queue, and when it can raise. *)
Lemma call_step_footprint (b : bool) (c c' : Call) (r : Outcome Call)
    (w w' : World) :
  call_step b c w = (r, w') →
  next_point r = Some c' →
  _in_shutdown (self w') = _in_shutdown (self w)
  ∧ (request_queue (self w') = request_queue (self w)
     ∨ (c = close_L116
        ∧ request_queue (self w') = request_queue (self w) ++ [None])
     ∨ (∃ req i,
          (c = blocking_L134 req i ∨ c = async_L166 req i)
          ∧ request_queue (self w')
            = request_queue (self w) ++ [Some req]))
  ∧ (∀ e, c' = raised e →
       (_in_shutdown (self w) = true
        ∧ e = ConnectionError
                match c with
                | blocking_L136 req _ => msg_send_failed req
                | _ => msg_not_sent
                end)
       ∨ _req_id (self w) = -1).
Proof.
  intros Hstep Hnext.
  assert (Hid : ∀ w1 ro, _next_id w = (ro, w1) →
    _in_shutdown (self w1) = _in_shutdown (self w)
    ∧ request_queue (self w1) = request_queue (self w)
    ∧ (∀ e, ro = Raise e → _req_id (self w) = -1)).
  { intros w1 ro Hrun. destruct (_next_id_frame w) as [i Hi].
    rewrite Hrun in Hi. cbn in Hi. rewrite Hi. split; [done|].
    split; [done|]. intros e ->.
    destruct (Z.eq_dec (_req_id (self w)) (-1)) as [|Hne]; [done|].
    rewrite (_next_id_run w Hne) in Hrun. discriminate. }
  destruct c as [req|req|req rid|req rid|req cb|req cb|req rid cb|req rid
                | | | | |v|e0]; cbn [call_step] in Hstep.
  - revert Hstep. run_M. destruct (_in_shutdown (self w)) eqn:Hd;
      intros [= <- <-]; cbn in Hnext; simplify_eq; cbn;
      (split; [done|]); (split; [by left|]); intros e He; simplify_eq.
    left. done.
  - rewrite bind_run in Hstep.
    destruct (_next_id w) as [ro w1] eqn:Hrun.
    destruct (Hid _ _ eq_refl) as (Hd & Hq & Hr).
    destruct ro as [j|e1|]; unfold ret in Hstep; simplify_eq;
      cbn in Hnext; simplify_eq.
    + split; [done|]. split; [by left|]. intros e He. discriminate.
    + split; [done|]. split; [by left|]. intros e He. right. eauto.
  - revert Hstep. run_M. intros [= <- <-]. cbn in Hnext. simplify_eq. cbn.
    split; [done|]. split; [right; right; eauto|]. intros e He. discriminate.
  - rewrite bind_run in Hstep.
    destruct (_in_shutdown (self w)) eqn:Hdown.
    { rewrite _blocking_send_wait_shutdown in Hstep by done.
      simplify_eq. cbn in Hnext. simplify_eq. cbn.
      split; [done|]. split; [by left|]. intros e [= <-]. by left. }
    destruct (ready_data (self w) !! rid) as [d|] eqn:Hd.
    + rewrite (_blocking_send_wait_ready _ _ _ d) in Hstep by done.
      unfold ret in Hstep. simplify_eq. cbn in Hnext. simplify_eq. cbn.
      split; [done|]. split; [by left|]. intros e He. discriminate.
    + rewrite _blocking_send_wait_blocks in Hstep by done.
      by simplify_eq.
  - revert Hstep. run_M. destruct (_in_shutdown (self w)) eqn:Hd;
      intros [= <- <-]; cbn in Hnext; simplify_eq; cbn;
      (split; [done|]); (split; [by left|]); intros e He; simplify_eq.
    left. done.
  - rewrite bind_run in Hstep.
    destruct (_next_id w) as [ro w1] eqn:Hrun.
    destruct (Hid _ _ eq_refl) as (Hd & Hq & Hr).
    destruct ro as [j|e1|]; unfold ret in Hstep; simplify_eq;
      cbn in Hnext; simplify_eq.
    + split; [done|]. split; [by left|]. intros e He. discriminate.
    + split; [done|]. split; [by left|]. intros e He. right. eauto.
  - revert Hstep. unfold _async_send_register.
    destruct cb as [[[] f]|]; run_M; intros [= <- <-]; cbn in Hnext; simplify_eq; cbn;
      (split; [done|]); (split; [by left|]); intros e He; discriminate.
  - revert Hstep. run_M. intros [= <- <-]. cbn in Hnext. simplify_eq. cbn.
    split; [done|]. split; [right; right; eauto|]. intros e He. discriminate.
  - revert Hstep. run_M. intros [= <- <-]. cbn in Hnext. simplify_eq. cbn.
    split; [done|]. split; [by left|]. intros e He. discriminate.
  - revert Hstep. run_M. intros [= <- <-]. cbn in Hnext. simplify_eq. cbn.
    split; [done|]. split; [right; left; done|]. intros e He. discriminate.
  - revert Hstep. destruct b; run_M; intros [= <- <-];
      cbn in Hnext; simplify_eq; cbn.
    split; [done|]. split; [by left|]. intros e He. discriminate.
  - revert Hstep. run_M. intros [= <- <-]. cbn in Hnext. simplify_eq. cbn.
    split; [done|]. split; [by left|]. intros e He. discriminate.
  - unfold blocks in Hstep. by simplify_eq.
  - unfold blocks in Hstep. by simplify_eq.
Qed.

(** What a step of the data thread does to the object. *)
Lemma data_thread_step_frame (t t' : DataThread) (w w' : World) :
  data_thread_step t w = Some (t', w') →
  request_queue (self w') = request_queue (self w)
  ∧ (_in_shutdown (self w') = _in_shutdown (self w)
     ∨ (_in_shutdown (self w') = true
        ∧ ∃ code, t = iterating [] (StreamRaises (RpcError code))))
  ∧ (∀ k v, ready_data (self w') !! k = Some v →
       ready_data (self w) !! k = Some v
       ∨ (resp_req_id v = k ∧ k ≠ 0))
  ∧ match t' with
    | iterating _ fin' => ∃ rest, t = iterating rest fin'
    | finished _ => True
    end.
Proof.
  intros Hstep.
  assert (Hend : ∀ e w1,
    (∀ code, e ≠ RpcError code) →
    _data_main [] (StreamRaises e) w1 = (Raise e, w1)).
  { intros e w1 He. unfold _data_main, try_except_RpcError. cbn.
    unfold raise. destruct e; try done. by destruct (He code). }
  destruct t as [[|response rest] fin|r]; cbn [data_thread_step] in Hstep.
  - destruct fin as [|e].
    + cbn in Hstep. simplify_eq. split; [done|]. split; [by left|].
      split; [auto|done].
    + destruct (_data_main [] (StreamRaises e) w) as [r w1] eqn:Hrun.
      simplify_eq.
      destruct e as [msg| |k|code|name|name];
        try (rewrite Hend in Hrun by done; simplify_eq;
             split; [done|]; split; [by left|]; split; [auto|done]).
      unfold _data_main, try_except_RpcError in Hrun.
      cbn [for_response_in] in Hrun.
      unfold raise in Hrun. rewrite on_RpcError_run in Hrun. simplify_eq.
      cbn. split; [done|]. split; [right; eauto|]. split; [auto|done].
  - pose proof (handle_response_frame response w)
      as (_ & Hq & _ & Hd & _ & _ & Hr & _).
    pose proof (handle_response_outcome response w) as Hout.
    assert (Hkeys : ∀ k v,
      ready_data (self (snd (handle_response response w))) !! k = Some v →
      ready_data (self w) !! k = Some v ∨ (resp_req_id v = k ∧ k ≠ 0)).
    { intros k v Hv. destruct (Hr _ _ Hv) as [|(_ & ? & ?)]; auto. }
    destruct (handle_response response w) as [[[]|e|] w1]; cbn [fst snd] in *.
    + simplify_eq. split; [done|]. split; [by left|]. split; [done|]. eauto.
    + destruct Hout as [|(e0 & [= <-] & He)]; [done|].
      rewrite Hend in Hstep by (by destruct e). simplify_eq.
      split; [done|]. split; [by left|]. done.
    + discriminate.
  - discriminate.
Qed.

(** ** The shutdown flag in the running system *)

Lemma step_in_shutdown (s s' : System) :
  step s s' →
  _in_shutdown (self (world s)) = true →
  _in_shutdown (self (world s')) = true.
Proof.
  intros Hstep Hdown.
  destruct Hstep as [s i c c' r w' Hc Hrun Hnext|s t' w' Hrun
                    |s req queue Hopen Hq|s queue Hopen Hq]; cbn; try done.
  - destruct (call_step_footprint _ _ _ _ _ _ Hrun Hnext) as (-> & _). done.
  - destruct (data_thread_step_frame _ _ _ _ Hrun) as (_ & [->|[-> _]] & _);
      done.
Qed.

(** X10: the shutdown flag is a latch.  Once [_in_shutdown] is true it is
    true in every later state of the system, whatever the callers, the
    data thread and the outbound stream do; so from then on every
    [_blocking_send] and every [_async_send] is refused with
    [ConnectionError]. *)
Theorem shutdown_is_latched (s s' : System) :
  _in_shutdown (self (world s)) = true →
  rtc step s s' →
  _in_shutdown (self (world s')) = true
  ∧ (∀ req, fst (_blocking_send req (world s'))
            = Raise (ConnectionError msg_not_sent))
  ∧ (∀ req callback, fst (_async_send req callback (world s'))
                     = Raise (ConnectionError msg_not_sent)).
Proof.
  intros Hdown Hreach.
  assert (Hdown' : _in_shutdown (self (world s')) = true).
  { revert s' Hreach. apply rtc_ind_r; [done|].
    intros s1 s2 _ Hstep IH. by apply (step_in_shutdown s1). }
  split; [done|]. split.
  - intros req. unfold _blocking_send, _blocking_send_dispatch.
    run_M. by rewrite Hdown'.
  - intros req callback. unfold _async_send. run_M. by rewrite Hdown'.
Qed.

Lemma shutdown_is_latched_witness :
  let s := {| world := shut_down;
              calls := [close_L114; async_L154 (new_DataRequest (get "a")) None];
              data := finished (Return tt);
              wire := []; outbound_open := true |} in
  let s' := state_after [turn_call 0; turn_call 0; turn_outbound; turn_call 1]
              s in
  _in_shutdown (self (world s')) = true
  ∧ (∀ req, fst (_blocking_send req (world s'))
            = Raise (ConnectionError msg_not_sent))
  ∧ (∀ req callback, fst (_async_send req callback (world s'))
                     = Raise (ConnectionError msg_not_sent)).
Proof.
  cbv zeta.
  apply (shutdown_is_latched
           {| world := shut_down;
              calls := [close_L114;
                        async_L154 (new_DataRequest (get "a")) None];
              data := finished (Return tt);
              wire := []; outbound_open := true |}).
  - reflexivity.
  - apply state_after_reaches.
Defined.

(** ** A stream that ends without an error *)

Lemma step_clean (s s' : System) :
  step s s' →
  well_formed s →
  _in_shutdown (self (world s)) = false →
  ends_cleanly (data s) →
  (∀ i e, calls s !! i ≠ Some (raised e)) →
  _in_shutdown (self (world s')) = false
  ∧ ends_cleanly (data s')
  ∧ ∀ i e, calls s' !! i ≠ Some (raised e).
Proof.
  intros Hstep [Hrange _] Hup Hclean Hnone.
  destruct Hstep as [s i c c' r w' Hc Hrun Hnext|s t' w' Hrun
                    |s req queue Hopen Hq|s queue Hopen Hq]; cbn; try done.
  - destruct (call_step_footprint _ _ _ _ _ _ Hrun Hnext)
      as (Hd & _ & Hraise).
    split; [congruence|]. split; [done|].
    intros j e Hj.
    apply list_lookup_insert_Some in Hj as [(_ & -> & _)|[_ Hj]];
      [|by apply Hnone in Hj].
    destruct (Hraise e eq_refl) as [[? _]|?]; [congruence|lia].
  - destruct (data_thread_step_frame _ _ _ _ Hrun)
      as (_ & Hd & _ & Hfin).
    split; [|split; [|done]].
    + destruct Hd as [->|[_ [code Heq]]]; [done|].
      rewrite Heq in Hclean. discriminate Hclean.
    + destruct t' as [rest' fin'|r]; [|done].
      destruct Hfin as [rest Heq]. rewrite Heq in Hclean. exact Hclean.
Qed.

(** X11: when the response stream ends without raising, the client never
    shuts down.  In every state the system reaches from its construction,
    [_in_shutdown] is false and no call has raised an exception, whatever
    the responses and whatever the callbacks do. *)
Theorem clean_stream_never_shuts_down (s0 s : System) :
  initial s0 →
  ends_cleanly (data s0) →
  rtc step s0 s →
  _in_shutdown (self (world s)) = false
  ∧ ∀ i e, calls s !! i ≠ Some (raised e).
Proof.
  intros Hinit Hclean Hreach.
  assert (Hinv : well_formed s
                 ∧ _in_shutdown (self (world s)) = false
                 ∧ ends_cleanly (data s)
                 ∧ ∀ i e, calls s !! i ≠ Some (raised e)).
  { revert s Hreach. apply rtc_ind_r.
    - split; [by apply initial_well_formed|].
      destruct Hinit as (Hw & Hentry & _). rewrite Hw.
      split; [done|]. split; [done|].
      intros i e Hc. rewrite Forall_lookup in Hentry.
      by apply Hentry in Hc.
    - intros s1 s2 _ Hstep (Hwf & Hup & Hcl & Hnone).
      split; [by apply (step_well_formed s1)|].
      by apply (step_clean s1). }
  destruct Hinv as (_ & Hup & _ & Hnone). done.
Qed.

Lemma clean_stream_never_shuts_down_witness :
  let s := state_after
             [turn_call 0; turn_call 1; turn_call 0; turn_data; turn_data;
              turn_call 1; turn_call 0; turn_call 1; turn_call 0]
             two_blocking_calls in
  _in_shutdown (self (world s)) = false
  ∧ ∀ i e, calls s !! i ≠ Some (raised e).
Proof.
  cbv zeta.
  apply (clean_stream_never_shuts_down two_blocking_calls).
  - repeat split; [repeat constructor|by eexists _, _].
  - reflexivity.
  - apply state_after_reaches.
Defined.

(** The state the interleaving of the witness leads to: the first call has
    returned, the data thread has finished, and the second call is in its
    [with self.cv] block. *)
Example two_blocking_calls_end :
  let s := state_after
             [turn_call 0; turn_call 1; turn_call 0; turn_data; turn_data;
              turn_call 1; turn_call 0; turn_call 1; turn_call 0]
             two_blocking_calls in
  calls s = [returned (Some (mkDataResponse 1 (get "obj")));
             blocking_L136 (mkDataRequest 2 (put "b")) 2]
  ∧ data s = finished (Return tt).
Proof. split; reflexivity. Qed.

(** ** Waiting for ever *)

Lemma step_waiting (s s' : System) (i : nat) (req : DataRequest) (rid : Z) :
  step s s' →
  data_thread_finished (data s) = true →
  _in_shutdown (self (world s)) = false →
  calls s !! i = Some (blocking_L136 req rid) →
  ready_data (self (world s)) !! rid = None →
  data_thread_finished (data s') = true
  ∧ _in_shutdown (self (world s')) = false
  ∧ calls s' !! i = Some (blocking_L136 req rid)
  ∧ ready_data (self (world s')) !! rid = None.
Proof.
  intros Hstep Hfin Hup Hc Hnone.
  destruct Hstep as [s j c c' r w' Hcj Hrun Hnext|s t' w' Hrun
                    |s rq queue Hopen Hq|s queue Hopen Hq]; cbn; try done.
  - destruct (decide (j = i)) as [->|Hne].
    { rewrite Hc in Hcj. simplify_eq. cbn [call_step] in Hrun.
      rewrite bind_run, _blocking_send_wait_blocks in Hrun by done.
      by simplify_eq. }
    destruct (call_step_footprint _ _ _ _ _ _ Hrun Hnext) as (Hd & _).
    split; [done|]. split; [congruence|].
    split; [by rewrite list_lookup_insert_ne|].
    destruct (call_step_ready_data _ _ _ _ _ _ Hrun Hnext)
      as [[-> _]|(_ & k & _ & _ & _ & _ & _ & ->)]; [done|].
    apply lookup_delete_None. by right.
  - exfalso. revert Hfin Hrun. by destruct (data s) as [rest fin|r].
Qed.

(** X12: a blocking call can wait for ever.  When the data thread has
    ended and [_in_shutdown] is false (the stream was exhausted without an
    error, or a callback ended the thread), a blocking call that is in its
    [with self.cv] block with no response under its id in [ready_data] is
    still there in every later state: no step of the system lets it return
    or raise. *)
Theorem blocking_call_waits_forever
    (s s' : System) (i : nat) (req : DataRequest) (rid : Z) :
  data_thread_finished (data s) = true →
  _in_shutdown (self (world s)) = false →
  calls s !! i = Some (blocking_L136 req rid) →
  ready_data (self (world s)) !! rid = None →
  rtc step s s' →
  calls s' !! i = Some (blocking_L136 req rid)
  ∧ schedule (turn_call i) s' = None.
Proof.
  intros Hfin Hup Hc Hnone Hreach.
  assert (Hinv : data_thread_finished (data s') = true
                 ∧ _in_shutdown (self (world s')) = false
                 ∧ calls s' !! i = Some (blocking_L136 req rid)
                 ∧ ready_data (self (world s')) !! rid = None).
  { revert s' Hreach. apply rtc_ind_r; [done|].
    intros s1 s2 _ Hstep (H1 & H2 & H3 & H4). by apply (step_waiting s1). }
  destruct Hinv as (_ & Hup' & Hc' & Hnone').
  split; [done|].
  cbn [schedule]. rewrite Hc'. cbn [call_step].
  rewrite bind_run, _blocking_send_wait_blocks by done. reflexivity.
Qed.

Lemma blocking_call_waits_forever_witness :
  let s := state_after
             [turn_call 0; turn_call 1; turn_call 0; turn_data; turn_data;
              turn_call 1; turn_call 0; turn_call 1; turn_call 0]
             two_blocking_calls in
  let s' := state_after [turn_outbound; turn_outbound] s in
  calls s' !! 1%nat = Some (blocking_L136 (mkDataRequest 2 (put "b")) 2)
  ∧ schedule (turn_call 1) s' = None.
Proof.
  cbv zeta.
  apply (blocking_call_waits_forever
           (state_after
              [turn_call 0; turn_call 1; turn_call 0; turn_data; turn_data;
               turn_call 1; turn_call 0; turn_call 1; turn_call 0]
              two_blocking_calls)).
  - reflexivity.
  - reflexivity.
  - reflexivity.
  - reflexivity.
  - apply state_after_reaches.
Defined.

(** ** Responses are filed under their own id *)

Lemma step_keyed (s s' : System) :
  step s s' →
  (∀ k v, ready_data (self (world s)) !! k = Some v →
          resp_req_id v = k ∧ k ≠ 0) →
  ∀ k v, ready_data (self (world s')) !! k = Some v →
         resp_req_id v = k ∧ k ≠ 0.
Proof.
  intros Hstep Hkeyed k v Hv.
  destruct Hstep as [s i c c' r w' Hc Hrun Hnext|s t' w' Hrun
                    |s req queue Hopen Hq|s queue Hopen Hq];
    cbn in Hv; auto.
  - destruct (call_step_ready_data _ _ _ _ _ _ Hrun Hnext)
      as [[Hsame _]|(_ & rid & _ & _ & _ & _ & _ & Hdel)].
    + rewrite Hsame in Hv. auto.
    + rewrite Hdel in Hv. apply lookup_delete_Some in Hv as [_ Hv]. auto.
  - destruct (data_thread_step_frame _ _ _ _ Hrun) as (_ & _ & Hr & _).
    destruct (Hr _ _ Hv); auto.
Qed.

Lemma reachable_keyed (s0 s : System) :
  initial s0 → rtc step s0 s →
  ∀ k v, ready_data (self (world s)) !! k = Some v →
         resp_req_id v = k ∧ k ≠ 0.
Proof.
  intros Hinit Hreach. revert s Hreach.
  apply (rtc_ind_r (λ s, ∀ k v, ready_data (self (world s)) !! k = Some v →
                                resp_req_id v = k ∧ k ≠ 0)).
  - intros k v. destruct Hinit as (-> & _). cbn. by rewrite lookup_empty.
  - intros s1 s2 _ Hstep IH. by apply (step_keyed s1).
Qed.

(** X13: a blocking call only ever returns a response that carries the id
    of its own request.  In a state reached from the construction of the
    client, when a step makes call [i] return [response], the call was
    waiting with a request stamped with the id [resp_req_id response], and
    that id is in [1 .. 2^31-1] (a response of id 0 is never returned). *)
Theorem blocking_send_returns_matching_id
    (s0 s s' : System) (i : nat) (response : DataResponse) :
  initial s0 →
  rtc step s0 s →
  step s s' →
  calls s !! i ≠ Some (returned (Some response)) →
  calls s' !! i = Some (returned (Some response)) →
  ∃ req,
    calls s !! i = Some (blocking_L136 req (req_id req))
    ∧ req_id req = resp_req_id response
    ∧ 1 ≤ resp_req_id response ≤ 2 ^ 31 - 1.
Proof.
  intros Hinit Hreach Hstep Hbefore Hafter.
  destruct (step_calls _ _ _ _ Hstep Hafter)
    as [Hsame|(c & r & Hc & Hrun & Hnext)]; [done|].
  destruct (call_step_ready_data _ _ _ _ _ _ Hrun Hnext)
    as [[_ Hnot]|(req & rid & v & -> & [= <-] & Hup & Hv & Hdel)].
  { by destruct (Hnot response). }
  destruct (reachable_well_formed _ _ Hinit Hreach) as [_ Hst].
  destruct (Hst _ _ Hc) as [<- Hrange].
  destruct (reachable_keyed _ _ Hinit Hreach _ _ Hv) as [Hkey _].
  exists req. rewrite Hkey. done.
Qed.

Lemma blocking_send_returns_matching_id_witness :
  let s := state_after [turn_call 0; turn_call 0; turn_call 0; turn_data]
             one_blocking_call in
  let response := mkDataResponse 1 (get "y") in
  ∃ req,
    calls s !! 0%nat = Some (blocking_L136 req (req_id req))
    ∧ req_id req = resp_req_id response
    ∧ 1 ≤ resp_req_id response ≤ 2 ^ 31 - 1.
Proof.
  cbv zeta.
  apply (blocking_send_returns_matching_id one_blocking_call
           (state_after [turn_call 0; turn_call 0; turn_call 0; turn_data]
              one_blocking_call)
           (state_after [turn_call 0; turn_call 0; turn_call 0; turn_data;
                         turn_call 0] one_blocking_call)).
  - repeat split; [repeat constructor|by eexists _, _].
  - apply state_after_reaches.
  - apply (schedule_step (turn_call 0)). reflexivity.
  - vm_compute. discriminate.
  - reflexivity.
Defined.

(** ** What goes onto the wire *)

Lemma step_valid_ids (s s' : System) :
  step s s' →
  well_formed s →
  (∀ req, Some req ∈ request_queue (self (world s)) ∨ req ∈ wire s →
          valid_id req) →
  ∀ req, Some req ∈ request_queue (self (world s')) ∨ req ∈ wire s' →
         valid_id req.
Proof.
  intros Hstep [_ Hst] Hvalid req Hreq.
  destruct Hstep as [s i c c' r w' Hc Hrun Hnext|s t' w' Hrun
                    |s rq queue Hopen Hq|s queue Hopen Hq]; cbn in Hreq.
  - destruct (call_step_footprint _ _ _ _ _ _ Hrun Hnext)
      as (_ & [Hq|[[_ Hq]|(rq & rid & Hpc & Hq)]] & _);
      rewrite Hq in Hreq.
    + auto.
    + destruct Hreq as [Hreq|Hreq]; [|auto].
      apply elem_of_app in Hreq as [Hreq|Hreq]; [auto|].
      by apply list_elem_of_singleton in Hreq.
    + destruct Hreq as [Hreq|Hreq]; [|auto].
      apply elem_of_app in Hreq as [Hreq|Hreq]; [auto|].
      apply list_elem_of_singleton in Hreq as [= ->].
      specialize (Hst _ _ Hc).
      destruct Hpc as [-> | ->]; destruct Hst as [Hid Hrange];
        unfold valid_id; by rewrite Hid.
  - destruct (data_thread_step_frame _ _ _ _ Hrun) as (Hq & _).
    rewrite Hq in Hreq. auto.
  - apply Hvalid. rewrite Hq. destruct Hreq as [Hreq|Hreq].
    + left. by right.
    + apply elem_of_app in Hreq as [Hreq|Hreq]; [by right|].
      apply list_elem_of_singleton in Hreq as ->. left. by left.
  - apply Hvalid. rewrite Hq. destruct Hreq as [Hreq|Hreq]; [|by right].
    left. by right.
Qed.

(** X14: no request leaves the client unstamped.  In every state reached
    from the construction of the client, each request in the request queue
    and each request written to the wire carries an id in [1 .. 2^31-1];
    in particular never the id 0 that the operations put in a new
    [DataRequest]. *)
Theorem requests_on_the_wire_are_stamped (s0 s : System) (req : DataRequest) :
  initial s0 →
  rtc step s0 s →
  Some req ∈ request_queue (self (world s)) ∨ req ∈ wire s →
  1 ≤ req_id req ≤ 2 ^ 31 - 1.
Proof.
  intros Hinit Hreach.
  assert (Hinv : well_formed s
    ∧ ∀ rq, Some rq ∈ request_queue (self (world s)) ∨ rq ∈ wire s →
            valid_id rq).
  { revert s Hreach. apply rtc_ind_r.
    - split; [by apply initial_well_formed|].
      destruct Hinit as (Hw & _ & _ & Hwire & _). rewrite Hw, Hwire. cbn.
      intros rq [Hrq|Hrq]; by apply elem_of_nil in Hrq.
    - intros s1 s2 _ Hstep [Hwf Hvalid].
      split; [by apply (step_well_formed s1)|].
      by apply (step_valid_ids s1). }
  destruct Hinv as [_ Hvalid]. intros Hreq. by apply Hvalid.
Qed.

Lemma requests_on_the_wire_are_stamped_witness :
  let s := state_after interleaving async_and_blocking in
  let req := mkDataRequest 2 (put "y") in
  1 ≤ req_id req ≤ 2 ^ 31 - 1.
Proof.
  cbv zeta.
  apply (requests_on_the_wire_are_stamped async_and_blocking
           (state_after interleaving async_and_blocking)).
  - repeat split; [repeat constructor|by eexists _, _].
  - apply state_after_reaches.
  - right. vm_compute. left.
Defined.

(** ** The order of the requests *)

Lemma step_outbound_log (s s' : System) :
  step s s' →
  (outbound_log s' = outbound_log s
   ∨ ∃ item, outbound_log s' = outbound_log s ++ [item])
  ∧ wire s `prefix_of` wire s'
  ∧ (outbound_open s = false →
     wire s' = wire s ∧ outbound_open s' = false).
Proof.
  intros Hstep.
  destruct Hstep as [s i c c' r w' Hc Hrun Hnext|s t' w' Hrun
                    |s rq queue Hopen Hq|s queue Hopen Hq];
    unfold outbound_log; cbn.
  - split; [|done].
    destruct (call_step_footprint _ _ _ _ _ _ Hrun Hnext)
      as (_ & [Hq|[[_ Hq]|(rq & rid & _ & Hq)]] & _); rewrite Hq.
    + by left.
    + right. exists None. by rewrite !app_assoc.
    + right. exists (Some rq). by rewrite !app_assoc.
  - split; [|done].
    destruct (data_thread_step_frame _ _ _ _ Hrun) as (Hq & _).
    rewrite Hq. by left.
  - split; [|split; [by apply prefix_app_r|congruence]].
    left. rewrite Hopen, Hq, fmap_app. cbn. by rewrite <- app_assoc.
  - split; [|split; [done|congruence]].
    left. rewrite Hopen, Hq. done.
Qed.

(** X15: requests leave in the order of the [put]s.  The sequence made of
    what has been written to the wire, the sentinel once it has been
    taken, and the content of the request queue only ever grows at its
    end: no step of the system reorders, drops or repeats an item.  What
    is on the wire stays on the wire, and once the outbound stream has
    taken the sentinel of [close], nothing more is written, although
    later calls still put requests on the queue. *)
Theorem outbound_order_is_preserved (s s' : System) :
  rtc step s s' →
  outbound_log s `prefix_of` outbound_log s'
  ∧ wire s `prefix_of` wire s'
  ∧ (outbound_open s = false →
     wire s' = wire s ∧ outbound_open s' = false).
Proof.
  revert s'. apply rtc_ind_r; [done|].
  intros s1 s2 _ Hstep (Hlog & Hwire & Hclosed).
  destruct (step_outbound_log _ _ Hstep) as (Hlog' & Hwire' & Hclosed').
  split; [|split].
  - etrans; [exact Hlog|].
    destruct Hlog' as [->|[item ->]]; [done|by apply prefix_app_r].
  - by etrans.
  - intros Hopen. destruct (Hclosed Hopen) as [Hw Ho].
    destruct (Hclosed' Ho) as [Hw' Ho']. split; [congruence|done].
Qed.

Lemma outbound_order_is_preserved_witness :
  let s := state_after (take 6 interleaving) async_and_blocking in
  let s' := state_after interleaving async_and_blocking in
  outbound_log s `prefix_of` outbound_log s'
  ∧ wire s `prefix_of` wire s'
  ∧ (outbound_open s = false →
     wire s' = wire s ∧ outbound_open s' = false).
Proof.
  cbv zeta.
  apply (outbound_order_is_preserved
           (state_after (take 6 interleaving) async_and_blocking)).
  apply (state_after_reaches [turn_outbound; turn_call 0]).
Defined.

(** After [close] has put the sentinel and the outbound stream has taken
    it, a request sent later stays in the queue. *)
Example request_after_close_is_not_written :
  let s := {| world := fresh;
              calls := [close_L114;
                        async_L154 (new_DataRequest (release "r")) None];
              data := finished (Return tt);
              wire := []; outbound_open := true |} in
  let s' := state_after
              [turn_call 0; turn_call 0; turn_outbound;
               turn_call 1; turn_call 1; turn_call 1; turn_call 1] s in
  calls s' !! 1%nat = Some (returned None)
  ∧ request_queue (self (world s')) = [Some (mkDataRequest 1 (release "r"))]
  ∧ wire s' = []
  ∧ schedule turn_outbound s' = None.
Proof. repeat split; reflexivity. Qed.

(** ** The period of the ids *)

(** X16: the ids repeat with period [2^31 - 1], and no sooner.  Among the
    ids returned by successive calls of [_next_id] on a fresh client, the
    allocation that comes [2^31 - 1] allocations after another one returns
    the same id: an id is reused while an earlier request with that id may
    still be outstanding. *)
Theorem next_id_repeats_after_full_cycle (n k : nat) :
  (k + Z.to_nat INT32_MAX < n)%nat →
  ∃ ids w' a,
    successive_next_id n fresh = (Return ids, w')
    ∧ ids !! k = Some a
    ∧ ids !! (k + Z.to_nat INT32_MAX)%nat = Some a.
Proof.
  intros Hlt.
  destruct (successive_next_id_run n fresh 0) as (w' & Hrun & _);
    [lia | reflexivity |].
  eexists _, w', _. split; [exact Hrun|].
  rewrite !list_lookup_fmap.
  rewrite (lookup_seq_lt 0 n k) by lia.
  rewrite (lookup_seq_lt 0 n (k + Z.to_nat INT32_MAX)) by lia.
  cbn [fmap option_fmap option_map]. split; [reflexivity|].
  f_equal. unfold id_of_call.
  assert (Hm : Z.of_nat (Z.to_nat INT32_MAX) = INT32_MAX).
  { apply Z2Nat.id. rewrite INT32_MAX_eq. lia. }
  revert Hm. generalize (Z.to_nat INT32_MAX). intros m Hm.
  replace (0 + 1 + Z.of_nat (0 + (k + m)) - 1)
    with (0 + 1 + Z.of_nat (0 + k) - 1 + 1 * INT32_MAX) by lia.
  rewrite Z.mod_add by (rewrite INT32_MAX_eq; lia). reflexivity.
Qed.

Lemma next_id_repeats_after_full_cycle_witness :
  ∃ ids w' a,
    successive_next_id (S (Z.to_nat INT32_MAX)) fresh = (Return ids, w')
    ∧ ids !! 0%nat = Some a
    ∧ ids !! (0 + Z.to_nat INT32_MAX)%nat = Some a.
Proof.
  apply (next_id_repeats_after_full_cycle (S (Z.to_nat INT32_MAX)) 0).
  apply Nat.lt_succ_diag_r.
Defined.

(** ** The ids of the calls in flight *)

Lemma pending_bounds (l : list Call) : 0 ≤ pending l ≤ Z.of_nat (length l).
Proof.
  induction l as [|c l IH]; cbn [pending length]; [lia|].
  destruct (before_allocation c); lia.
Qed.

Lemma pending_insert (l : list Call) (i : nat) (c c' : Call) :
  l !! i = Some c →
  pending (<[i := c']> l)
  = pending l - (if before_allocation c then 1 else 0)
    + (if before_allocation c' then 1 else 0).
Proof.
  revert i. induction l as [|x l IH]; intros [|i] Hl; cbn in Hl;
    simplify_eq.
  - cbn. lia.
  - change (<[S i := c']> (x :: l)) with (x :: <[i := c']> l).
    cbn [pending]. rewrite (IH i) by done. lia.
Qed.

(** A step of a call either is its allocation, or leaves the counter
    alone and gives the call no new id. *)
Lemma call_step_allocation (b : bool) (c c' : Call) (r : Outcome Call)
    (w w' : World) :
  call_step b c w = (r, w') →
  next_point r = Some c' →
  _req_id (self w) ≠ -1 →
  (_req_id (self w') = _req_id (self w)
   ∧ (held_id c' = None ∨ held_id c' = held_id c)
   ∧ (before_allocation c' = true → before_allocation c = true))
  ∨ (before_allocation c = true
     ∧ before_allocation c' = false
     ∧ held_id c' = Some (successor_id (_req_id (self w)))
     ∧ _req_id (self w') = successor_id (_req_id (self w))).
Proof.
  intros Hstep Hnext Hne.
  destruct c as [req|req|req rid|req rid|req cb|req cb|req rid cb|req rid
                | | | | |v|e0]; cbn [call_step] in Hstep.
  - left. revert Hstep. run_M. destruct (_in_shutdown (self w));
      intros [= <- <-]; cbn in Hnext; simplify_eq; cbn; auto.
  - right. rewrite bind_run, (_next_id_run w Hne) in Hstep.
    unfold ret in Hstep. simplify_eq. cbn in Hnext. simplify_eq. done.
  - left. revert Hstep. run_M. intros [= <- <-].
    cbn in Hnext. simplify_eq. cbn. auto.
  - left. rewrite bind_run in Hstep.
    destruct (_in_shutdown (self w)) eqn:Hdown.
    { rewrite _blocking_send_wait_shutdown in Hstep by done.
      simplify_eq. cbn in Hnext. simplify_eq. cbn. auto. }
    destruct (ready_data (self w) !! rid) as [d|] eqn:Hd.
    + rewrite (_blocking_send_wait_ready _ _ _ d) in Hstep by done.
      unfold ret in Hstep. simplify_eq. cbn in Hnext. simplify_eq.
      cbn. auto.
    + rewrite _blocking_send_wait_blocks in Hstep by done. by simplify_eq.
  - left. revert Hstep. run_M. destruct (_in_shutdown (self w));
      intros [= <- <-]; cbn in Hnext; simplify_eq; cbn; auto.
  - right. rewrite bind_run, (_next_id_run w Hne) in Hstep.
    unfold ret in Hstep. simplify_eq. cbn in Hnext. simplify_eq. done.
  - left. revert Hstep. unfold _async_send_register.
    destruct cb as [[[] f]|]; run_M; intros [= <- <-]; cbn in Hnext; simplify_eq;
      cbn; auto.
  - left. revert Hstep. run_M. intros [= <- <-].
    cbn in Hnext. simplify_eq. cbn. auto.
  - left. revert Hstep. run_M. intros [= <- <-].
    cbn in Hnext. simplify_eq. cbn. auto.
  - left. revert Hstep. run_M. intros [= <- <-].
    cbn in Hnext. simplify_eq. cbn. auto.
  - left. revert Hstep. destruct b; run_M; intros [= <- <-];
      cbn in Hnext; simplify_eq; cbn; auto.
  - left. revert Hstep. run_M. intros [= <- <-].
    cbn in Hnext. simplify_eq. cbn. auto.
  - unfold blocks in Hstep. by simplify_eq.
  - unfold blocks in Hstep. by simplify_eq.
Qed.

Lemma step_distinct_ids (n : Z) (s s' : System) :
  n < INT32_MAX →
  step s s' → distinct_ids n s → distinct_ids n s'.
Proof.
  intros Hn Hstep (Hpos & Hbound & Hheld & Hdist).
  destruct Hstep as [s i c c' r w' Hc Hrun Hnext|s t' w' Hrun
                    |s rq queue Hopen Hq|s queue Hopen Hq];
    unfold distinct_ids; cbn; [| |done|done].
  - rewrite (pending_insert _ _ c c' Hc).
    pose proof (pending_bounds (calls s)) as Hpend.
    destruct (call_step_allocation _ _ _ _ _ _ Hrun Hnext)
      as [(Hcount & Hid & Hbefore)|(Hb & Hb' & Hid & Hcount)]; [lia| |].
    + rewrite Hcount. split; [done|]. split.
      { destruct (before_allocation c'); [rewrite Hbefore by done; lia|].
        destruct (before_allocation c); lia. }
      assert (Hsub : ∀ j cj k,
        <[i := c']> (calls s) !! j = Some cj → held_id cj = Some k →
        ∃ cj', calls s !! j = Some cj' ∧ held_id cj' = Some k).
      { intros j cj k Hj Hk.
        apply list_lookup_insert_Some in Hj as [(<- & <- & _)|[_ Hj]];
          [|eauto].
        exists c. split; [done|]. destruct Hid as [Hid|Hid]; congruence. }
      split.
      * intros j cj k Hj Hk.
        destruct (Hsub _ _ _ Hj Hk) as (cj' & Hj' & Hk'). eauto.
      * intros j1 j2 c1 c2 k H1 H2 Hk1 Hk2.
        destruct (Hsub _ _ _ H1 Hk1) as (c1' & H1' & Hk1').
        destruct (Hsub _ _ _ H2 Hk2) as (c2' & H2' & Hk2'). eauto.
    + rewrite Hb, Hb'.
      assert (Hpend1 : 1 ≤ pending (calls s)).
      { clear -Hc Hb. revert i Hc.
        induction (calls s) as [|x l IH]; intros [|i] Hl; cbn in Hl;
          simplify_eq; cbn [pending].
        - rewrite Hb. pose proof (pending_bounds l). lia.
        - specialize (IH _ Hl). destruct (before_allocation x); lia. }
      assert (Hsucc : successor_id (_req_id (self (world s)))
                      = _req_id (self (world s)) + 1).
      { unfold successor_id.
        destruct (Z.gtb_spec (_req_id (self (world s)) + 1) INT32_MAX);
          [lia|done]. }
      rewrite Hcount, Hsucc. rewrite Hsucc in Hid.
      split; [lia|]. split; [lia|].
      assert (Hcases : ∀ j cj k,
        <[i := c']> (calls s) !! j = Some cj → held_id cj = Some k →
        (j = i ∧ k = _req_id (self (world s)) + 1)
        ∨ (j ≠ i ∧ calls s !! j = Some cj
           ∧ 1 ≤ k ≤ _req_id (self (world s)))).
      { intros j cj k Hj Hk.
        apply list_lookup_insert_Some in Hj as [(<- & <- & _)|[Hne' Hj]].
        - left. split; [done|]. congruence.
        - right. split; [done|]. split; [done|]. eauto. }
      split.
      * intros j cj k Hj Hk.
        destruct (Hcases _ _ _ Hj Hk) as [[_ ->]|(_ & _ & ?)]; lia.
      * intros j1 j2 c1 c2 k H1 H2 Hk1 Hk2.
        destruct (Hcases _ _ _ H1 Hk1) as [[-> ->]|(Hne1 & H1' & Hr1)];
        destruct (Hcases _ _ _ H2 Hk2) as [[-> Heq]|(Hne2 & H2' & Hr2)];
          try done; try lia.
        eauto.
  - rewrite (data_thread_step_counter _ _ _ _ Hrun). done.
Qed.

Lemma reachable_distinct_ids (s0 s : System) :
  initial s0 →
  Z.of_nat (length (calls s0)) < INT32_MAX →
  rtc step s0 s →
  distinct_ids (Z.of_nat (length (calls s0))) s.
Proof.
  intros Hinit Hn Hreach. revert s Hreach.
  apply (rtc_ind_r (λ s, distinct_ids (Z.of_nat (length (calls s0))) s)).
  - destruct Hinit as (Hw & Hentry & _).
    unfold distinct_ids. rewrite Hw. cbn.
    pose proof (pending_bounds (calls s0)).
    split; [done|]. split; [lia|].
    assert (Hnone : ∀ i c k, calls s0 !! i = Some c → held_id c ≠ Some k).
    { intros i c k Hc. rewrite Forall_lookup in Hentry.
      apply Hentry in Hc. by destruct c. }
    split.
    + intros i c k Hc Hk. by destruct (Hnone _ _ k Hc).
    + intros i j c1 c2 k Hc _ Hk. by destruct (Hnone _ _ k Hc).
  - intros s1 s2 _ Hstep IH. by apply (step_distinct_ids _ s1).
Qed.

(** X17: the ids of the calls in flight are pairwise different.  When the
    number of calls made on a client is smaller than [2^31 - 1], then in
    every state the system reaches, two different calls that have
    allocated their id and have not ended hold different ids, and each id
    held is at most the value of the counter. *)
Theorem ids_in_flight_are_distinct
    (s0 s : System) (i j : nat) (ci cj : Call) (k : Z) :
  initial s0 →
  Z.of_nat (length (calls s0)) < 2 ^ 31 - 1 →
  rtc step s0 s →
  calls s !! i = Some ci →
  calls s !! j = Some cj →
  held_id ci = Some k →
  held_id cj = Some k →
  i = j ∧ 1 ≤ k ≤ _req_id (self (world s)).
Proof.
  intros Hinit Hn Hreach Hi Hj Hki Hkj.
  destruct (reachable_distinct_ids _ _ Hinit Hn Hreach)
    as (_ & _ & Hheld & Hdist).
  split; eauto.
Qed.

Lemma ids_in_flight_are_distinct_witness :
  let s := state_after (take 6 interleaving) async_and_blocking in
  (1 = 1)%nat ∧ 1 ≤ 2 ≤ _req_id (self (world s)).
Proof.
  cbv zeta.
  apply (ids_in_flight_are_distinct async_and_blocking
           (state_after (take 6 interleaving) async_and_blocking) 1 1
           (blocking_L136 (mkDataRequest 2 (put "y")) 2)
           (blocking_L136 (mkDataRequest 2 (put "y")) 2)).
  - repeat split; [repeat constructor|by eexists _, _].
  - vm_compute. reflexivity.
  - apply state_after_reaches.
  - reflexivity.
  - reflexivity.
  - reflexivity.
  - reflexivity.
Defined.

(** Two calls in flight at once hold the ids 1 and 2. *)
Example ids_in_flight :
  calls (state_after (take 6 interleaving) async_and_blocking)
  = [async_L166 (mkDataRequest 1 (get "x")) 1;
     blocking_L136 (mkDataRequest 2 (put "y")) 2].
Proof. reflexivity. Qed.

(** ** Stored responses *)

(** X18: a response stored in [ready_data] is not dropped silently.  After
    any step of the system it is still stored under its id, unless the
    data thread has just stored, under the same id, the next response of
    the stream, or a blocking call waiting for that id has just returned
    it. *)
Theorem stored_response_leaves_by_delivery
    (s s' : System) (k : Z) (v : DataResponse) :
  step s s' →
  ready_data (self (world s)) !! k = Some v →
  ready_data (self (world s')) !! k = Some v
  ∨ (∃ v', ready_data (self (world s')) !! k = Some v'
           ∧ resp_req_id v' = k
           ∧ v' ∈ remaining (data s))
  ∨ (∃ i req, calls s !! i = Some (blocking_L136 req k)
              ∧ calls s' !! i = Some (returned (Some v))).
Proof.
  intros Hstep Hv.
  destruct Hstep as [s i c c' r w' Hc Hrun Hnext|s t' w' Hrun
                    |s rq queue Hopen Hq|s queue Hopen Hq]; cbn;
    [| |by left|by left].
  - destruct (call_step_ready_data _ _ _ _ _ _ Hrun Hnext)
      as [[-> _]|(req & rid & v0 & -> & -> & _ & Hv0 & ->)]; [by left|].
    destruct (decide (rid = k)) as [->|Hne].
    + right. right. exists i, req. split; [done|].
      rewrite Hv in Hv0. simplify_eq.
      apply list_lookup_insert_eq. by apply lookup_lt_Some in Hc.
    + left. by rewrite lookup_delete_ne.
  - destruct (data_thread_step_ready_data _ _ _ _ Hrun)
      as (_ & _ & [->|(response & -> & Hin & _)]); [by left|].
    destruct (decide (resp_req_id response = k)) as [<-|Hne].
    + right. left. exists response. by rewrite lookup_insert_eq.
    + left. by rewrite lookup_insert_ne.
Qed.

Lemma stored_response_leaves_by_delivery_witness :
  let s := state_after [turn_call 0; turn_call 0; turn_call 0; turn_data]
             one_blocking_call in
  let s' := state_after [turn_call 0] s in
  let v := mkDataResponse 1 (get "y") in
  ready_data (self (world s')) !! 1 = Some v
  ∨ (∃ v', ready_data (self (world s')) !! 1 = Some v'
           ∧ resp_req_id v' = 1
           ∧ v' ∈ remaining (data s))
  ∨ (∃ i req, calls s !! i = Some (blocking_L136 req 1)
              ∧ calls s' !! i = Some (returned (Some v))).
Proof.
  cbv zeta.
  apply (stored_response_leaves_by_delivery
           (state_after [turn_call 0; turn_call 0; turn_call 0; turn_data]
              one_blocking_call)).
  - apply (schedule_step (turn_call 0)). reflexivity.
  - reflexivity.
Defined.

(** ** When [close] has returned *)

Lemma call_step_stop_keepalive (b : bool) (c c' : Call) (r : Outcome Call)
    (w w' : World) :
  call_step b c w = (r, w') →
  next_point r = Some c' →
  stop_keepalive (self w) = true →
  stop_keepalive (self w') = true.
Proof.
  intros Hstep Hnext Hstop.
  destruct c as [req|req|req rid|req rid|req cb|req cb|req rid cb|req rid
                | | | | |v|e0]; cbn [call_step] in Hstep.
  - revert Hstep. run_M. destruct (_in_shutdown (self w));
      by intros [= <- <-].
  - rewrite bind_run in Hstep. destruct (_next_id_frame w) as [i Hi].
    destruct (_next_id w) as [[j| |] w1]; unfold ret in Hstep;
      simplify_eq; cbn in Hi; by rewrite Hi.
  - revert Hstep. run_M. by intros [= <- <-].
  - rewrite bind_run in Hstep.
    destruct (_in_shutdown (self w)) eqn:Hdown.
    { rewrite _blocking_send_wait_shutdown in Hstep by done.
      by simplify_eq. }
    destruct (ready_data (self w) !! rid) as [d|] eqn:Hd.
    + rewrite (_blocking_send_wait_ready _ _ _ d) in Hstep by done.
      unfold ret in Hstep. by simplify_eq.
    + rewrite _blocking_send_wait_blocks in Hstep by done. by simplify_eq.
  - revert Hstep. run_M. destruct (_in_shutdown (self w));
      by intros [= <- <-].
  - rewrite bind_run in Hstep. destruct (_next_id_frame w) as [i Hi].
    destruct (_next_id w) as [[j| |] w1]; unfold ret in Hstep;
      simplify_eq; cbn in Hi; by rewrite Hi.
  - revert Hstep. unfold _async_send_register.
    destruct cb as [[[] f]|]; run_M; by intros [= <- <-].
  - revert Hstep. run_M. by intros [= <- <-].
  - revert Hstep. run_M. by intros [= <- <-].
  - revert Hstep. run_M. by intros [= <- <-].
  - revert Hstep. destruct b; run_M; by intros [= <- <-].
  - revert Hstep. run_M. by intros [= <- <-].
  - unfold blocks in Hstep. by simplify_eq.
  - unfold blocks in Hstep. by simplify_eq.
Qed.

Lemma data_thread_step_stop_keepalive (t t' : DataThread) (w w' : World) :
  data_thread_step t w = Some (t', w') →
  stop_keepalive (self w') = stop_keepalive (self w)
  ∧ data_thread_finished t = false.
Proof.
  intros Hstep.
  assert (Hend : ∀ fin w1,
    stop_keepalive (self (snd (_data_main [] fin w1)))
    = stop_keepalive (self w1)).
  { intros fin w1. unfold _data_main, try_except_RpcError.
    cbn [for_response_in]. destruct fin as [|e]; [done|]. unfold raise.
    destruct e; try done. by rewrite on_RpcError_run. }
  destruct t as [[|response rest] fin|r]; cbn [data_thread_step] in Hstep.
  - specialize (Hend fin w).
    destruct (_data_main [] fin w) as [r w1]. by simplify_eq.
  - pose proof (handle_response_frame response w) as (_ & _ & Hk & _).
    destruct (handle_response response w) as [[[]|e|] w1]; cbn [snd] in Hk.
    + by simplify_eq.
    + specialize (Hend (StreamRaises e) w1).
      destruct (_data_main [] (StreamRaises e) w1) as [r w2].
      simplify_eq. cbn in Hend. split; [congruence|done].
    + discriminate.
  - discriminate.
Qed.

(** The three things [close] waits for or brings about stay as they are. *)
Lemma step_close_facts (s s' : System) :
  step s s' →
  (stop_keepalive (self (world s)) = true →
   stop_keepalive (self (world s')) = true)
  ∧ (None ∈ outbound_log s → None ∈ outbound_log s')
  ∧ (data_thread_finished (data s) = true →
     data_thread_finished (data s') = true).
Proof.
  intros Hstep. split; [|split].
  - destruct Hstep as [s i c c' r w' Hc Hrun Hnext|s t' w' Hrun
                      |s rq queue Hopen Hq|s queue Hopen Hq]; cbn;
      [|intros Hs|done|done].
    + by apply (call_step_stop_keepalive _ _ _ _ _ _ Hrun Hnext).
    + destruct (data_thread_step_stop_keepalive _ _ _ _ Hrun) as [-> _].
      done.
  - intros Hin.
    destruct (step_outbound_log _ _ Hstep) as ([->|[item ->]] & _);
      [done|]. apply elem_of_app. by left.
  - destruct Hstep as [s i c c' r w' Hc Hrun Hnext|s t' w' Hrun
                      |s rq queue Hopen Hq|s queue Hopen Hq]; cbn;
      try done.
    intros Hfin.
    destruct (data_thread_step_stop_keepalive _ _ _ _ Hrun) as [_ Hno].
    congruence.
Qed.

Lemma close_progress_step (s s' : System) (c : Call) :
  step s s' → close_progress c s → close_progress c s'.
Proof.
  intros Hstep Hprog.
  destruct (step_close_facts _ _ Hstep) as (Hk & Hlog & Hfin).
  destruct c as [| | | | | | | | | | | |[v|]|]; cbn in *; try done.
  - auto.
  - destruct Hprog. auto.
  - destruct Hprog as (? & ? & ?). auto.
  - destruct Hprog as (? & ? & ?). auto.
Qed.

Lemma step_close_progress (s s' : System) (i : nat) (c c' : Call) :
  step s s' →
  calls s !! i = Some c →
  calls s' !! i = Some c' →
  close_progress c s →
  close_progress c' s'.
Proof.
  intros Hstep Hc Hc' Hprog.
  destruct (step_calls _ _ _ _ Hstep Hc')
    as [Hsame|(c0 & r & Hc0 & Hrun & Hnext)].
  { rewrite Hc in Hsame. simplify_eq. by apply (close_progress_step s). }
  rewrite Hc in Hc0. simplify_eq.
  pose proof (close_progress_step _ _ _ Hstep Hprog) as Hprog'.
  destruct (step_outbound_log _ _ Hstep) as (Hlog & _).
  destruct (call_step_footprint _ _ _ _ _ _ Hrun Hnext) as (_ & Hq & _).
  destruct c0 as [| | | | | | | | | | | |[v|]|]; try done;
    cbn [call_step] in Hrun.
  - revert Hrun. run_M. intros [= <- Hw]. cbn in Hnext. simplify_eq.
    cbn. by rewrite <- Hw.
  - revert Hrun. run_M. intros [= <- Hw]. cbn in Hnext. simplify_eq.
    cbn in *. split; [done|].
    unfold outbound_log. rewrite <- Hw. cbn.
    rewrite !elem_of_app. right. right. right. by left.
  - destruct (data_thread_finished (data s)) eqn:Hfin.
    + revert Hrun. run_M. intros [= <- Hw]. cbn in Hnext. simplify_eq.
      destruct (step_close_facts _ _ Hstep) as (_ & _ & Hf).
      cbn in Hprog'. destruct Hprog' as [Hk' Hn']. cbn in Hf.
      cbn. auto.
    + unfold blocks in Hrun. by simplify_eq.
  - revert Hrun. run_M. intros [= <- Hw]. cbn in Hnext. by simplify_eq.
  - unfold blocks in Hrun. by simplify_eq.
Qed.

Lemma step_calls_length (s s' : System) :
  step s s' → length (calls s') = length (calls s).
Proof.
  intros Hstep. destruct Hstep; cbn; try done. apply length_insert.
Qed.

Lemma reachable_close_progress (s0 s : System) (i : nat) :
  calls s0 !! i = Some close_L114 →
  rtc step s0 s →
  ∃ c, calls s !! i = Some c ∧ close_progress c s.
Proof.
  intros Hstart Hreach. revert s Hreach.
  apply (rtc_ind_r (λ s, ∃ c, calls s !! i = Some c ∧ close_progress c s)).
  - exists close_L114. done.
  - intros s1 s2 _ Hstep (c1 & Hc1 & Hprog).
    destruct (lookup_lt_is_Some_2 (calls s2) i) as [c2 Hc2].
    { rewrite (step_calls_length _ _ Hstep). by apply lookup_lt_Some in Hc1. }
    exists c2. split; [done|].
    by apply (step_close_progress s1 s2 i c1).
Qed.

(** X19: what holds when [close] has returned.  For a call of [close] on a
    client, in every state the system reaches in which the call has
    returned: the keepalive event is set, the sentinel [None] has been put
    on the request queue, and the data thread has ended, since [close]
    waits for it in [join].  [close] itself never raises. *)
Theorem close_returns_after_data_thread
    (s0 s : System) (i : nat) (c : Call) :
  calls s0 !! i = Some close_L114 →
  rtc step s0 s →
  calls s !! i = Some c →
  (∀ e, c ≠ raised e)
  ∧ (∀ value, c = returned value →
       value = None
       ∧ stop_keepalive (self (world s)) = true
       ∧ None ∈ outbound_log s
       ∧ data_thread_finished (data s) = true).
Proof.
  intros Hstart Hreach Hc.
  destruct (reachable_close_progress _ _ _ Hstart Hreach)
    as (c1 & Hc1 & Hprog).
  rewrite Hc in Hc1. simplify_eq.
  split.
  - intros e ->. done.
  - intros value ->. by destruct value.
Qed.

Lemma close_returns_after_data_thread_witness :
  let s := state_after
             [turn_call 1; turn_call 0; turn_call 0; turn_call 1;
              turn_data; turn_call 0; turn_call 0; turn_call 1]
             close_and_blocking in
  (∀ e, returned None ≠ raised e)
  ∧ (∀ value, returned None = returned value →
       value = None
       ∧ stop_keepalive (self (world s)) = true
       ∧ None ∈ outbound_log s
       ∧ data_thread_finished (data s) = true).
Proof.
  cbv zeta.
  apply (close_returns_after_data_thread close_and_blocking _ 0).
  - reflexivity.
  - apply state_after_reaches.
  - reflexivity.
Defined.

(** After that interleaving [close] has returned, [_in_shutdown] is still
    false, and the blocking call is waiting in its [with self.cv] block. *)
Example closed_but_not_shut_down :
  let s := state_after
             [turn_call 1; turn_call 0; turn_call 0; turn_call 1;
              turn_data; turn_call 0; turn_call 0; turn_call 1]
             close_and_blocking in
  calls s = [returned None; blocking_L136 (mkDataRequest 1 (get "a")) 1]
  ∧ _in_shutdown (self (world s)) = false
  ∧ data s = finished (Return tt).
Proof. repeat split; reflexivity. Qed.
